(** * voice-transcribe: a shallow embedding of [voice-transcribe.c]

    The daemon records microphone audio into a growable buffer, broadcasts
    its state through a status file, and on stop uploads the audio and
    copies the transcription to the clipboard.  A second invocation acts
    as a "stop" command through a pid file and a signal.

    Conventions of the embedding:
    - [size_t] values are [Z] with the wrap-around modulo [2^64] written
      out ([wrap_size]);
    - pointers are [Z] addresses, [NULL] is [0]; the C heap is a finite map
      from addresses to blocks;
    - answers of the operating system and of the libraries (realloc, ALSA,
      curl, the clock, signals) are inputs of the model;
    - a computation that the C program may not finish yields an [outcome]. *)

From Stdlib Require Import ZArith QArith Qabs Lia String Ascii List.
From Stdlib Require Import DecimalString DecimalPos.
From stdpp Require Import base list gmap strings.
Import ListNotations.

Local Open Scope Z_scope.

(** ** Constants ([#define]s of the source) *)

Definition SAMPLE_RATE : Z := 16000.
Definition CHANNELS : Z := 1.
Definition BUFFER_SIZE : Z := 4096.
Definition MAX_RECORDING_TIME : Z := 300.
Definition PIDFILE : string := "/tmp/voice_transcribe.pid".
Definition STATUSFILE : string := "/tmp/voice_transcribe.status".

Definition SIGUSR1 : Z := 10.
Definition NULL : Z := 0.

(** [size_t] arithmetic on a 64-bit target. *)
Definition SIZE_MOD : Z := 2 ^ 64.
Definition wrap_size (x : Z) : Z := x mod SIZE_MOD.

(** ** Outcomes of a computation *)

Inductive outcome (A : Type) : Type :=
| Val (a : A)     (* the C code returns *)
| Crashed         (* undefined behaviour: invalid pointer use *)
| Diverged        (* a loop of the program itself never exits *)
| Pending.        (* the observed inputs ran out while a loop was still running *)
Arguments Val {A} a.
Arguments Crashed {A}.
Arguments Diverged {A}.
Arguments Pending {A}.

Definition obind {A B} (x : outcome A) (f : A -> outcome B) : outcome B :=
  match x with
  | Val a => f a
  | Crashed => Crashed
  | Diverged => Diverged
  | Pending => Pending
  end.

(** ** The heap and the audio buffer *)

(** An allocated block: its allocated size and the bytes stored so far at
    its start (the rest of the block is indeterminate and never read). *)
Record block : Type := mkBlock { blk_size : Z; blk_bytes : list Z }.

(** [typedef struct { void *data; size_t size; size_t capacity; } AudioBuffer;] *)
Record AudioBuffer : Type := mkAudioBuffer { data : Z; size : Z; capacity : Z }.

(** The buffer together with the heap its [data] pointer points into. *)
Record Mem : Type := mkMem { buf : AudioBuffer; heap : gmap Z block }.

(** [malloc(n)], the allocator answering [p] ([NULL] on failure). *)
Definition malloc (p : Z) (n : Z) (h : gmap Z block) : gmap Z block :=
  if p =? NULL then h else <[p := mkBlock n []]> h.

(** [realloc(old, n)], the allocator answering [q].  On failure the old
    block is left untouched; on success the contents move to [q]. *)
Definition realloc (q : Z) (old n : Z) (h : gmap Z block) : outcome (gmap Z block) :=
  if q =? NULL then Val h
  else if old =? NULL then Val (<[q := mkBlock n []]> h)
  else match h !! old with
       | Some b => Val (<[q := mkBlock n (take (Z.to_nat n) (blk_bytes b))]> (delete old h))
       | None => Crashed
       end.

(** [memcpy((char * )p + off, d, |d|)] into the block at [p]. *)
Definition memcpy_at (p off : Z) (d : list Z) (h : gmap Z block) : outcome (gmap Z block) :=
  match h !! p with
  | Some b =>
      if (0 <=? off) && (off + Z.of_nat (length d) <=? blk_size b)
      then Val (<[p := mkBlock (blk_size b)
                         (resize (Z.to_nat off) 0 (blk_bytes b) ++ d
                          ++ drop (Z.to_nat off + length d) (blk_bytes b))]> h)
      else Crashed
  | None => Crashed
  end.

(** [init_audio_buffer] *)
Definition init_audio_buffer (p : Z) (initial_size : Z) (m : Mem) : Mem :=
  mkMem (mkAudioBuffer p 0 initial_size) (malloc p initial_size (heap m)).

(** The [while (new_capacity < buf->size + size) new_capacity *= 2;] loop.
    A 64-bit value doubled 64 times is 0, so 64 rounds decide the loop:
    [None] is a loop that never exits (see [grow_loop_fuel]). *)
Fixpoint grow_loop (fuel : nat) (new_capacity need : Z) : option Z :=
  if new_capacity <? need then
    match fuel with
    | O => None
    | S f => grow_loop f (wrap_size (new_capacity * 2)) need
    end
  else Some new_capacity.

Definition GROW_FUEL : nat := 64.

(** [append_audio_buffer(buf, data, size)]; [q] is the answer of [realloc]
    should the function call it. *)
Definition append_audio_buffer (q : Z) (d : list Z) (m : Mem) : outcome Mem :=
  let b := buf m in
  let n := wrap_size (Z.of_nat (length d)) in
  let need := wrap_size (size b + n) in
  let grown : outcome (option Mem) :=
    if capacity b <? need then
      match grow_loop GROW_FUEL (wrap_size (capacity b * 2)) need with
      | None => Diverged
      | Some new_capacity =>
          obind (realloc q (data b) new_capacity (heap m)) (fun h' =>
          if q =? NULL then Val None
          else Val (Some (mkMem (mkAudioBuffer q (size b) new_capacity) h')))
      end
    else Val (Some m) in
  obind grown (fun g =>
  match g with
  | None => Val m                                   (* if (!new_data) return; *)
  | Some m1 =>
      let b1 := buf m1 in
      obind (memcpy_at (data b1) (size b1) d (heap m1)) (fun h2 =>
      Val (mkMem (mkAudioBuffer (data b1) need (capacity b1)) h2))
  end).

(** [free_audio_buffer] *)
Definition free_audio_buffer (m : Mem) : Mem :=
  mkMem (mkAudioBuffer NULL 0 0) (delete (data (buf m)) (heap m)).

(** A sequence of appends, each with the allocator's answer for it. *)
Fixpoint appends (ops : list (Z * list Z)) (m : Mem) : outcome Mem :=
  match ops with
  | [] => Val m
  | (q, d) :: rest => obind (append_audio_buffer q d m) (appends rest)
  end.

Definition total_bytes (ops : list (Z * list Z)) : Z :=
  foldr (fun op acc => Z.of_nat (length (snd op)) + acc) 0 ops.


(** ** C strings *)

Definition dquote : ascii := "034"%char.
Definition backslash : ascii := "092"%char.
Definition newline : ascii := "010"%char.
Definition tab : ascii := "009"%char.
Definition carriage_return : ascii := "013"%char.
Definition nul : ascii := "000"%char.

(** The C-string view of a byte sequence: everything before the first NUL. *)
Fixpoint c_str (s : string) : string :=
  match s with
  | EmptyString => EmptyString
  | String c s' => if Ascii.eqb c nul then EmptyString else String c (c_str s')
  end.

(** [needle] is found at the start of [hay]. *)
Fixpoint str_prefix (needle hay : string) : bool :=
  match needle with
  | EmptyString => true
  | String a needle' =>
      match hay with
      | EmptyString => false
      | String b hay' => Ascii.eqb a b && str_prefix needle' hay'
      end
  end.

(** [strstr(hay, needle)]: the suffix of [hay] at the first occurrence. *)
Fixpoint strstr (hay needle : string) : option string :=
  if str_prefix needle hay then Some hay
  else match hay with
       | EmptyString => None
       | String _ hay' => strstr hay' needle
       end.

(** [strchr(s, c) - s]: the offset of the first [c]. *)
Fixpoint strchr (s : string) (c : ascii) : option nat :=
  match s with
  | EmptyString => None
  | String d s' => if Ascii.eqb d c then Some O else S <$> strchr s' c
  end.

Fixpoint str_drop (n : nat) (s : string) : string :=
  match n, s with
  | O, _ => s
  | S n', String _ s' => str_drop n' s'
  | S _, EmptyString => EmptyString
  end.

Fixpoint str_take (n : nat) (s : string) : string :=
  match n, s with
  | S n', String c s' => String c (str_take n' s')
  | _, _ => EmptyString
  end.

(** The marker searched for in the response: a quote, [text], a quote, a
    colon, a quote (8 characters). *)
Definition text_marker : string :=
  String dquote ("text" +:+ String dquote (":" +:+ String dquote "")).

(** The [switch ( *src)] of the unescape loop. *)
Definition unescape_char (c : ascii) : ascii :=
  if Ascii.eqb c "n" then newline
  else if Ascii.eqb c "t" then tab
  else if Ascii.eqb c "r" then carriage_return
  else if Ascii.eqb c dquote then dquote
  else if Ascii.eqb c backslash then backslash
  else c.

(** The in-place unescape loop of [transcribe_audio].  [dst] never passes
    [src], so the loop reads only characters it has not overwritten and
    the result is a function of the original string. *)
Fixpoint unescape (s : string) : string :=
  match s with
  | EmptyString => EmptyString
  | String c rest =>
      if Ascii.eqb c backslash then
        match rest with
        | EmptyString => String c EmptyString
        | String e rest' => String (unescape_char e) (unescape rest')
        end
      else String c (unescape rest)
  end.

(** The same loop on the memory it runs in: [mem] is the buffer of
    [*result] with its terminating NUL, [src] and [dst] are offsets into
    it.  [unescape_in_place_refines] relates it to [unescape]. *)
Fixpoint unescape_in_place (fuel : nat) (mem : list ascii) (src dst : nat) : list ascii :=
  match fuel with
  | O => mem
  | S fuel' =>
      let c := default nul (mem !! src) in
      let e := default nul (mem !! S src) in
      if Ascii.eqb c nul then <[dst := nul]> mem
      else if Ascii.eqb c backslash && negb (Ascii.eqb e nul)
      then unescape_in_place fuel' (<[dst := unescape_char e]> mem) (S (S src)) (S dst)
      else unescape_in_place fuel' (<[dst := c]> mem) (S src) (S dst)
  end.

(** The raw field: from the end of the marker to the next quote. *)
Definition raw_text_field (response : string) : option string :=
  match strstr response text_marker with
  | None => None
  | Some text_start0 =>
      let text_start := str_drop 8 text_start0 in
      match strchr text_start dquote with
      | None => None
      | Some text_len => Some (str_take text_len text_start)
      end
  end.

(** "Parse JSON response" in [transcribe_audio]: [*result] afterwards
    ([None] is [NULL]). *)
Definition parse_response (response : string) : option string :=
  unescape <$> raw_text_field (c_str response).

(** ** Formatted output and input *)

(** [%d] and [%ld] *)
Definition fmt_d (z : Z) : string := NilZero.string_of_int (Z.to_int z).

(** [%02ld] *)
Definition fmt_02ld (z : Z) : string :=
  let s := fmt_d z in
  if (String.length s <? 2)%nat then "0" +:+ s else s.

(** Rounding of a non-negative rational to the nearest integer, ties to
    even (the rounding of [printf]). *)
Definition round_half_even (q : Q) : Z :=
  let n := Qnum q in
  let d := Z.pos (Qden q) in
  let fl := n / d in
  match (2 * (n mod d)) ?= d with
  | Lt => fl
  | Gt => fl + 1
  | Eq => if Z.even fl then fl else fl + 1
  end.

(** [%.2f] *)
Definition fmt_2f (q : Q) : string :=
  let h := round_half_even (Qabs q * 100) in
  (if Qnum q <? 0 then "-" else "")
  +:+ fmt_d (h / 100) +:+ "." +:+ fmt_02ld (h mod 100).

(** ["%s|%.2f|%02ld:%02ld\n"] *)
Definition status_line (status : string) (level : Q) (elapsed : Z) : string :=
  status +:+ "|" +:+ fmt_2f level +:+ "|"
  +:+ fmt_02ld (Z.quot elapsed 60) +:+ ":" +:+ fmt_02ld (Z.rem elapsed 60)
  +:+ String newline "".

Definition is_space (c : ascii) : bool :=
  let n := Z.of_nat (nat_of_ascii c) in (n =? 32) || ((9 <=? n) && (n <=? 13)).

Definition digit_of (c : ascii) : option Z :=
  let n := Z.of_nat (nat_of_ascii c) in
  if (48 <=? n) && (n <=? 57) then Some (n - 48) else None.

Fixpoint skip_space (s : string) : string :=
  match s with
  | EmptyString => EmptyString
  | String c s' => if is_space c then skip_space s' else s
  end.

Fixpoint scan_digits (acc : option Z) (s : string) : option Z :=
  match s with
  | EmptyString => acc
  | String c s' =>
      match digit_of c with
      | Some d => scan_digits (Some (10 * default 0 acc + d)) s'
      | None => acc
      end
  end.

(** The conversion of [fscanf(pf, "%d", &pid)]: the number is read as a
    [long] (saturating) and stored as an [int]; [None] when no digits are
    found and nothing is assigned. *)
Definition clamp_long (z : Z) : Z := Z.max (- 2 ^ 63) (Z.min (2 ^ 63 - 1) z).
Definition int_of_long (z : Z) : Z := (z + 2 ^ 31) mod 2 ^ 32 - 2 ^ 31.

Definition scan_d (s : string) : option Z :=
  let s1 := skip_space s in
  (fun v => int_of_long (clamp_long v)) <$>
  match s1 with
  | String "-" s2 => Z.opp <$> scan_digits None s2
  | String "+" s2 => scan_digits None s2
  | _ => scan_digits None s1
  end.

(** ** Events, inputs and state *)

(** Calls of the program that reach outside the process, in program
    order.  A call of [update_status] is recorded whether or not the status
    file is open. *)
Inductive Event : Type :=
| Ev_signal (pid sig : Z)                        (* kill(pid, sig), sig not 0 *)
| Ev_update_status (status : string) (level : Q) (* update_status(status, level) *)
| Ev_pcm_open (name : string)                    (* snd_pcm_open *)
| Ev_pcm_readi                                   (* snd_pcm_readi *)
| Ev_pcm_close                                   (* snd_pcm_close *)
| Ev_upload (audio_size : Z)                     (* curl_easy_perform *)
| Ev_clipboard (text : string).                  (* copy_to_clipboard *)

(** What [snd_pcm_readi] answers in one capture iteration. *)
Inductive pcm_read : Type :=
| Read_frames (samples : list Z)         (* that many frames were stored *)
| Read_error (code : Z) (recovered : Z). (* error code; answer of snd_pcm_recover *)

(** What happens around one iteration of the capture loop.  A stop signal
    acts through the flag only, so its delivery is placed at the loop test
    that first sees it. *)
Record Tick : Type := mkTick {
  t_signal : bool;     (* a stop signal is delivered before the loop test *)
  t_now : Z;           (* the clock at the loop test *)
  t_read : pcm_read;   (* the device's answer *)
  t_realloc : Z        (* the allocator's answer if the buffer has to grow *)
}.

(** The answers of the system to one invocation. *)
Record Env : Type := mkEnv {
  e_kill_probe : Z -> bool;       (* kill(pid, 0) == 0 *)
  e_uninit_pid : Z;               (* value of [pid] when fscanf assigns nothing *)
  e_status_open : bool;           (* fopen(STATUSFILE, "w") succeeds *)
  e_api_key : option string;      (* what load_env leaves in g_api_key *)
  e_fork : Z;                     (* what fork() returns in the parent *)
  e_pid_open : bool;              (* fopen(PIDFILE, "w") succeeds *)
  e_open_plughw : bool;           (* snd_pcm_open("plughw:0,0") succeeds *)
  e_open_default : bool;          (* snd_pcm_open("default") succeeds *)
  e_hw_params : bool;             (* snd_pcm_hw_params succeeds *)
  e_malloc : Z;                   (* malloc in init_audio_buffer *)
  e_pcm : list Z;                 (* initial contents of the local [buffer] *)
  e_ticks : list Tick;            (* the capture iterations *)
  e_mkstemps : bool;              (* mkstemps succeeds *)
  e_curl_init : bool;             (* curl_easy_init succeeds *)
  e_curl_ok : bool;               (* curl_easy_perform returns CURLE_OK *)
  e_response : option string      (* response.data, None when still NULL *)
}.

(** The state: the two files, the globals of the process, the heap, the
    clock, the pending schedule of the monitor thread and the events so
    far.  [sched] lists, for the successive points at which the monitor
    thread may run, how many iterations of its loop it runs there. *)
Record World : Type := mkWorld {
  pidfile : option string;
  statusfile : option string;
  g_status_file : bool;
  g_api_key : option string;
  g_stop_recording : bool;
  g_record_start_time : Z;
  g_current_level : Q;
  g_audio_buffer : Mem;
  now : Z;
  sched : list nat;
  trace : list Event
}.

Definition set_pidfile (v : option string) (w : World) : World :=
  mkWorld v (statusfile w) (g_status_file w) (g_api_key w) (g_stop_recording w)
    (g_record_start_time w) (g_current_level w) (g_audio_buffer w) (now w) (sched w) (trace w).
Definition set_statusfile (v : option string) (w : World) : World :=
  mkWorld (pidfile w) v (g_status_file w) (g_api_key w) (g_stop_recording w)
    (g_record_start_time w) (g_current_level w) (g_audio_buffer w) (now w) (sched w) (trace w).
Definition set_g_status_file (v : bool) (w : World) : World :=
  mkWorld (pidfile w) (statusfile w) v (g_api_key w) (g_stop_recording w)
    (g_record_start_time w) (g_current_level w) (g_audio_buffer w) (now w) (sched w) (trace w).
Definition set_g_api_key (v : option string) (w : World) : World :=
  mkWorld (pidfile w) (statusfile w) (g_status_file w) v (g_stop_recording w)
    (g_record_start_time w) (g_current_level w) (g_audio_buffer w) (now w) (sched w) (trace w).
Definition set_g_stop_recording (v : bool) (w : World) : World :=
  mkWorld (pidfile w) (statusfile w) (g_status_file w) (g_api_key w) v
    (g_record_start_time w) (g_current_level w) (g_audio_buffer w) (now w) (sched w) (trace w).
Definition set_g_record_start_time (v : Z) (w : World) : World :=
  mkWorld (pidfile w) (statusfile w) (g_status_file w) (g_api_key w) (g_stop_recording w)
    v (g_current_level w) (g_audio_buffer w) (now w) (sched w) (trace w).
Definition set_g_current_level (v : Q) (w : World) : World :=
  mkWorld (pidfile w) (statusfile w) (g_status_file w) (g_api_key w) (g_stop_recording w)
    (g_record_start_time w) v (g_audio_buffer w) (now w) (sched w) (trace w).
Definition set_g_audio_buffer (v : Mem) (w : World) : World :=
  mkWorld (pidfile w) (statusfile w) (g_status_file w) (g_api_key w) (g_stop_recording w)
    (g_record_start_time w) (g_current_level w) v (now w) (sched w) (trace w).
Definition set_now (v : Z) (w : World) : World :=
  mkWorld (pidfile w) (statusfile w) (g_status_file w) (g_api_key w) (g_stop_recording w)
    (g_record_start_time w) (g_current_level w) (g_audio_buffer w) v (sched w) (trace w).
Definition set_sched (v : list nat) (w : World) : World :=
  mkWorld (pidfile w) (statusfile w) (g_status_file w) (g_api_key w) (g_stop_recording w)
    (g_record_start_time w) (g_current_level w) (g_audio_buffer w) (now w) v (trace w).
Definition set_trace (v : list Event) (w : World) : World :=
  mkWorld (pidfile w) (statusfile w) (g_status_file w) (g_api_key w) (g_stop_recording w)
    (g_record_start_time w) (g_current_level w) (g_audio_buffer w) (now w) (sched w) v.

(** ** The monad of the program: state, and an outcome that keeps the
    state reached when the run stops early. *)

Definition M (A : Type) : Type := World -> outcome A * World.

Definition ret {A} (a : A) : M A := fun w => (Val a, w).

Definition bind {A B} (m : M A) (f : A -> M B) : M B := fun w =>
  match m w with
  | (Val a, w') => f a w'
  | (Crashed, w') => (Crashed, w')
  | (Diverged, w') => (Diverged, w')
  | (Pending, w') => (Pending, w')
  end.

Notation "x <- m ;; k" := (bind m (fun x => k))
  (at level 100, m at next level, right associativity).
Notation "m ;; k" := (bind m (fun _ => k))
  (at level 100, right associativity).

Definition modify (f : World -> World) : M unit := fun w => (Val tt, f w).
Definition gets {A} (f : World -> A) : M A := fun w => (Val (f w), w).
Definition emit (e : Event) : M unit := modify (fun w => set_trace (trace w ++ [e]) w).
Definition lift {A} (o : outcome A) : M A := fun w => (o, w).

(** ** The status channel *)

(** [ftruncate(fd, len)]: the file is cut, or extended with NUL bytes. *)
Fixpoint ftruncate (len : nat) (content : string) : string :=
  match len with
  | O => EmptyString
  | S len' =>
      match content with
      | EmptyString => String nul (ftruncate len' EmptyString)
      | String c content' => String c (ftruncate len' content')
      end
  end.

(** [fflush] of a stream that holds [pending] for file offset 0. *)
Definition fflush_at_0 (pending content : string) : string :=
  pending +:+ str_drop (String.length pending) content.

(** [update_status]: after [fseek] to 0 the record is formatted into the
    stream's buffer, the file is truncated to [ftell], the length of the
    record, and the buffer is flushed over it.  One call is taken as one
    step: the two threads that call it are not interleaved inside it. *)
Definition update_status (status : string) (level : Q) : M unit :=
  emit (Ev_update_status status level);;
  modify (fun w =>
    if g_status_file w then
      let elapsed := now w - g_record_start_time w in
      let line := status_line status level elapsed in
      set_statusfile
        ((fun disk => fflush_at_0 line (ftruncate (String.length line) disk))
           <$> statusfile w) w
    else w).

(** ** The monitor thread *)

(** [signal_handler] *)
Definition signal_handler : M unit := modify (set_g_stop_recording true).

(** [monitor_thread] first writes and launches the visualizer script,
    which is outside the model; what it does to the session is its loop. *)

(** One round of [while (!g_stop_recording) update_status("RECORDING", g_current_level)]. *)
Definition monitor_round : M unit :=
  stop <- gets g_stop_recording;;
  if stop then ret tt
  else (level <- gets g_current_level;; update_status "RECORDING" level).

Fixpoint monitor_rounds (n : nat) : M unit :=
  match n with
  | O => ret tt
  | S n' => monitor_round;; monitor_rounds n'
  end.

(** A point of the main or capture thread at which the monitor thread may
    be scheduled: it runs as many rounds as the schedule says. *)
Definition yield : M unit :=
  s <- gets sched;;
  match s with
  | [] => ret tt
  | n :: s' => modify (set_sched s');; monitor_rounds n
  end.

(** ** The capture thread *)

(** Two bytes per sample, little endian ([SND_PCM_FORMAT_S16_LE]). *)
Definition short_bytes (s : Z) : list Z := [s mod 256; (s / 256) mod 256].
Definition pcm_bytes (samples : list Z) : list Z := flat_map short_bytes samples.

Definition Qlt_bool (x y : Q) : bool := negb (Qle_bool y x).

(** [fabsf((float)buffer[i] / 32768.0f)]: a 16-bit sample and its quotient
    by a power of two are exact in single precision, so the value is the
    rational itself. *)
Definition amplitude (s : Z) : Q := Qabs (inject_Z s / 32768).

(** The [for] loop over the frame, from [max_amp = 0.0f]. *)
Definition peak_level (samples : list Z) : Q :=
  fold_left (fun max_amp s =>
               let amp := amplitude s in
               if Qlt_bool max_amp amp then amp else max_amp)
            samples 0%Q.

(** What the environment does before the loop test of an iteration. *)
Definition deliver (t : Tick) : M unit :=
  modify (set_now (t_now t));;
  yield;;
  if t_signal t then signal_handler else ret tt.

(** The body of the capture loop after its two tests: one read, and for
    a positive frame count the append and the level; [buffer] is the local
    array of samples, returned as the read leaves it. *)
Definition capture_body (t : Tick) (buffer : list Z) : M (list Z) :=
  emit Ev_pcm_readi;;
  let buffer1 :=
    match t_read t with
    | Read_frames samples => samples ++ drop (length samples) buffer
    | Read_error _ _ => buffer
    end in
  let frames0 :=
    match t_read t with
    | Read_frames samples => Z.of_nat (length samples)
    | Read_error code _ => code
    end in
  let frames :=
    if frames0 <? 0
    then match t_read t with Read_error _ recovered => recovered | _ => frames0 end
    else frames0 in
  (if frames >? 0 then
     let samples := take (Z.to_nat frames) buffer1 in
     m <- gets g_audio_buffer;;
     m' <- lift (append_audio_buffer (t_realloc t) (pcm_bytes samples) m);;
     modify (set_g_audio_buffer m');;
     modify (set_g_current_level (peak_level samples))
   else ret tt);;
  ret buffer1.

(** One iteration of [while (!g_stop_recording) { ... }]: [None] when the
    loop is left (the flag is set, or the ceiling is passed and [break]),
    [Some buffer] when it goes round again. *)
Definition capture_iter (t : Tick) (buffer : list Z) : M (option (list Z)) :=
  deliver t;;
  stop <- gets g_stop_recording;;
  if stop then ret None else
  elapsed <- gets (fun w => now w - g_record_start_time w);;
  if elapsed >? MAX_RECORDING_TIME then (update_status "MAX_TIME" 0;; ret None)
  else (buffer1 <- capture_body t buffer;; ret (Some buffer1)).

(** The loop over the observed iterations. *)
Fixpoint capture_loop (ticks : list Tick) (buffer : list Z) : M unit :=
  match ticks with
  | [] =>
      stop <- gets g_stop_recording;;
      if stop then ret tt else lift Pending
  | t :: rest =>
      r <- capture_iter t buffer;;
      match r with
      | None => ret tt
      | Some buffer1 => capture_loop rest buffer1
      end
  end.

(** The iterations of [ticks] as long as the loop goes on: [Some buffer]
    when it is still running after all of them. *)
Fixpoint capture_prefix (ticks : list Tick) (buffer : list Z) : M (option (list Z)) :=
  match ticks with
  | [] => ret (Some buffer)
  | t :: rest =>
      r <- capture_iter t buffer;;
      match r with
      | None => ret None
      | Some buffer1 => capture_prefix rest buffer1
      end
  end.

(** [snd_pcm_open] of the direct device, then of the default one. *)
Definition open_device (env : Env) : M bool :=
  emit (Ev_pcm_open "plughw:0,0");;
  if e_open_plughw env then ret true
  else (emit (Ev_pcm_open "default");;
        if e_open_default env then ret true
        else (update_status "ERROR: Audio device failed" 0;; ret false)).

(** [recording_thread] up to its loop: [true] when the loop is entered. *)
Definition recording_prologue (env : Env) : M bool :=
  yield;;
  opened <- open_device env;;
  if negb opened then ret false
  else if negb (e_hw_params env) then (emit Ev_pcm_close;; ret false)
  else
    m <- gets g_audio_buffer;;
    modify (set_g_audio_buffer (init_audio_buffer (e_malloc env) (SAMPLE_RATE * 2 * 10) m));;
    yield;;
    update_status "READY" 0;;
    yield;;
    update_status "RECORDING" 0;;
    ret true.

(** [recording_thread] *)
Definition recording_thread (env : Env) : M unit :=
  entered <- recording_prologue env;;
  if entered then (capture_loop (e_ticks env) (e_pcm env);; emit Ev_pcm_close)
  else ret tt.

(** ** Transcription *)

(** [transcribe_audio]: the return value and [*result].  The audio is
    written with a WAV header to a temporary file and posted; of this the
    model keeps the calls that can fail and the size sent.  [e_response] is
    the body that [write_callback] has accumulated in [response.data]. *)
Definition transcribe_audio (env : Env) (audio_size : Z) : M (Z * option string) :=
  if negb (e_mkstemps env) then ret (-1, None)
  else if negb (e_curl_init env) then ret (-1, None)
  else
    emit (Ev_upload audio_size);;
    if negb (e_curl_ok env) then ret (-1, None)
    else match e_response env with
         | None => lift Crashed                     (* strstr(NULL, ...) *)
         | Some body =>
             let result := parse_response body in
             ret (match result with Some _ => 0 | None => -1 end, result)
         end.

Definition copy_to_clipboard (text : string) : M unit := emit (Ev_clipboard text).

(** ** [main] *)

(** [check_running] *)
Definition check_running (env : Env) : M Z :=
  pf <- gets pidfile;;
  match pf with
  | None => ret 0
  | Some content =>
      let pid := default (e_uninit_pid env) (scan_d content) in
      if e_kill_probe env pid then ret pid
      else (modify (set_pidfile None);; ret 0)
  end.

(** [main] up to the call of [fork]: [Some code] when it returns before. *)
Definition main_startup (env : Env) : M (option Z) :=
  existing_pid <- check_running env;;
  if existing_pid >? 0 then (emit (Ev_signal existing_pid SIGUSR1);; ret (Some 0))
  else
    (if e_status_open env
     then modify (fun w => set_g_status_file true (set_statusfile (Some "") w))
     else ret tt);;
    modify (set_g_api_key (e_api_key env));;
    key <- gets g_api_key;;
    match key with
    | None => modify (set_pidfile None);; ret (Some 1)
    | Some _ => ret None
    end.

(** The parent after [fork]. *)
Definition main_parent (env : Env) (child_pid : Z) : M Z :=
  (if e_pid_open env
   then modify (set_pidfile (Some (fmt_d child_pid +:+ String newline "")))
   else ret tt);;
  ret 0.

(** The recording phase of the child: both threads are started, the
    capture thread is joined, and the monitor is told to stop. *)
Definition session_start : M unit :=
  t <- gets now;;
  modify (set_g_record_start_time t);;
  update_status "CONNECTING" 0.

Definition record_phase (env : Env) : M unit :=
  session_start;;
  recording_thread env;;
  yield;;
  update_status "PROCESSING" 0;;
  yield;;
  modify (set_g_stop_recording true).

(** "Process audio" *)
Definition process_audio (env : Env) : M unit :=
  m <- gets g_audio_buffer;;
  if size (buf m) >? 0 then
    update_status "UPLOADING" 0;;
    r <- transcribe_audio env (size (buf m));;
    match r with
    | (0, Some transcription) =>
        copy_to_clipboard transcription;;
        update_status "COPIED" 0
    | _ => update_status "FAILED" 0
    end
  else update_status "NO_AUDIO" 0.

(** "Cleanup" *)
Definition cleanup : M unit :=
  modify (fun w => set_g_audio_buffer (free_audio_buffer (g_audio_buffer w)) w);;
  modify (set_g_api_key None);;
  modify (set_pidfile None);;
  open <- gets g_status_file;;
  if open then modify (set_statusfile None) else ret tt.

(** The child after [fork]: the daemon. *)
Definition main_child (env : Env) : M Z :=
  record_phase env;;
  process_audio env;;
  cleanup;;
  ret 0.

(** [main], with the value [fork] returns in this process. *)
Definition main (fork_ret : Z) (env : Env) : M Z :=
  r <- main_startup env;;
  match r with
  | Some code => ret code
  | None =>
      if fork_ret >? 0 then main_parent env fork_ret
      else if fork_ret <? 0 then ret 1
      else main_child env
  end.

(** One invocation of the command: [main] in the invoking process and,
    when it forks, the child after the parent has returned. *)
Definition invocation (env : Env) : M Z :=
  r <- main_startup env;;
  match r with
  | Some code => ret code
  | None =>
      if e_fork env >? 0 then (main_parent env (e_fork env);; main_child env)
      else if e_fork env <? 0 then ret 1
      else main_child env
  end.

(** The state of a fresh process. *)
Definition boot (pf sf : option string) (clock : Z) (s : list nat) : World :=
  mkWorld pf sf false None false 0 0%Q
          (mkMem (mkAudioBuffer NULL 0 0) ∅) clock s [].

(** The statuses passed to [update_status], in order. *)
Definition statuses (t : list Event) : list string :=
  omap (fun e => match e with Ev_update_status s _ => Some s | _ => None end) t.

Definition STATUS_TOKENS : list string :=
  ["CONNECTING"; "READY"; "RECORDING"; "PROCESSING"; "UPLOADING";
   "COPIED"; "FAILED"; "NO_AUDIO"; "MAX_TIME"; "ERROR"].

(** ** Notions used to state the properties *)

(** The buffer is well formed and holds [bytes]: the capacity is the
    initial capacity [c0] doubled some number of times, the length is the
    number of bytes held, and [data] points to a block of [capacity]
    bytes that starts with them. *)
Definition buf_holds (c0 : Z) (m : Mem) (bytes : list Z) : Prop :=
  (exists k : nat, capacity (buf m) = c0 * 2 ^ Z.of_nat k) /\
  size (buf m) = Z.of_nat (length bytes) /\
  size (buf m) <= capacity (buf m) /\
  capacity (buf m) < SIZE_MOD /\
  data (buf m) <> NULL /\
  heap m !! data (buf m) = Some (mkBlock (capacity (buf m)) bytes).

(** [c] occurs in [s]. *)
Fixpoint str_mem (c : ascii) (s : string) : bool :=
  match s with
  | EmptyString => false
  | String d s' => Ascii.eqb d c || str_mem c s'
  end.

(** The JSON encoding of the five characters that [unescape] decodes: a
    backslash followed by [n], [t], [r], a quote or a backslash. *)
Definition escape_char (c : ascii) : string :=
  if Ascii.eqb c newline then String backslash "n"
  else if Ascii.eqb c tab then String backslash "t"
  else if Ascii.eqb c carriage_return then String backslash "r"
  else if Ascii.eqb c dquote then String backslash (String dquote "")
  else if Ascii.eqb c backslash then String backslash (String backslash "")
  else String c "".

Fixpoint escape (s : string) : string :=
  match s with
  | EmptyString => EmptyString
  | String c s' => escape_char c +:+ escape s'
  end.

(** A response body whose text field holds [value] encoded. *)
Definition json_text_response (value : string) : string :=
  "{" +:+ text_marker +:+ escape value +:+ String dquote "}".

(** The value [say "hi"], with its two quotes. *)
Definition say_hi : string := "say " +:+ String dquote ("hi" +:+ String dquote "").

(** Two states agree on everything but the status file, the pending
    schedule and the trace. *)
Definition steady (w w' : World) : Prop :=
  pidfile w' = pidfile w /\
  g_status_file w' = g_status_file w /\
  g_api_key w' = g_api_key w /\
  g_stop_recording w' = g_stop_recording w /\
  g_record_start_time w' = g_record_start_time w /\
  g_current_level w' = g_current_level w /\
  g_audio_buffer w' = g_audio_buffer w /\
  now w' = now w.

(** A status record written by the monitor thread. *)
Definition is_monitor_event (e : Event) : Prop :=
  exists level, e = Ev_update_status "RECORDING" level.

(** The events of the recording phase: device calls, and status updates
    with one of six statuses. *)
Definition RECORD_STATUSES : list string :=
  ["CONNECTING"; "READY"; "RECORDING"; "MAX_TIME"; "ERROR: Audio device failed";
   "PROCESSING"].

Definition rec_event (e : Event) : Prop :=
  match e with
  | Ev_update_status s _ => In s RECORD_STATUSES
  | Ev_pcm_open _ | Ev_pcm_readi | Ev_pcm_close => True
  | _ => False
  end.

(** A status update with one of the ten tokens, or with the text of the
    device error. *)
Definition status_token_event (e : Event) : Prop :=
  match e with
  | Ev_update_status s _ => In s STATUS_TOKENS \/ s = "ERROR: Audio device failed"
  | _ => True
  end.

(** Every run of [m] appends to the trace, and only events in [P]. *)
Definition emits {A} (P : Event -> Prop) (m : M A) : Prop :=
  forall w, exists t, trace (snd (m w)) = trace w ++ t /\ Forall P t.

(** No run of [m] changes the component [f] of the state. *)
Definition preserves {X A} (f : World -> X) (m : M A) : Prop :=
  forall w, f (snd (m w)) = f w.

(** The largest absolute value among the samples of a frame. *)
Definition max_abs (samples : list Z) : Z := foldr Z.max 0 (map Z.abs samples).

(** A signed 16-bit sample. *)
Definition is_int16 (s : Z) : Prop := -32768 <= s <= 32767.

(** The first field of a status record: the text before the first bar. *)
Definition status_field (line : string) : string :=
  str_take (default O (strchr line "|")) line.

(** The value of a string of decimal digits read after [acc]. *)
Fixpoint uint_value (d : Decimal.uint) (acc : Z) : Z :=
  match d with
  | Decimal.Nil => acc
  | Decimal.D0 d' => uint_value d' (10 * acc + 0)
  | Decimal.D1 d' => uint_value d' (10 * acc + 1)
  | Decimal.D2 d' => uint_value d' (10 * acc + 2)
  | Decimal.D3 d' => uint_value d' (10 * acc + 3)
  | Decimal.D4 d' => uint_value d' (10 * acc + 4)
  | Decimal.D5 d' => uint_value d' (10 * acc + 5)
  | Decimal.D6 d' => uint_value d' (10 * acc + 6)
  | Decimal.D7 d' => uint_value d' (10 * acc + 7)
  | Decimal.D8 d' => uint_value d' (10 * acc + 8)
  | Decimal.D9 d' => uint_value d' (10 * acc + 9)
  end.

(** ** Concrete inputs *)

(** The child at the moment of the fork: the state [main] has reached
    when it calls [fork], started in a fresh process with no files. *)
Definition world_at_fork (env : Env) (s : list nat) : World :=
  snd (main_startup env (boot None None 0 s)).

(** A system where no process is alive, every call succeeds, the daemon
    gets pid 4242, and the capture sees [ticks] and the response [body]. *)
Definition sample_env (plughw default : bool) (ticks : list Tick)
    (body : option string) : Env :=
  mkEnv (fun _ => false) 0 true (Some "sk-test") 4242 true
        plughw default true 4096 (replicate 4096 0) ticks
        true true true body.

(** No capture device can be opened. *)
Definition env_device_failure : Env := sample_env false false [] None.

(** One frame is captured, a stop signal arrives, and the backend answers
    with an empty text field. *)
Definition env_empty_text : Env :=
  sample_env true true
    [mkTick false 1 (Read_frames [7; -9]) 0; mkTick true 2 (Read_frames []) 0]
    (Some (json_text_response "")).

(** One frame is captured at second 10; at second 301 no stop signal has
    arrived. *)
Definition tick_frame : Tick := mkTick false 10 (Read_frames [100; -200]) 0.
Definition tick_late : Tick := mkTick false 301 (Read_frames [1]) 0.
Definition env_max_time : Env :=
  sample_env true true [tick_frame; tick_late] (Some (json_text_response "hello world")).

(** The backend answers with the text field [say "hi"]. *)
Definition env_say_hi : Env :=
  sample_env true true
    [mkTick false 1 (Read_frames [7; -9]) 0; mkTick true 2 (Read_frames []) 0]
    (Some (json_text_response say_hi)).

(** Some process with pid 4242 is alive. *)
Definition env_live : Env :=
  mkEnv (fun pid => pid =? 4242) 0 true (Some "sk-test") 5000 true
        true true true 4096 (replicate 4096 0) [] true true true None.

(** A small buffer: capacity 2 at address 5, then two appends. *)
Definition small_ops : list (Z * list Z) := [(7, [1; 2; 3]); (8, [4; 5])].
Definition empty_mem : Mem := mkMem (mkAudioBuffer NULL 0 0) ∅.
Definition full_mem : Mem := mkMem (mkAudioBuffer 5 2 2) {[ 5 := mkBlock 2 [1; 2] ]}.

(** The states of the run of [env_max_time] when the capture loop is
    entered and after its first iteration, and the local array then. *)
Definition max_time_wr : World :=
  snd ((session_start;; recording_prologue env_max_time) (world_at_fork env_max_time [])).
Definition max_time_w1 : World :=
  snd (capture_prefix [tick_frame] (e_pcm env_max_time) max_time_wr).
Definition max_time_b1 : list Z := [100; -200] ++ replicate 4094 0.

(** A frame of two samples. *)
Definition sample_frame : list Z := [100; -200].

(** ** Further notions: ownership of the heap *)

(** The buffer owns exactly one block on top of the heap [h0]. *)
Definition buf_owns (h0 : gmap Z block) (m : Mem) : Prop :=
  h0 !! data (buf m) = None /\
  exists blk, heap m = <[data (buf m) := blk]> h0.

(** ** The response buffer of the transfer *)

(** [typedef struct { char *data; size_t size; } CurlResponse;] with the
    heap its [data] points into. *)
Record CurlResponse : Type := mkCurlResponse { resp_data : Z; resp_size : Z }.
Record RespMem : Type := mkRespMem { resp : CurlResponse; resp_heap : gmap Z block }.

(** [CurlResponse response = {0};] *)
Definition empty_response (h : gmap Z block) : RespMem :=
  mkRespMem (mkCurlResponse NULL 0) h.

(** [write_callback(contents, size, nmemb, userp)], the allocator
    answering [q] to its [realloc]: the value returned and the response
    afterwards. *)
Definition write_callback (q : Z) (contents : list Z) (sz nmemb : Z) (r : RespMem)
    : outcome (Z * RespMem) :=
  let realsize := wrap_size (sz * nmemb) in
  let old := resp r in
  obind (realloc q (resp_data old) (wrap_size (resp_size old + realsize + 1)) (resp_heap r))
    (fun h1 =>
  if q =? NULL then Val (0, r)                            (* if (!ptr) return 0; *)
  else
    obind (memcpy_at q (resp_size old) (take (Z.to_nat realsize) contents) h1) (fun h2 =>
    let size' := wrap_size (resp_size old + realsize) in
    obind (memcpy_at q size' [0] h2) (fun h3 =>
    Val (realsize, mkRespMem (mkCurlResponse q size') h3)))).

(** The transfer hands the body over in chunks of [size = 1] and stops at
    the first call that does not return the size of its chunk: the
    response afterwards, and whether every chunk was taken. *)
Fixpoint receive (chunks : list (Z * list Z)) (r : RespMem) : outcome (bool * RespMem) :=
  match chunks with
  | [] => Val (true, r)
  | (q, contents) :: rest =>
      obind (write_callback q contents 1 (Z.of_nat (length contents)) r) (fun '(n, r') =>
      if n =? Z.of_nat (length contents) then receive rest r' else Val (false, r'))
  end.

(** The response holds [body]: nothing yet ([data] is [NULL]), or a block
    of [size + 1] bytes with [body] followed by a NUL. *)
Definition resp_holds (r : RespMem) (body : list Z) : Prop :=
  resp_size (resp r) = Z.of_nat (length body) /\
  ((resp_data (resp r) = NULL /\ body = []) \/
   (resp_data (resp r) <> NULL /\
    resp_heap r !! resp_data (resp r)
    = Some (mkBlock (resp_size (resp r) + 1) (body ++ [0])))).

(** ** [load_env] *)

Definition squote : ascii := "039"%char.
Definition ENV_KEY : string := "OPENAI_API_KEY=".

(** The successive results of [fgets(line, 512, fp)] on a file holding
    [s]: each takes at most 511 characters and ends after a newline;
    [room] is what the current one can still take. *)
Fixpoint fgets_lines (room : nat) (s : string) : list string :=
  match s with
  | EmptyString => []
  | String c s' =>
      if Ascii.eqb c newline || (room <=? 1)%nat
      then String c EmptyString :: fgets_lines 511 s'
      else match fgets_lines (pred room) s' with
           | [] => [String c EmptyString]
           | l :: ls => String c l :: ls
           end
  end.

Definition is_quote (c : ascii) : bool := Ascii.eqb c dquote || Ascii.eqb c squote.

(** The closing quote: when the last character of the value is a double
    or a single quote it is overwritten by the terminator (on an empty
    value [last] is the opening quote before it, and the value stays
    empty). *)
Fixpoint strip_last_quote (s : string) : string :=
  match s with
  | EmptyString => EmptyString
  | String c s' =>
      match s' with
      | EmptyString => if is_quote c then EmptyString else s
      | String _ _ => String c (strip_last_quote s')
      end
  end.

(** The value taken from a line that starts with the key: the C string
    after the 15 characters of the key, cut at the first newline, without
    an opening quote and then without a closing one. *)
Definition env_value (line : string) : string :=
  let value := c_str (str_drop 15 line) in
  let value := match strchr value newline with
               | Some n => str_take n value
               | None => value
               end in
  match value with
  | EmptyString => value
  | String c value' => if is_quote c then strip_last_quote value' else value
  end.

(** The [while (fgets(...))] loop: the first line with the key decides. *)
Fixpoint find_key (lines : list string) : option string :=
  match lines with
  | [] => None
  | line :: rest =>
      if str_prefix ENV_KEY line then Some (env_value line) else find_key rest
  end.

(** [load_env]: what it leaves in [g_api_key], from the contents of the
    file at the fixed path and of [.env] in the working directory ([None]
    for a file that cannot be opened). *)
Definition load_env (home_env cwd_env : option string) : option string :=
  match (match home_env with Some c => Some c | None => cwd_env end) with
  | None => None
  | Some content => find_key (fgets_lines 511 content)
  end.

(** The text between the key and the newline in a line that sets the key
    to [k], bare or between the quote characters [a] and [b]. *)
Definition env_body (quotes : option (ascii * ascii)) (k : string) : string :=
  match quotes with
  | None => k
  | Some (a, b) => String a (k +:+ String b EmptyString)
  end.

Definition env_line (quotes : option (ascii * ascii)) (k : string) : string :=
  ENV_KEY +:+ env_body quotes k +:+ String newline EmptyString.

(** Lines of text, each followed by a newline. *)
Fixpoint unlines (ls : list string) : string :=
  match ls with
  | [] => EmptyString
  | l :: ls' => l +:+ String newline (unlines ls')
  end.

(** A file in which the line that sets the key comes after the lines
    [before] and is followed by [after]. *)
Definition env_file (before : list string) (quotes : option (ascii * ascii))
    (k after : string) : string :=
  unlines before +:+ env_line quotes k +:+ after.

(** What the round trip asks of a line before the key: it fits the line
    buffer with its newline and does not start with the key. *)
Definition other_line (l : string) : Prop :=
  str_mem newline l = false /\ (String.length l <= 510)%nat /\
  str_prefix ENV_KEY l = false.

(** What it asks of the quoting: a bare value does not start with a quote,
    and a quoted one is between two quote characters (a double or a single
    one each). *)
Definition quoting_ok (quotes : option (ascii * ascii)) (k : string) : Prop :=
  match quotes with
  | None => match k with
            | EmptyString => True
            | String c _ => is_quote c = false
            end
  | Some (a, b) => is_quote a = true /\ is_quote b = true
  end.

(** ** Further notions: the session *)

(** The only signal a run sends: [SIGUSR1], to a positive pid. *)
Definition signal_ok (e : Event) : Prop :=
  match e with
  | Ev_signal pid sig => 0 < pid /\ sig = SIGUSR1
  | _ => True
  end.

(** An event other than the copy to the clipboard. *)
Definition not_clipboard (e : Event) : Prop :=
  match e with
  | Ev_clipboard _ => False
  | _ => True
  end.

(** The system of [sample_env] without a key in the [.env] file. *)
Definition env_no_key : Env :=
  mkEnv (fun _ => false) 0 true None 4242 true
        true true true 4096 (replicate 4096 0) [] true true true None.

(** ** Further notions: the capture loop *)

(** The samples that an iteration stores: those of the frame read, none
    after a failed read. *)
Definition tick_samples (t : Tick) : list Z :=
  match t_read t with
  | Read_frames samples => samples
  | Read_error _ _ => []
  end.

(** An iteration in which the loop goes on: no stop signal, the ceiling
    not passed, and the read gives a frame (for which [realloc], if it is
    called, succeeds), no frame, or an error that [snd_pcm_recover] does
    not turn into a positive count. *)
Definition good_tick (start : Z) (t : Tick) : Prop :=
  t_signal t = false /\ t_now t - start <= MAX_RECORDING_TIME /\
  match t_read t with
  | Read_frames samples => samples = [] \/ t_realloc t <> NULL
  | Read_error code recovered => code < 0 /\ recovered <= 0
  end.

(** The bytes of the frames of a run of iterations, in order. *)
Definition captured (ticks : list Tick) : list Z :=
  concat (map (fun t => pcm_bytes (tick_samples t)) ticks).

(** The level after a run of iterations: that of the last frame with
    samples. *)
Definition last_level (level : Q) (ticks : list Tick) : Q :=
  fold_left (fun l t => match tick_samples t with
                        | [] => l
                        | _ :: _ => peak_level (tick_samples t)
                        end) ticks level.

(** ** The request of [transcribe_audio] *)

(** The [n] bytes of an unsigned value on a little-endian machine, and
    the value of such bytes. *)
Fixpoint le_bytes (n : nat) (v : Z) : list Z :=
  match n with
  | O => []
  | S n' => v mod 256 :: le_bytes n' (v / 256)
  end.

Fixpoint le_value (bs : list Z) : Z :=
  match bs with
  | [] => 0
  | b :: bs' => b + 256 * le_value bs'
  end.

Definition uint32 (v : Z) : Z := v mod 2 ^ 32.

Definition chars (s : string) : list Z :=
  map (fun c => Z.of_nat (nat_of_ascii c)) (list_ascii_of_string s).

(** The packed [wav_header] structure. *)
Record WavHeader : Type := mkWavHeader {
  riff : string;
  wav_size : Z;
  wave : string;
  fmt : string;
  fmt_size : Z;
  format : Z;
  channels : Z;
  sample_rate : Z;
  byte_rate : Z;
  block_align : Z;
  bits_per_sample : Z;
  data_tag : string;
  data_size : Z
}.

(** Its initializer; the two sizes are [size_t] values stored in
    [uint32_t] fields. *)
Definition wav_header (audio_size : Z) : WavHeader :=
  mkWavHeader "RIFF" (uint32 (wrap_size (36 + audio_size))) "WAVE" "fmt "
              16 1 CHANNELS SAMPLE_RATE (SAMPLE_RATE * CHANNELS * 2) (CHANNELS * 2) 16
              "data" (uint32 audio_size).

(** The structure as [write(fd, &wav_header, sizeof(wav_header))] stores
    it: no padding, fields in order, integers little endian. *)
Definition header_bytes (h : WavHeader) : list Z :=
  chars (riff h) ++ le_bytes 4 (wav_size h) ++ chars (wave h) ++ chars (fmt h)
  ++ le_bytes 4 (fmt_size h) ++ le_bytes 2 (format h) ++ le_bytes 2 (channels h)
  ++ le_bytes 4 (sample_rate h) ++ le_bytes 4 (byte_rate h)
  ++ le_bytes 2 (block_align h) ++ le_bytes 2 (bits_per_sample h)
  ++ chars (data_tag h) ++ le_bytes 4 (data_size h).

(** The temporary file: the header, then the audio. *)
Definition wav_file (audio : list Z) : list Z :=
  header_bytes (wav_header (Z.of_nat (length audio))) ++ audio.

(** The field of [len] bytes at [off] in a file. *)
Definition field_at (off len : nat) (file : list Z) : Z :=
  le_value (take len (drop off file)).

(** [snprintf(auth_header, 256, "Authorization: Bearer %s", g_api_key)]:
    at most 255 characters are stored. *)
Definition AUTH_PREFIX : string := "Authorization: Bearer ".
Definition auth_header (key : string) : string :=
  str_take 255 (AUTH_PREFIX +:+ c_str key).

(** ** Concrete inputs *)

(** The buffer after the appends of [small_ops]. *)
Definition small_run : Mem :=
  match appends small_ops (init_audio_buffer 5 2 empty_mem) with
  | Val m => m
  | _ => empty_mem
  end.

(** A body in two chunks, stored at 5 and then at 6. *)
Definition sample_chunks : list (Z * list Z) := [(5, [104; 105]); (6, [33])].

(** A [.env] file with the key between double quotes on its third line. *)
Definition sample_env_file : string :=
  env_file ["# settings"; "MODEL=whisper-1"] (Some (dquote, dquote)) "sk-test"
           ("X=1" +:+ String newline EmptyString).

(** The uninitialised [pid] happens to hold 77, the pid of a live process. *)
Definition env_stray_pid : Env :=
  mkEnv (fun pid => pid =? 77) 77 true (Some "sk-test") 5000 true
        true true true 4096 (replicate 4096 0) [] true true true None.

(** A capture of two frames around a failed read, ended by a signal. *)
Definition tick_a : Tick := mkTick false 1 (Read_frames [100; -200]) 9.
Definition tick_err : Tick := mkTick false 2 (Read_error (-11) (-11)) 0.
Definition tick_b : Tick := mkTick false 3 (Read_frames [7]) 11.
Definition tick_stop : Tick := mkTick true 4 (Read_frames []) 0.
Definition sample_ticks : list Tick := [tick_a; tick_err; tick_b].

(** The same capture with a transfer that succeeds without a body, with a
    transfer that fails, with an answer, and after a failed [malloc]. *)
Definition env_no_body : Env :=
  sample_env true true (sample_ticks ++ [tick_stop]) None.
Definition env_curl_fails : Env :=
  mkEnv (fun _ => false) 0 true (Some "sk-test") 4242 true
        true true true 4096 (replicate 4096 0) (sample_ticks ++ [tick_stop])
        true true false None.
Definition env_frames : Env :=
  sample_env true true (sample_ticks ++ [tick_stop]) (Some (json_text_response "ok")).
Definition env_no_memory : Env :=
  mkEnv (fun _ => false) 0 true (Some "sk-test") 4242 true
        true true true NULL (replicate 4096 0) [tick_a; tick_stop]
        true true true None.

(** A state with a buffer of capacity 4 at address 5. *)
Definition world_small_buffer : World :=
  set_g_audio_buffer (init_audio_buffer 5 4 empty_mem) (boot None None 0 []).

(** A state with the status file open and holding a longer record. *)
Definition world_status_open : World :=
  set_g_status_file true (boot None (Some "PROCESSING|0.00|00:07") 0 []).

(** A key of 240 characters. *)
Definition long_key : string :=
  string_of_list_ascii (repeat "k"%char 240).

(** The hardware parameters are refused; the parent cannot write the pid
    file. *)
Definition env_hw_refused : Env :=
  mkEnv (fun _ => false) 0 true (Some "sk-test") 4242 true
        false true false 4096 (replicate 4096 0) [] true true true None.
Definition env_pid_unwritable : Env :=
  mkEnv (fun _ => false) 0 true (Some "sk-test") 4242 false
        true true true 4096 (replicate 4096 0) [] true true true None.

(** * Properties *)

(** ** The audio buffer *)

Lemma wrap_size_small x : 0 <= x < SIZE_MOD -> wrap_size x = x.
Proof. intros H. unfold wrap_size. apply Z.mod_small. exact H. Qed.

Lemma grow_loop_exits fuel : forall c need,
  0 < c -> c < 2 * need -> need <= 2 ^ 63 -> need <= c * 2 ^ Z.of_nat fuel ->
  exists j : nat,
    grow_loop fuel c need = Some (c * 2 ^ Z.of_nat j) /\
    need <= c * 2 ^ Z.of_nat j /\
    c * 2 ^ Z.of_nat j < 2 * need /\
    forall i : nat, (i < j)%nat -> c * 2 ^ Z.of_nat i < need.
Proof.
  induction fuel as [|f IH]; intros c need Hc Hlt Hneed Hfuel.
  - exists 0%nat. simpl in *. rewrite Z.mul_1_r in *.
    destruct (Z.ltb_spec c need); [lia|]. repeat split; try lia.
  - cbn [grow_loop]. destruct (Z.ltb_spec c need) as [Hcn|Hcn].
    + rewrite wrap_size_small by (unfold SIZE_MOD; lia).
      destruct (IH (c * 2) need) as (j & Hj & Hge & Hub & Hmin); try lia.
      { rewrite Nat2Z.inj_succ, Z.pow_succ_r in Hfuel by lia. lia. }
      exists (S j). rewrite Nat2Z.inj_succ, Z.pow_succ_r by lia.
      replace (c * (2 * 2 ^ Z.of_nat j)) with (c * 2 * 2 ^ Z.of_nat j) by ring.
      repeat split; try assumption.
      intros [|i] Hi.
      * simpl. lia.
      * rewrite Nat2Z.inj_succ, Z.pow_succ_r by lia.
        replace (c * (2 * 2 ^ Z.of_nat i)) with (c * 2 * 2 ^ Z.of_nat i) by ring.
        apply Hmin. lia.
    + exists 0%nat. simpl. rewrite Z.mul_1_r. repeat split; try lia.
Qed.

Lemma pow2_63_fuel c : 0 < c -> 2 ^ 63 <= c * 2 ^ Z.of_nat GROW_FUEL.
Proof.
  intros Hc. unfold GROW_FUEL.
  change (2 ^ Z.of_nat 64) with 18446744073709551616.
  change (2 ^ 63) with 9223372036854775808. lia.
Qed.

Lemma append_step c0 q d m bytes :
  q <> NULL -> buf_holds c0 m bytes ->
  0 < c0 -> size (buf m) + Z.of_nat (length d) <= 2 ^ 63 ->
  exists m',
    append_audio_buffer q d m = Val m' /\
    buf_holds c0 m' (bytes ++ d) /\
    (if capacity (buf m) <? size (buf m) + Z.of_nat (length d)
     then exists j : nat,
            (1 <= j)%nat /\
            capacity (buf m') = capacity (buf m) * 2 ^ Z.of_nat j /\
            (forall i : nat, (1 <= i < j)%nat ->
               capacity (buf m) * 2 ^ Z.of_nat i < size (buf m) + Z.of_nat (length d))
     else capacity (buf m') = capacity (buf m)).
Proof.
  intros Hq ((k & Hk) & Hsz & Hle & Hcap & Hdata & Hheap) Hc0 Hsum.
  assert (Hpow : 0 < 2 ^ Z.of_nat k) by (apply Z.pow_pos_nonneg; lia).
  assert (Hcpos : 0 < capacity (buf m)) by (rewrite Hk; lia).
  assert (H63 : 2 ^ 63 < SIZE_MOD) by (unfold SIZE_MOD; reflexivity).
  unfold append_audio_buffer.
  rewrite (wrap_size_small (Z.of_nat (length d))) by lia.
  rewrite (wrap_size_small (size (buf m) + _)) by lia.
  set (need := size (buf m) + Z.of_nat (length d)) in *.
  destruct (Z.ltb_spec (capacity (buf m)) need) as [Hgrow|Hfit].
  - rewrite (wrap_size_small (capacity (buf m) * 2)) by (unfold SIZE_MOD in *; lia).
    destruct (grow_loop_exits GROW_FUEL (capacity (buf m) * 2) need)
      as (j & Hj & Hge & Hub & Hmin); try lia.
    { pose proof (pow2_63_fuel (capacity (buf m) * 2)). lia. }
    rewrite Hj. cbn [obind].
    unfold realloc. destruct (Z.eqb_spec q NULL) as [|_]; [contradiction|].
    destruct (Z.eqb_spec (data (buf m)) NULL) as [|_]; [contradiction|].
    rewrite Hheap. cbn [obind buf heap data size capacity blk_bytes].
    unfold memcpy_at. rewrite lookup_insert_eq.
    cbn [blk_size blk_bytes].
    set (nc := capacity (buf m) * 2 * 2 ^ Z.of_nat j) in *.
    assert (Hoff : (0 <=? size (buf m)) && (size (buf m) + Z.of_nat (length d) <=? nc) = true).
    { apply andb_true_intro. split; [apply Z.leb_le; lia | apply Z.leb_le; fold need; lia]. }
    rewrite Hoff. cbn [obind].
    eexists. split; [reflexivity|].
    assert (Htake : take (Z.to_nat nc) bytes = bytes).
    { apply take_ge. lia. }
    split.
    + unfold buf_holds. cbn [buf heap data size capacity].
      split.
      { exists (k + S j)%nat. unfold nc. rewrite Hk.
        rewrite Nat2Z.inj_add, Nat2Z.inj_succ, Z.pow_add_r, Z.pow_succ_r by lia. ring. }
      split. { rewrite length_app. unfold need. lia. }
      split. { lia. }
      split. { unfold SIZE_MOD in *. lia. }
      split. { exact Hq. }
      rewrite insert_insert_eq, lookup_insert_eq. f_equal. f_equal.
      rewrite Htake, Hsz, Nat2Z.id, resize_all, drop_ge by lia.
      rewrite app_nil_r. reflexivity.
    + cbn [buf capacity]. exists (S j). split; [lia|]. split.
      { unfold nc. rewrite Nat2Z.inj_succ, Z.pow_succ_r by lia. ring. }
      intros [|i] Hi; [lia|].
      rewrite Nat2Z.inj_succ, Z.pow_succ_r by lia.
      replace (capacity (buf m) * (2 * 2 ^ Z.of_nat i))
        with (capacity (buf m) * 2 * 2 ^ Z.of_nat i) by ring.
      apply Hmin. lia.
  - cbn [obind]. unfold memcpy_at. rewrite Hheap. cbn [blk_size blk_bytes].
    assert (Hoff : (0 <=? size (buf m)) && (size (buf m) + Z.of_nat (length d) <=? capacity (buf m)) = true).
    { apply andb_true_intro. split; apply Z.leb_le; fold need; lia. }
    rewrite Hoff. cbn [obind].
    eexists. split; [reflexivity|]. split.
    + unfold buf_holds. cbn [buf heap data size capacity].
      split. { exists k. exact Hk. }
      split. { rewrite length_app. unfold need. lia. }
      split. { lia. }
      split. { lia. }
      split. { exact Hdata. }
      rewrite lookup_insert_eq. f_equal. f_equal.
      rewrite Hsz, Nat2Z.id, resize_all, drop_ge by lia.
      rewrite app_nil_r. reflexivity.
    + reflexivity.
Qed.

Lemma appends_snoc l q d m :
  appends (l ++ [(q, d)]) m = obind (appends l m) (append_audio_buffer q d).
Proof.
  revert m. induction l as [|[q' d'] l IH]; intros m; cbn [appends app obind].
  - destruct (append_audio_buffer q d m); reflexivity.
  - destruct (append_audio_buffer q' d' m); cbn [obind]; auto.
Qed.

Lemma total_bytes_concat l :
  total_bytes l = Z.of_nat (length (concat (map snd l))).
Proof.
  induction l as [|[q d] l IH]; cbn; [reflexivity|].
  rewrite length_app, Nat2Z.inj_add. unfold total_bytes in IH. rewrite IH. reflexivity.
Qed.

Lemma total_bytes_app l1 l2 : total_bytes (l1 ++ l2) = total_bytes l1 + total_bytes l2.
Proof.
  rewrite !total_bytes_concat, map_app, concat_app, length_app. lia.
Qed.

Lemma total_bytes_nonneg l : 0 <= total_bytes l.
Proof. rewrite total_bytes_concat. lia. Qed.

Lemma total_bytes_take n l : total_bytes (take n l) <= total_bytes l.
Proof.
  rewrite <- (take_drop n l) at 2. rewrite total_bytes_app.
  pose proof (total_bytes_nonneg (drop n l)). lia.
Qed.

Lemma init_audio_buffer_holds p c0 m0 :
  p <> NULL -> 0 < c0 < SIZE_MOD -> buf_holds c0 (init_audio_buffer p c0 m0) [].
Proof.
  intros Hp Hc. unfold buf_holds, init_audio_buffer, malloc. cbn [buf heap data size capacity].
  destruct (Z.eqb_spec p NULL) as [|_]; [contradiction|].
  split. { exists 0%nat. simpl. lia. }
  repeat split; try (simpl; lia); try assumption.
  apply lookup_insert_eq.
Qed.

Lemma appends_prefix_holds p c0 m0 ops :
  p <> NULL -> 0 < c0 < SIZE_MOD ->
  Forall (fun op => fst op <> NULL) ops ->
  total_bytes ops <= 2 ^ 63 ->
  forall n, exists m,
    appends (take n ops) (init_audio_buffer p c0 m0) = Val m /\
    buf_holds c0 m (concat (map snd (take n ops))).
Proof.
  intros Hp Hc Hq Hsum. induction n as [|n (m & Hm & Hinv)].
  - exists (init_audio_buffer p c0 m0). rewrite take_0. split; [reflexivity|].
    apply init_audio_buffer_holds; assumption.
  - destruct (ops !! n) as [[q d]|] eqn:Hn.
    + rewrite (take_S_r _ _ _ Hn), appends_snoc, Hm. cbn [obind].
      assert (Hqn : q <> NULL).
      { rewrite Forall_forall in Hq. apply (Hq (q, d)).
        eapply list_elem_of_lookup_2. exact Hn. }
      destruct (append_step c0 q d m _ Hqn Hinv) as (m' & Hm' & Hinv' & _); [lia| |].
      { pose proof (total_bytes_take (S n) ops) as Ht.
        rewrite (take_S_r _ _ _ Hn), total_bytes_app in Ht.
        destruct Hinv as (_ & Hsz & _). rewrite Hsz, <- total_bytes_concat.
        unfold total_bytes at 2 in Ht. cbn in Ht. lia. }
      exists m'. split; [exact Hm'|].
      rewrite map_app, concat_app. cbn. rewrite app_nil_r. exact Hinv'.
    + apply lookup_ge_None in Hn.
      rewrite take_ge in * by lia. exists m. split; assumption.
Qed.

(** C3.  After any number of appends to a buffer initialised with capacity
    [c0], every reallocation succeeding and the total staying within half
    the range of [size_t], the appends return, the length is the sum of the
    appended sizes, the capacity is [c0] times a power of two and at least
    the length, and the block holds the appended bytes in order.  An
    append that does not fit multiplies the capacity by [2^j], [j >= 1],
    the first power of two times the old capacity that holds the new
    length: the capacity is doubled until the data fits. *)
Theorem appends_length_capacity p c0 m0 ops :
  p <> NULL -> 0 < c0 < SIZE_MOD ->
  Forall (fun op => fst op <> NULL) ops ->
  total_bytes ops <= 2 ^ 63 ->
  forall n, exists m,
    appends (take n ops) (init_audio_buffer p c0 m0) = Val m /\
    size (buf m) = total_bytes (take n ops) /\
    (exists k : nat, capacity (buf m) = c0 * 2 ^ Z.of_nat k) /\
    size (buf m) <= capacity (buf m) /\
    heap m !! data (buf m)
      = Some (mkBlock (capacity (buf m)) (concat (map snd (take n ops)))) /\
    forall q d, ops !! n = Some (q, d) ->
      exists m', append_audio_buffer q d m = Val m' /\
        if capacity (buf m) <? size (buf m) + Z.of_nat (length d)
        then exists j : nat,
               (1 <= j)%nat /\
               capacity (buf m') = capacity (buf m) * 2 ^ Z.of_nat j /\
               size (buf m) + Z.of_nat (length d) <= capacity (buf m') /\
               (forall i : nat, (1 <= i < j)%nat ->
                  capacity (buf m) * 2 ^ Z.of_nat i < size (buf m) + Z.of_nat (length d))
        else capacity (buf m') = capacity (buf m).
Proof.
  intros Hp Hc Hq Hsum n.
  destruct (appends_prefix_holds p c0 m0 ops Hp Hc Hq Hsum n) as (m & Hm & Hinv).
  exists m. split; [exact Hm|].
  pose proof Hinv as (Hk & Hsz & Hle & Hcap & Hdata & Hheap).
  split. { rewrite total_bytes_concat. exact Hsz. }
  split. { exact Hk. }
  split. { exact Hle. }
  split. { exact Hheap. }
  intros q d Hn.
  assert (Hqn : q <> NULL).
  { rewrite Forall_forall in Hq. apply (Hq (q, d)).
    eapply list_elem_of_lookup_2. exact Hn. }
  assert (Hfit : size (buf m) + Z.of_nat (length d) <= 2 ^ 63).
  { pose proof (total_bytes_take (S n) ops) as Ht.
    rewrite (take_S_r _ _ _ Hn), total_bytes_app in Ht.
    rewrite Hsz, <- total_bytes_concat.
    unfold total_bytes at 2 in Ht. cbn in Ht. lia. }
  destruct (append_step c0 q d m _ Hqn Hinv) as (m' & Hm' & Hinv' & Hgrow); [lia|exact Hfit|].
  exists m'. split; [exact Hm'|].
  destruct (capacity (buf m) <? size (buf m) + Z.of_nat (length d)).
  - destruct Hgrow as (j & Hj1 & Hj2 & Hj3). exists j.
    repeat split; try assumption.
    destruct Hinv' as (_ & Hsz' & Hle' & _). rewrite length_app in Hsz'. lia.
  - exact Hgrow.
Qed.

Lemma grow_loop_zero f need : 0 < need -> grow_loop f 0 need = None.
Proof.
  intros Hn. induction f as [|f IH]; cbn [grow_loop].
  - destruct (Z.ltb_spec 0 need); [reflexivity|lia].
  - destruct (Z.ltb_spec 0 need); [|lia]. exact IH.
Qed.

Lemma wrap_size_double_divide (k : nat) c :
  (k < 64)%nat -> (2 ^ Z.of_nat k | c) -> (2 ^ Z.of_nat (S k) | wrap_size (c * 2)).
Proof.
  intros Hk [a Ha]. unfold wrap_size, SIZE_MOD.
  rewrite Z.mod_eq by lia.
  apply Z.divide_sub_r.
  - exists a. subst c. rewrite Nat2Z.inj_succ, Z.pow_succ_r by lia. ring.
  - apply Z.divide_mul_l.
    exists (2 ^ (64 - Z.of_nat (S k))).
    rewrite <- Z.pow_add_r by lia. f_equal. lia.
Qed.

Lemma grow_loop_saturates need : forall f (k : nat) c extra,
  (64 <= k + f)%nat -> (k <= 64)%nat -> (2 ^ Z.of_nat k | c) -> 0 <= c < SIZE_MOD ->
  grow_loop (f + extra) c need = grow_loop f c need.
Proof.
  induction f as [|f IH]; intros k c extra Hkf Hk Hdiv Hc.
  - assert (k = 64%nat) by lia. subst k.
    assert (c = 0).
    { destruct Hdiv as [a Ha]. unfold SIZE_MOD in Hc.
      change (2 ^ Z.of_nat 64) with (2 ^ 64) in Ha. nia. }
    subst c. cbn [Nat.add grow_loop].
    destruct (Z.ltb_spec 0 need) as [Hn|Hn].
    + apply grow_loop_zero. exact Hn.
    + destruct extra; cbn [grow_loop]; destruct (Z.ltb_spec 0 need); try lia; reflexivity.
  - cbn [Nat.add grow_loop]. destruct (c <? need); [|reflexivity].
    assert (Hw : 0 <= wrap_size (c * 2) < SIZE_MOD).
    { unfold wrap_size. apply Z.mod_pos_bound. reflexivity. }
    destruct (Nat.eq_dec k 64%nat) as [->|Hne].
    + assert (c = 0).
      { destruct Hdiv as [a Ha]. unfold SIZE_MOD in Hc.
        change (2 ^ Z.of_nat 64) with (2 ^ 64) in Ha. nia. }
      subst c. apply (IH 64%nat); [lia|lia| |exact Hw].
      change (wrap_size (0 * 2)) with 0. apply Z.divide_0_r.
    + apply (IH (S k)); [lia|lia| |exact Hw].
      apply wrap_size_double_divide; [lia|exact Hdiv].
Qed.

(** X23. More fuel than [GROW_FUEL] never changes the answer. *)
Lemma grow_loop_fuel c need extra :
  0 <= c < SIZE_MOD ->
  grow_loop (GROW_FUEL + extra) c need = grow_loop GROW_FUEL c need.
Proof.
  intros Hc. apply (grow_loop_saturates need GROW_FUEL 0%nat); unfold GROW_FUEL; try lia.
  apply Z.divide_1_l.
Qed.

(** C8.  When the buffer has to grow and [realloc] fails, the append
    returns and the buffer is as before: same pointer, length and capacity,
    and the heap, hence the stored bytes, is untouched. *)
Theorem append_realloc_failure (d : list Z) (m : Mem) (new_capacity : Z) :
  let need := wrap_size (size (buf m) + wrap_size (Z.of_nat (length d))) in
  capacity (buf m) < need ->
  grow_loop GROW_FUEL (wrap_size (capacity (buf m) * 2)) need = Some new_capacity ->
  exists m',
    append_audio_buffer NULL d m = Val m' /\
    data (buf m') = data (buf m) /\
    size (buf m') = size (buf m) /\
    capacity (buf m') = capacity (buf m) /\
    heap m' = heap m /\
    m' = m.
Proof.
  intros need Hgrow Hloop. exists m.
  split; [|repeat split; reflexivity].
  unfold append_audio_buffer. fold need.
  destruct (Z.ltb_spec (capacity (buf m)) need) as [_|Hfit]; [|lia].
  rewrite Hloop. reflexivity.
Qed.

(** ** Extraction of the transcription *)

Lemma strchr_first s c n :
  strchr s c = Some n ->
  str_mem c (str_take n s) = false /\
  exists rest, str_drop n s = String c rest.
Proof.
  revert n. induction s as [|d s IH]; intros n H; cbn [strchr] in H; [discriminate|].
  destruct (Ascii.eqb_spec d c) as [->|Hne].
  - injection H as <-. cbn. split; [reflexivity|]. eexists. reflexivity.
  - destruct (strchr s c) as [k|] eqn:Hk; cbn in H; [|discriminate].
    injection H as <-. destruct (IH k eq_refl) as (Hm & rest & Hrest).
    cbn [str_take str_drop str_mem]. split.
    + destruct (Ascii.eqb_spec d c); [contradiction|]. exact Hm.
    + exists rest. exact Hrest.
Qed.

Lemma unescape_char_quote e : unescape_char e = dquote -> e = dquote.
Proof.
  unfold unescape_char.
  destruct (Ascii.eqb_spec e "n"); [discriminate|].
  destruct (Ascii.eqb_spec e "t"); [discriminate|].
  destruct (Ascii.eqb_spec e "r"); [discriminate|].
  destruct (Ascii.eqb_spec e dquote); [auto|].
  destruct (Ascii.eqb_spec e backslash); [discriminate|].
  auto.
Qed.

(** Induction two characters at a time, as [unescape] recurses. *)
Lemma string_pair_ind (P : string -> Prop) :
  P EmptyString ->
  (forall c, P (String c EmptyString)) ->
  (forall c e s, P s -> P (String e s) -> P (String c (String e s))) ->
  forall s, P s.
Proof.
  intros H0 H1 H2.
  assert (H : forall s, P s /\ forall c, P (String c s)).
  { induction s as [|e s [IHs IHc]].
    - split; [exact H0|exact H1].
    - split; [apply IHc|]. intros c. apply H2; [exact IHs|apply IHc]. }
  intros s. apply H.
Qed.

Lemma unescape_no_quote s :
  str_mem dquote s = false -> str_mem dquote (unescape s) = false.
Proof.
  induction s as [|c|c e s IH1 IH2] using string_pair_ind.
  - reflexivity.
  - cbn. destruct (Ascii.eqb c backslash); cbn; auto.
  - intros H. cbn [str_mem] in H.
    apply orb_false_elim in H as [Hc H]. pose proof H as Hes.
    cbn [str_mem] in H. apply orb_false_elim in H as [He Hs].
    cbn [unescape]. destruct (Ascii.eqb c backslash).
    + cbn [str_mem]. rewrite (IH1 Hs), orb_false_r.
      destruct (Ascii.eqb_spec (unescape_char e) dquote) as [Hq|]; [|reflexivity].
      apply unescape_char_quote in Hq. subst e. rewrite Ascii.eqb_refl in He. discriminate.
    + cbn [str_mem]. rewrite Hc. cbn [orb]. apply IH2. exact Hes.
Qed.

Lemma length_String c s : String.length (String c s) = S (String.length s).
Proof. reflexivity. Qed.

Lemma unescape_length s : (String.length (unescape s) <= String.length s)%nat.
Proof.
  induction s as [|c|c e s IH1 IH2] using string_pair_ind.
  - reflexivity.
  - cbn. destruct (Ascii.eqb c backslash); cbn; lia.
  - rewrite length_String in IH2.
    change (unescape (String c (String e s)))
      with (if Ascii.eqb c backslash
            then String (unescape_char e) (unescape s)
            else String c (unescape (String e s))).
    set (u := unescape (String e s)) in *.
    destruct (Ascii.eqb c backslash); rewrite !length_String; lia.
Qed.

Lemma raw_text_field_first_quote response raw :
  raw_text_field response = Some raw ->
  str_mem dquote raw = false /\
  exists text_start0 rest,
    strstr response text_marker = Some text_start0 /\
    strchr (str_drop 8 text_start0) dquote = Some (String.length raw) /\
    raw = str_take (String.length raw) (str_drop 8 text_start0) /\
    str_drop (String.length raw) (str_drop 8 text_start0) = String dquote rest.
Proof.
  unfold raw_text_field. intros H.
  destruct (strstr response text_marker) as [ts|] eqn:Hs; [|discriminate].
  remember (str_drop 8 ts) as t0 eqn:Ht0.
  destruct (strchr t0 dquote) as [n|] eqn:Hc; [|discriminate].
  assert (Hraw : raw = str_take n t0) by congruence. clear H. subst raw.
  destruct (strchr_first _ _ _ Hc) as (Hm & rest & Hrest).
  assert (Hlen : String.length (str_take n t0) = n).
  { clear Hm Hc Ht0. revert t0 Hrest.
    induction n as [|n IH]; intros [|d s] Hr; cbn in *; try reflexivity; try discriminate.
    f_equal. apply IH. exact Hr. }
  split; [exact Hm|]. exists ts, rest. rewrite <- Ht0, Hlen. auto.
Qed.

Lemma append_String c a b : String c a +:+ b = String c (a +:+ b).
Proof. reflexivity. Qed.

Lemma append_empty b : "" +:+ b = b.
Proof. reflexivity. Qed.

Lemma str_take_drop n s : str_take n s +:+ str_drop n s = s.
Proof.
  revert s. induction n as [|n IH]; intros [|c s]; cbn [str_take str_drop];
    rewrite ?append_String, ?append_empty; try reflexivity.
  f_equal. apply IH.
Qed.

Lemma transcribe_audio_result env audio_size w code r w' :
  transcribe_audio env audio_size w = (Val (code, Some r), w') ->
  exists body, e_response env = Some body /\ parse_response body = Some r.
Proof.
  unfold transcribe_audio.
  destruct (e_mkstemps env); cbn [negb]; [|intros H; discriminate H].
  destruct (e_curl_init env); cbn [negb]; [|intros H; discriminate H].
  unfold bind, emit, modify, ret, lift.
  destruct (e_curl_ok env); cbn [negb]; [|intros H; discriminate H].
  destruct (e_response env) as [body|]; [|intros H; discriminate H].
  intros H. exists body. split; [reflexivity|].
  destruct (parse_response body); congruence.
Qed.

(** C10.  Whatever the response, the transcription that [transcribe_audio]
    returns holds no double quote: the raw field is the text between the
    marker and the first quote after it, so it holds none (an escaped
    quote ends the field too, as for the field [a], backslash, quote,
    [b]); unescaping creates none and never lengthens the string. *)
Theorem transcription_has_no_quote env audio_size w code r w' :
  transcribe_audio env audio_size w = (Val (code, Some r), w') ->
  str_mem dquote r = false /\
  (exists body raw text_start0 rest,
     e_response env = Some body /\
     strstr (c_str body) text_marker = Some text_start0 /\
     str_drop 8 text_start0 = raw +:+ String dquote rest /\
     str_mem dquote raw = false /\
     r = unescape raw /\
     (String.length r <= String.length raw)%nat) /\
  raw_text_field (json_text_response (String "a" (String dquote "b")))
    = Some (String "a" (String backslash "")).
Proof.
  intros H. destruct (transcribe_audio_result _ _ _ _ _ _ H) as (body & Hbody & Hparse).
  unfold parse_response in Hparse.
  destruct (raw_text_field (c_str body)) as [raw|] eqn:Hraw; [|discriminate].
  cbn in Hparse. injection Hparse as <-.
  destruct (raw_text_field_first_quote _ _ Hraw) as (Hm & ts & rest & Hs & _ & Htake & Hdrop).
  split; [apply unescape_no_quote; exact Hm|]. split; [|reflexivity].
  exists body, raw, ts, rest. repeat split; try assumption.
  - rewrite <- (str_take_drop (String.length raw) (str_drop 8 ts)), <- Htake, Hdrop.
    reflexivity.
  - apply unescape_length.
Qed.

Lemma str_mem_app c a b : str_mem c (a +:+ b) = str_mem c a || str_mem c b.
Proof.
  induction a as [|d a IH]; rewrite ?append_String, ?append_empty; cbn [str_mem];
    [reflexivity|].
  rewrite IH. apply orb_assoc.
Qed.

Lemma c_str_no_nul s : str_mem nul s = false -> c_str s = s.
Proof.
  induction s as [|c s IH]; cbn; [reflexivity|]. intros H.
  apply orb_false_elim in H as [Hc Hs]. rewrite Hc, (IH Hs). reflexivity.
Qed.

(** Case analysis on a character against the five that are escaped. *)
Lemma escape_char_cases c :
  (c = newline /\ escape_char c = String backslash "n") \/
  (c = tab /\ escape_char c = String backslash "t") \/
  (c = carriage_return /\ escape_char c = String backslash "r") \/
  (c = dquote /\ escape_char c = String backslash (String dquote "")) \/
  (c = backslash /\ escape_char c = String backslash (String backslash "")) \/
  (c <> dquote /\ c <> backslash /\ escape_char c = String c "").
Proof.
  unfold escape_char.
  destruct (Ascii.eqb_spec c newline); [left; split; auto|right].
  destruct (Ascii.eqb_spec c tab); [left; split; auto|right].
  destruct (Ascii.eqb_spec c carriage_return); [left; split; auto|right].
  destruct (Ascii.eqb_spec c dquote); [left; split; auto|right].
  destruct (Ascii.eqb_spec c backslash); [left; split; auto|right].
  repeat split; auto.
Qed.

Lemma unescape_escape v : unescape (escape v) = v.
Proof.
  induction v as [|c v IH]; [reflexivity|].
  cbn [escape].
  destruct (escape_char_cases c)
    as [[-> ->]|[[-> ->]|[[-> ->]|[[-> ->]|[[-> ->]|(Hq & Hb & ->)]]]]];
    rewrite ?append_String, ?append_empty; cbn [unescape].
  1-5: (cbn; rewrite IH; reflexivity).
  destruct (Ascii.eqb_spec c backslash); [contradiction|].
  rewrite IH. reflexivity.
Qed.

Lemma escape_no_quote v : str_mem dquote v = false -> str_mem dquote (escape v) = false.
Proof.
  induction v as [|c v IH]; [reflexivity|].
  cbn [str_mem escape]. intros H. apply orb_false_elim in H as [Hc Hv].
  rewrite str_mem_app, (IH Hv), orb_false_r.
  destruct (escape_char_cases c)
    as [[-> ->]|[[-> ->]|[[-> ->]|[[-> ->]|[[-> ->]|(Hq & Hb & ->)]]]]];
    try reflexivity; try discriminate.
  cbn. rewrite Hc. reflexivity.
Qed.

Lemma escape_no_nul v : str_mem nul v = false -> str_mem nul (escape v) = false.
Proof.
  induction v as [|c v IH]; [reflexivity|].
  cbn [str_mem escape]. intros H. apply orb_false_elim in H as [Hc Hv].
  rewrite str_mem_app, (IH Hv), orb_false_r.
  destruct (escape_char_cases c)
    as [[-> ->]|[[-> ->]|[[-> ->]|[[-> ->]|[[-> ->]|(Hq & Hb & ->)]]]]];
    try reflexivity.
  cbn. rewrite Hc. reflexivity.
Qed.

Lemma strchr_app a c b :
  str_mem c a = false -> strchr (a +:+ String c b) c = Some (String.length a).
Proof.
  induction a as [|d a IH]; rewrite ?append_String, ?append_empty; cbn [strchr str_mem].
  - intros _. rewrite Ascii.eqb_refl. reflexivity.
  - intros H. apply orb_false_elim in H as [Hd Ha]. rewrite Hd, (IH Ha). reflexivity.
Qed.

Lemma str_take_app a b : str_take (String.length a) (a +:+ b) = a.
Proof.
  induction a as [|d a IH]; rewrite ?append_String, ?append_empty.
  - destruct b; reflexivity.
  - cbn [String.length str_take]. rewrite IH. reflexivity.
Qed.

(** X21. Where the claimed round trip does hold: a value without a quote (and
    without a NUL byte) is recovered from its encoding. *)
Lemma extraction_roundtrip_quote_free v :
  str_mem dquote v = false -> str_mem nul v = false ->
  parse_response (json_text_response v) = Some v.
Proof.
  intros Hq Hn. unfold parse_response.
  rewrite c_str_no_nul.
  2:{ unfold json_text_response. rewrite append_String, append_empty.
      cbn [str_mem]. rewrite !str_mem_app, (escape_no_nul v Hn). reflexivity. }
  unfold raw_text_field, json_text_response.
  replace (strstr ("{" +:+ text_marker +:+ escape v +:+ String dquote "}") text_marker)
    with (Some (text_marker +:+ escape v +:+ String dquote "}")) by reflexivity.
  replace (str_drop 8 (text_marker +:+ escape v +:+ String dquote "}"))
    with (escape v +:+ String dquote "}") by reflexivity.
  rewrite strchr_app by (apply escape_no_quote; exact Hq).
  rewrite str_take_app. cbn. rewrite unescape_escape. reflexivity.
Qed.

(** C4.  The response whose text field encodes [say "hi"] is not decoded to
    that value: extraction stops at the quote of the first escaped quote
    and returns [say] followed by a space and a backslash. *)
Theorem escaped_quote_breaks_roundtrip :
  parse_response (json_text_response say_hi) = Some "say \" /\
  parse_response (json_text_response say_hi) <> Some say_hi /\
  unescape (escape say_hi) = say_hi.
Proof.
  split; [reflexivity|]. split; [|reflexivity].
  intros H. vm_compute in H. discriminate H.
Qed.

(** *** The unescape loop in place *)

Lemma lookup_at_src {A} (pre mid : list A) x xs :
  (pre ++ mid ++ x :: xs) !! (length pre + length mid)%nat = Some x.
Proof.
  rewrite app_assoc, <- length_app. apply list_lookup_middle. reflexivity.
Qed.

Lemma lookup_after_src {A} (pre mid : list A) x y xs :
  (pre ++ mid ++ x :: y :: xs) !! S (length pre + length mid) = Some y.
Proof.
  replace (pre ++ mid ++ x :: y :: xs) with ((pre ++ mid ++ [x]) ++ y :: xs)
    by (rewrite <- !app_assoc; reflexivity).
  apply list_lookup_middle. rewrite !length_app. cbn. lia.
Qed.

Lemma insert_at_dst {A} (pre : list A) u y ys :
  <[length pre := u]> (pre ++ y :: ys) = pre ++ u :: ys.
Proof. induction pre as [|p pre IH]; cbn; [reflexivity|]. f_equal. exact IH. Qed.

(** One character is written at [dst] while [src] is at least [dst]: the
    written prefix grows by one and the gap between them is shifted. *)
Lemma write_at_dst (pre mid cs : list ascii) u xs :
  cs <> [] ->
  exists mid',
    <[length pre := u]> (pre ++ mid ++ cs ++ xs) = (pre ++ [u]) ++ mid' ++ xs /\
    (length (pre ++ [u]) + length mid' = length pre + length mid + length cs)%nat.
Proof.
  intros Hcs. destruct (mid ++ cs) as [|y ys] eqn:Hmc.
  { destruct mid; [cbn in Hmc; congruence|discriminate Hmc]. }
  exists ys. rewrite (app_assoc mid), Hmc. cbn [app]. rewrite insert_at_dst.
  split; [rewrite <- app_assoc; reflexivity|].
  assert (Hl : length (mid ++ cs) = S (length ys)) by (rewrite Hmc; reflexivity).
  rewrite !length_app in *. cbn. lia.
Qed.

Lemma unescape_char_not_nul e : e <> nul -> unescape_char e <> nul.
Proof.
  intros He. unfold unescape_char.
  destruct (Ascii.eqb_spec e "n"); [discriminate|].
  destruct (Ascii.eqb_spec e "t"); [discriminate|].
  destruct (Ascii.eqb_spec e "r"); [discriminate|].
  destruct (Ascii.eqb_spec e dquote); [discriminate|].
  destruct (Ascii.eqb_spec e backslash); [discriminate|].
  exact He.
Qed.

Lemma unescape_in_place_end fuel pre mid tail :
  (0 < fuel)%nat ->
  exists mid',
    unescape_in_place fuel (pre ++ mid ++ nul :: tail)
      (length pre + length mid) (length pre)
    = pre ++ nul :: mid'.
Proof.
  intros Hfuel. destruct fuel as [|fuel]; [lia|].
  cbn [unescape_in_place]. rewrite lookup_at_src. cbn [default from_option id].
  rewrite Ascii.eqb_refl.
  destruct (write_at_dst pre mid [nul] nul tail ltac:(discriminate)) as (mid' & Hw & _).
  exists (mid' ++ tail). cbn [app] in Hw. rewrite Hw, <- app_assoc. reflexivity.
Qed.

(** Copying one character [c] of the source. *)
Lemma unescape_in_place_copy fuel pre mid c xs :
  c <> nul ->
  (c <> backslash \/ default nul (xs !! O) = nul) ->
  exists mid',
    unescape_in_place (S fuel) (pre ++ mid ++ c :: xs)
      (length pre + length mid) (length pre)
    = unescape_in_place fuel ((pre ++ [c]) ++ mid' ++ xs)
        (length (pre ++ [c]) + length mid') (length (pre ++ [c])).
Proof.
  intros Hc Hcase. cbn [unescape_in_place]. rewrite lookup_at_src.
  cbn [default from_option id].
  destruct (Ascii.eqb_spec c nul) as [|_]; [contradiction|].
  assert (Hsnd : (pre ++ mid ++ c :: xs) !! S (length pre + length mid) = xs !! O).
  { destruct xs as [|y ys].
    - cbn. apply lookup_ge_None_2. rewrite !length_app. cbn. lia.
    - rewrite lookup_after_src. reflexivity. }
  rewrite Hsnd.
  assert (Hbranch : Ascii.eqb c backslash && negb (Ascii.eqb (default nul (xs !! O)) nul)
                    = false).
  { destruct Hcase as [Hb|Hn].
    - destruct (Ascii.eqb_spec c backslash); [contradiction|reflexivity].
    - rewrite Hn, Ascii.eqb_refl. apply andb_false_r. }
  rewrite Hbranch.
  destruct (write_at_dst pre mid [c] c xs ltac:(discriminate)) as (mid' & Hw & Hlen).
  cbn [app] in Hw. rewrite Hw. exists mid'.
  f_equal; [cbn [length] in Hlen; lia|rewrite length_app; cbn; lia].
Qed.

(** Decoding the two characters backslash, [e] of the source. *)
Lemma unescape_in_place_escape fuel pre mid e xs :
  e <> nul ->
  exists mid',
    unescape_in_place (S fuel) (pre ++ mid ++ backslash :: e :: xs)
      (length pre + length mid) (length pre)
    = unescape_in_place fuel ((pre ++ [unescape_char e]) ++ mid' ++ xs)
        (length (pre ++ [unescape_char e]) + length mid')
        (length (pre ++ [unescape_char e])).
Proof.
  intros He. cbn [unescape_in_place]. rewrite lookup_at_src, lookup_after_src.
  cbn [default from_option id].
  change (Ascii.eqb backslash nul) with false. cbn iota.
  rewrite Ascii.eqb_refl.
  destruct (Ascii.eqb_spec e nul) as [|_]; [contradiction|]. cbn [negb andb].
  destruct (write_at_dst pre mid [backslash; e] (unescape_char e) xs ltac:(discriminate))
    as (mid' & Hw & Hlen).
  cbn [app] in Hw. rewrite Hw. exists mid'.
  f_equal; [cbn [length] in Hlen; lia|rewrite length_app; cbn; lia].
Qed.

Lemma unescape_in_place_run rest :
  forall fuel pre mid tail,
    str_mem nul rest = false -> (String.length rest < fuel)%nat ->
    exists mid',
      unescape_in_place fuel
        (pre ++ mid ++ list_ascii_of_string rest ++ nul :: tail)
        (length pre + length mid) (length pre)
      = pre ++ list_ascii_of_string (unescape rest) ++ nul :: mid'.
Proof.
  induction rest as [|c|c e rest IH1 IH2] using string_pair_ind;
    intros fuel pre mid tail Hnul Hfuel.
  - apply unescape_in_place_end. cbn in Hfuel. lia.
  - cbn [str_mem] in Hnul. apply orb_false_elim in Hnul as [Hc _].
    apply Ascii.eqb_neq in Hc.
    destruct fuel as [|fuel]; [cbn in Hfuel; lia|].
    assert (Hu : unescape (String c "") = String c "").
    { cbn. destruct (Ascii.eqb c backslash); reflexivity. }
    rewrite Hu. cbn [list_ascii_of_string app].
    destruct (unescape_in_place_copy fuel pre mid c (nul :: tail) Hc) as (mid1 & ->).
    { right. reflexivity. }
    destruct (unescape_in_place_end fuel (pre ++ [c]) mid1 tail) as (mid2 & ->).
    { cbn in Hfuel. lia. }
    exists mid2. rewrite <- app_assoc. reflexivity.
  - pose proof Hnul as Hnul0.
    cbn [str_mem] in Hnul. apply orb_false_elim in Hnul as [Hc Hnul].
    pose proof Hnul as Hnul1.
    apply orb_false_elim in Hnul as [He Hnul].
    apply Ascii.eqb_neq in Hc. apply Ascii.eqb_neq in He.
    destruct fuel as [|fuel]; [cbn in Hfuel; lia|].
    rewrite !length_String in Hfuel.
    change (list_ascii_of_string (String c (String e rest)))
      with (c :: e :: list_ascii_of_string rest).
    change (unescape (String c (String e rest)))
      with (if Ascii.eqb c backslash
            then String (unescape_char e) (unescape rest)
            else String c (unescape (String e rest))).
    destruct (Ascii.eqb_spec c backslash) as [->|Hcb].
    + cbn [app].
      destruct (unescape_in_place_escape fuel pre mid e
                  (list_ascii_of_string rest ++ nul :: tail) He) as (mid1 & ->).
      destruct (IH1 fuel (pre ++ [unescape_char e]) mid1 tail Hnul) as (mid2 & ->); [lia|].
      exists mid2. rewrite <- app_assoc. reflexivity.
    + cbn [app].
      destruct (unescape_in_place_copy fuel pre mid c
                  (e :: list_ascii_of_string rest ++ nul :: tail) Hc) as (mid1 & ->).
      { left. exact Hcb. }
      destruct (IH2 fuel (pre ++ [c]) mid1 tail) as (mid2 & Hrun).
      { cbn [str_mem]. rewrite (proj2 (Ascii.eqb_neq _ _) He). exact Hnul. }
      { rewrite length_String. lia. }
      change (list_ascii_of_string (String e rest))
        with (e :: list_ascii_of_string rest) in Hrun.
      cbn [app] in Hrun. rewrite Hrun.
      exists mid2. rewrite <- app_assoc. reflexivity.
Qed.

Lemma unescape_no_nul s : str_mem nul s = false -> str_mem nul (unescape s) = false.
Proof.
  induction s as [|c|c e s IH1 IH2] using string_pair_ind.
  - reflexivity.
  - cbn. destruct (Ascii.eqb c backslash); cbn; auto.
  - intros H. cbn [str_mem] in H.
    apply orb_false_elim in H as [Hc H]. pose proof H as Hes.
    cbn [str_mem] in H. apply orb_false_elim in H as [He Hs].
    cbn [unescape]. destruct (Ascii.eqb c backslash).
    + cbn [str_mem]. rewrite (IH1 Hs), orb_false_r.
      apply Ascii.eqb_neq. apply unescape_char_not_nul. apply Ascii.eqb_neq. exact He.
    + cbn [str_mem]. rewrite Hc. cbn [orb]. apply IH2. exact Hes.
Qed.

Lemma c_str_terminated s rest :
  str_mem nul s = false -> c_str (s +:+ String nul rest) = s.
Proof.
  induction s as [|c s IH]; intros H.
  - reflexivity.
  - cbn [str_mem] in H. apply orb_false_elim in H as [Hc Hs].
    rewrite append_String. cbn [c_str]. rewrite Hc, (IH Hs). reflexivity.
Qed.

Lemma string_of_list_ascii_app a b :
  string_of_list_ascii (a ++ b) = string_of_list_ascii a +:+ string_of_list_ascii b.
Proof.
  induction a as [|x a IH]; [reflexivity|].
  cbn [app string_of_list_ascii]. rewrite IH. reflexivity.
Qed.

(** X22. The in-place loop of the source computes [unescape]: run on the field
    [s] followed by its NUL, it leaves in the buffer the C string
    [unescape s]. *)
Lemma unescape_in_place_refines s :
  str_mem nul s = false ->
  c_str (string_of_list_ascii
           (unescape_in_place (S (String.length s))
              (list_ascii_of_string s ++ [nul]) 0 0))
  = unescape s.
Proof.
  intros Hnul.
  destruct (unescape_in_place_run s (S (String.length s)) [] [] [] Hnul) as (mid1 & Hrun);
    [lia|].
  cbn [app length Nat.add] in Hrun. rewrite Hrun.
  rewrite string_of_list_ascii_app. cbn [string_of_list_ascii].
  rewrite string_of_list_ascii_of_string.
  apply c_str_terminated. apply unescape_no_nul. exact Hnul.
Qed.

(** ** Runs of the monitor, capture and main threads *)

Lemma bind_val {A B} (m : M A) (f : A -> M B) w a w1 :
  m w = (Val a, w1) -> bind m f w = f a w1.
Proof. intros H. unfold bind. rewrite H. reflexivity. Qed.

Lemma bind_inv_val {A B} (m : M A) (f : A -> M B) w b w' :
  bind m f w = (Val b, w') ->
  exists a w1, m w = (Val a, w1) /\ f a w1 = (Val b, w').
Proof.
  unfold bind. destruct (m w) as [[a| | |] w1]; intros H; try discriminate H.
  exists a, w1. split; [reflexivity|exact H].
Qed.

Lemma steady_refl w : steady w w.
Proof. unfold steady. repeat split; reflexivity. Qed.

Lemma steady_trans w1 w2 w3 : steady w1 w2 -> steady w2 w3 -> steady w1 w3.
Proof. unfold steady. intros H1 H2. intuition congruence. Qed.

(** *** The status file after a write *)

Lemma str_drop_ftruncate line : forall disk,
  str_drop (String.length line) (ftruncate (String.length line) disk) = "".
Proof.
  induction line as [|c line IH]; intros disk; [reflexivity|].
  destruct disk; cbn [String.length ftruncate str_drop]; apply IH.
Qed.

Lemma append_empty_r s : s +:+ "" = s.
Proof. induction s as [|c s IH]; [reflexivity|]. rewrite append_String, IH. reflexivity. Qed.

Lemma status_file_overwritten line disk :
  fflush_at_0 line (ftruncate (String.length line) disk) = line.
Proof. unfold fflush_at_0. rewrite str_drop_ftruncate. apply append_empty_r. Qed.

Lemma update_status_run status level w :
  exists w',
    update_status status level w = (Val tt, w') /\
    steady w w' /\
    sched w' = sched w /\
    trace w' = trace w ++ [Ev_update_status status level] /\
    statusfile w' =
      if g_status_file w
      then (fun _ => status_line status level (now w - g_record_start_time w))
             <$> statusfile w
      else statusfile w.
Proof.
  eexists. split; [reflexivity|].
  cbn. destruct (g_status_file w); cbn.
  - repeat split. destruct (statusfile w); cbn; [|reflexivity].
    rewrite status_file_overwritten. reflexivity.
  - repeat split.
Qed.

Lemma monitor_rounds_run n : forall w,
  exists w' k,
    monitor_rounds n w = (Val tt, w') /\
    steady w w' /\
    sched w' = sched w /\
    trace w' = trace w ++ replicate k (Ev_update_status "RECORDING" (g_current_level w)) /\
    (k <= n)%nat /\
    (g_stop_recording w = true -> k = 0%nat) /\
    (g_stop_recording w = false -> k = n).
Proof.
  induction n as [|n IH]; intros w.
  - exists w, 0%nat. cbn. rewrite app_nil_r. repeat split; auto using steady_refl.
  - cbn [monitor_rounds]. unfold monitor_round.
    destruct (g_stop_recording w) eqn:Hstop.
    + destruct (IH w) as (w' & k & Hrun & Hst & Hs & Ht & Hk & Hk0 & Hkn).
      exists w', k. split.
      { unfold bind at 1. unfold bind at 1. unfold gets at 1. cbn. rewrite Hstop.
        cbn. exact Hrun. }
      split; [exact Hst|]. split; [exact Hs|]. split; [exact Ht|].
      split; [lia|]. split; [intros _; apply Hk0; exact Hstop|].
      intros Hf; discriminate Hf.
    + destruct (update_status_run "RECORDING" (g_current_level w) w)
        as (w1 & Hrun1 & Hst1 & Hs1 & Ht1 & _).
      destruct (IH w1) as (w' & k & Hrun & Hst & Hs & Ht & Hk & Hk0 & Hkn).
      exists w', (S k). split.
      { unfold bind at 1. unfold bind at 1. unfold gets at 1. cbn -[update_status].
        rewrite Hstop. unfold bind at 1. unfold gets at 1. cbn -[update_status].
        rewrite Hrun1. exact Hrun. }
      destruct Hst1 as (?&?&?&Hstop1&?&Hlvl1&?&?).
      split. { eapply steady_trans; [|exact Hst]. unfold steady. auto 10. }
      split. { congruence. }
      split. { rewrite Ht, Ht1, Hlvl1, <- app_assoc. reflexivity. }
      split. { lia. }
      split. { intros Hf; discriminate Hf. }
      intros _. f_equal. apply Hkn. congruence.
Qed.

Lemma yield_run w :
  exists w' k,
    yield w = (Val tt, w') /\
    steady w w' /\
    sched w' = tail (sched w) /\
    trace w' = trace w ++ replicate k (Ev_update_status "RECORDING" (g_current_level w)) /\
    k = (if g_stop_recording w then 0%nat else hd 0%nat (sched w)).
Proof.
  unfold yield. unfold bind at 1. unfold gets at 1. cbn.
  destruct (sched w) as [|n s'] eqn:Hs.
  - exists w, 0%nat. cbn. rewrite app_nil_r, Hs.
    repeat split; auto using steady_refl. destruct (g_stop_recording w); reflexivity.
  - destruct (monitor_rounds_run n (set_sched s' w))
      as (w' & k & Hrun & Hst & Hsch & Ht & Hk & Hk0 & Hkn).
    exists w', k. split.
    { unfold bind, modify. exact Hrun. }
    split. { exact Hst. }
    split. { exact Hsch. }
    split. { exact Ht. }
    cbn in Hk0, Hkn. destruct (g_stop_recording w); auto.
Qed.

(** *** Which events a computation can emit *)

Section Emits.
Context (P : Event -> Prop).

Lemma emits_ret {A} (a : A) : emits P (ret a).
Proof. intros w. exists []. cbn. rewrite app_nil_r. auto. Qed.

Lemma emits_lift {A} (o : outcome A) : emits P (lift o).
Proof. intros w. exists []. cbn. rewrite app_nil_r. auto. Qed.

Lemma emits_gets {A} (f : World -> A) : emits P (gets f).
Proof. intros w. exists []. cbn. rewrite app_nil_r. auto. Qed.

Lemma emits_modify (f : World -> World) :
  (forall w, trace (f w) = trace w) -> emits P (modify f).
Proof. intros H w. exists []. cbn. rewrite app_nil_r, H. auto. Qed.

Lemma emits_emit e : P e -> emits P (emit e).
Proof. intros H w. exists [e]. cbn. auto. Qed.

Lemma emits_bind {A B} (m : M A) (f : A -> M B) :
  emits P m -> (forall a, emits P (f a)) -> emits P (bind m f).
Proof.
  intros Hm Hf w. destruct (Hm w) as (t1 & Ht1 & HP1).
  unfold bind. destruct (m w) as [[a| | |] w1]; cbn in Ht1;
    try (exists t1; cbn; split; [exact Ht1|exact HP1]).
  destruct (Hf a w1) as (t2 & Ht2 & HP2).
  exists (t1 ++ t2). rewrite Ht2, Ht1, app_assoc. split; [reflexivity|].
  apply Forall_app; auto.
Qed.

Lemma emits_update_status s l : P (Ev_update_status s l) -> emits P (update_status s l).
Proof.
  intros H w. destruct (update_status_run s l w) as (w' & Hrun & _ & _ & Ht & _).
  exists [Ev_update_status s l]. rewrite Hrun. cbn. split; [exact Ht|auto].
Qed.

Lemma emits_yield :
  (forall l, P (Ev_update_status "RECORDING" l)) -> emits P yield.
Proof.
  intros H w. destruct (yield_run w) as (w' & k & Hrun & _ & _ & Ht & _).
  eexists. rewrite Hrun. cbn. split; [exact Ht|].
  apply Forall_replicate. apply H.
Qed.
End Emits.

Lemma emits_mono {A} (P Q : Event -> Prop) (m : M A) :
  (forall e, P e -> Q e) -> emits P m -> emits Q m.
Proof.
  intros H Hm w. destruct (Hm w) as (t & Ht & HP). exists t. split; [exact Ht|].
  eapply Forall_impl; eauto.
Qed.

Lemma rec_event_status s l : In s RECORD_STATUSES -> rec_event (Ev_update_status s l).
Proof. intros H. exact H. Qed.

Ltac emits_tac :=
  repeat first
    [ apply emits_ret
    | apply emits_lift
    | apply emits_gets
    | apply emits_yield; intros; apply rec_event_status; cbn; tauto
    | apply emits_update_status; apply rec_event_status; cbn; tauto
    | apply emits_emit; exact I
    | apply emits_modify; intros; reflexivity
    | apply emits_bind; [|intro]
    | match goal with
      | |- emits _ (if ?b then _ else _) => destruct b
      | |- emits _ (match ?x with _ => _ end) => destruct x
      end ].

Lemma emits_deliver t : emits rec_event (deliver t).
Proof. unfold deliver. emits_tac. Qed.

Lemma emits_capture_body t b : emits rec_event (capture_body t b).
Proof. unfold capture_body. emits_tac. Qed.

Lemma emits_capture_iter t b : emits rec_event (capture_iter t b).
Proof.
  unfold capture_iter. apply emits_bind; [apply emits_deliver|intro].
  emits_tac.
Qed.

Lemma emits_capture_loop ticks : forall b, emits rec_event (capture_loop ticks b).
Proof.
  induction ticks as [|t ticks IH]; intros b; cbn [capture_loop].
  - emits_tac.
  - apply emits_bind; [apply emits_capture_iter|]. intros [b1|]; [apply IH|apply emits_ret].
Qed.

Lemma emits_recording_prologue env : emits rec_event (recording_prologue env).
Proof. unfold recording_prologue, open_device. emits_tac. Qed.

Lemma emits_recording_thread env : emits rec_event (recording_thread env).
Proof.
  unfold recording_thread. apply emits_bind; [apply emits_recording_prologue|].
  intros [|]; [|apply emits_ret].
  apply emits_bind; [apply emits_capture_loop|]. intro. emits_tac.
Qed.

Lemma emits_record_phase env : emits rec_event (record_phase env).
Proof.
  unfold record_phase, session_start.
  apply emits_bind; [emits_tac|intro].
  apply emits_bind; [apply emits_recording_thread|intro].
  emits_tac.
Qed.

(** ** The session: from recording to the terminal status *)

Lemma statuses_app t1 t2 : statuses (t1 ++ t2) = statuses t1 ++ statuses t2.
Proof. unfold statuses. apply omap_app. Qed.

Lemma statuses_rec_event t s :
  Forall rec_event t -> In s (statuses t) -> In s RECORD_STATUSES.
Proof.
  induction 1 as [|e t He _ IH]; cbn; [tauto|].
  destruct e; cbn in *; try exact IH; try contradiction.
  intros [<-|H]; [exact He|apply IH; exact H].
Qed.

Lemma split_after_prefix {A} (s1 : list A) : forall s2 pre post x,
  s1 ++ s2 = pre ++ x :: post -> ~ In x s1 ->
  exists pre', pre = s1 ++ pre' /\ s2 = pre' ++ x :: post.
Proof.
  induction s1 as [|a s1 IH]; intros s2 pre post x Heq Hx.
  - exists pre. split; [reflexivity|exact Heq].
  - destruct pre as [|b pre]; cbn in Heq; injection Heq as -> Heq.
    + exfalso. apply Hx. left. reflexivity.
    + destruct (IH s2 pre post x Heq) as (pre' & -> & ->).
      { intros H. apply Hx. right. exact H. }
      exists pre'. split; reflexivity.
Qed.

Lemma emits_run {A} (P : Event -> Prop) (m : M A) w o w' :
  emits P m -> m w = (o, w') -> exists t, trace w' = trace w ++ t /\ Forall P t.
Proof. intros Hm H. destruct (Hm w) as (t & Ht & HP). rewrite H in Ht. eauto. Qed.

Lemma emits_session_start : emits rec_event session_start.
Proof. unfold session_start. emits_tac. Qed.

Lemma emits_yield_rec : emits rec_event yield.
Proof. emits_tac. Qed.

Lemma record_phase_val env w w1 :
  record_phase env w = (Val tt, w1) ->
  exists t1, trace w1 = trace w ++ t1 /\ Forall rec_event t1 /\
             In "PROCESSING" (statuses t1).
Proof.
  intros H.
  destruct (emits_run _ _ _ _ _ (emits_record_phase env) H) as (t1 & Ht1 & HP1).
  exists t1. split; [exact Ht1|]. split; [exact HP1|].
  unfold record_phase in H.
  apply bind_inv_val in H as (? & wa & Ha & H).
  apply bind_inv_val in H as (? & wb & Hb & H).
  apply bind_inv_val in H as (? & wc & Hc & H).
  apply bind_inv_val in H as (? & wd & Hd & H).
  apply bind_inv_val in H as (? & we & He & H).
  destruct (emits_run _ _ _ _ _ emits_session_start Ha) as (ta & Hta & _).
  destruct (emits_run _ _ _ _ _ (emits_recording_thread env) Hb) as (tb & Htb & _).
  destruct (emits_run _ _ _ _ _ emits_yield_rec Hc) as (tc & Htc & _).
  destruct (update_status_run "PROCESSING" 0 wc) as (wd' & Hd' & _ & _ & Htd & _).
  rewrite Hd in Hd'. assert (wd' = wd) by congruence. subst wd'.
  destruct (emits_run _ _ _ _ _ emits_yield_rec He) as (te & Hte & _).
  injection H as <-. cbn [trace set_g_stop_recording] in Ht1.
  rewrite Hte, Htd, Htc, Htb, Hta, <- !app_assoc in Ht1.
  apply app_inv_head in Ht1. subst t1.
  rewrite !statuses_app. do 3 (apply in_or_app; right). apply in_or_app. left. left. reflexivity.
Qed.

Lemma process_audio_run env w1 :
  let sz := size (buf (g_audio_buffer w1)) in
  exists o w2 t2,
    process_audio env w1 = (o, w2) /\ trace w2 = trace w1 ++ t2 /\
    ((sz <= 0 /\ o = Val tt /\ t2 = [Ev_update_status "NO_AUDIO" 0]) \/
     (0 < sz /\ exists t',
        t2 = Ev_update_status "UPLOADING" 0 :: t' /\
        ((o = Val tt /\ t' = [Ev_update_status "FAILED" 0]) \/
         (o = Val tt /\ t' = [Ev_upload sz; Ev_update_status "FAILED" 0]) \/
         (o = Crashed /\ t' = [Ev_upload sz] /\ e_response env = None) \/
         (o = Val tt /\ exists body text,
            e_response env = Some body /\ parse_response body = Some text /\
            t' = [Ev_upload sz; Ev_clipboard text; Ev_update_status "COPIED" 0])))).
Proof.
  intros sz. unfold process_audio. unfold bind at 1. unfold gets at 1. cbn beta iota.
  fold sz. destruct (Z.gtb_spec sz 0) as [Hpos|Hzero].
  - destruct (update_status_run "UPLOADING" 0 w1) as (wu & Hu & _ & _ & Htu & _).
    unfold bind at 1. rewrite Hu. unfold transcribe_audio.
    destruct (e_mkstemps env); cbn [negb].
    2:{ unfold bind at 1. unfold ret at 1.
        destruct (update_status_run "FAILED" 0 wu) as (wf & Hf & _ & _ & Htf & _).
        exists (Val tt), wf, [Ev_update_status "UPLOADING" 0; Ev_update_status "FAILED" 0].
        split; [exact Hf|]. split; [rewrite Htf, Htu, <- app_assoc; reflexivity|].
        right. split; [lia|]. eexists. split; [reflexivity|]. left. auto. }
    destruct (e_curl_init env); cbn [negb].
    2:{ unfold bind at 1. unfold ret at 1.
        destruct (update_status_run "FAILED" 0 wu) as (wf & Hf & _ & _ & Htf & _).
        exists (Val tt), wf, [Ev_update_status "UPLOADING" 0; Ev_update_status "FAILED" 0].
        split; [exact Hf|]. split; [rewrite Htf, Htu, <- app_assoc; reflexivity|].
        right. split; [lia|]. eexists. split; [reflexivity|]. left. auto. }
    unfold bind at 1. unfold bind at 1. unfold emit at 1, modify at 1.
    set (wx := set_trace (trace wu ++ [Ev_upload sz]) wu).
    assert (Htx : trace wx = trace w1 ++ [Ev_update_status "UPLOADING" 0; Ev_upload sz]).
    { unfold wx. cbn. rewrite Htu, <- app_assoc. reflexivity. }
    destruct (e_curl_ok env); cbn [negb].
    2:{ unfold ret at 1.
        destruct (update_status_run "FAILED" 0 wx) as (wf & Hf & _ & _ & Htf & _).
        exists (Val tt), wf,
          [Ev_update_status "UPLOADING" 0; Ev_upload sz; Ev_update_status "FAILED" 0].
        split; [exact Hf|]. split; [rewrite Htf, Htx, <- app_assoc; reflexivity|].
        right. split; [lia|]. eexists. split; [reflexivity|]. right. left. auto. }
    destruct (e_response env) as [body|] eqn:Hbody.
    2:{ unfold lift at 1.
        exists Crashed, wx, [Ev_update_status "UPLOADING" 0; Ev_upload sz].
        split; [reflexivity|]. split; [exact Htx|].
        right. split; [lia|]. eexists. split; [reflexivity|]. right. right. left. auto. }
    unfold ret at 1. destruct (parse_response body) as [text|] eqn:Hparse.
    + unfold bind at 1. unfold copy_to_clipboard, emit at 1, modify at 1.
      set (wy := set_trace (trace wx ++ [Ev_clipboard text]) wx).
      destruct (update_status_run "COPIED" 0 wy) as (wf & Hf & _ & _ & Htf & _).
      exists (Val tt), wf,
        [Ev_update_status "UPLOADING" 0; Ev_upload sz; Ev_clipboard text;
         Ev_update_status "COPIED" 0].
      split; [exact Hf|]. split.
      { rewrite Htf. unfold wy. cbn [trace set_trace]. rewrite Htx, <- !app_assoc. reflexivity. }
      right. split; [lia|]. eexists. split; [reflexivity|]. right. right. right.
      split; [reflexivity|]. exists body, text. auto.
    + destruct (update_status_run "FAILED" 0 wx) as (wf & Hf & _ & _ & Htf & _).
      exists (Val tt), wf,
        [Ev_update_status "UPLOADING" 0; Ev_upload sz; Ev_update_status "FAILED" 0].
      split; [exact Hf|]. split; [rewrite Htf, Htx, <- app_assoc; reflexivity|].
      right. split; [lia|]. eexists. split; [reflexivity|]. right. left. auto.
  - destruct (update_status_run "NO_AUDIO" 0 w1) as (wn & Hn & _ & _ & Htn & _).
    exists (Val tt), wn, [Ev_update_status "NO_AUDIO" 0].
    split; [exact Hn|]. split; [exact Htn|]. left. auto.
Qed.

Lemma cleanup_run w :
  exists w', cleanup w = (Val tt, w') /\ trace w' = trace w /\ pidfile w' = None /\
             statusfile w' = (if g_status_file w then None else statusfile w) /\
             g_audio_buffer w' = free_audio_buffer (g_audio_buffer w).
Proof.
  unfold cleanup, bind, modify, gets, ret. cbn.
  destruct (g_status_file w); eexists; (split; [reflexivity|]); cbn; auto.
Qed.

(** The child runs the recording phase and then, whatever ended the
    capture loop, the same processing and cleanup. *)
Lemma main_child_after_record env w w1 :
  record_phase env w = (Val tt, w1) ->
  main_child env w = (process_audio env;; cleanup;; ret 0) w1.
Proof. intros H. unfold main_child. unfold bind at 1. rewrite H. reflexivity. Qed.

Lemma main_child_trace env w :
  exists o1 w1 t1,
    record_phase env w = (o1, w1) /\ trace w1 = trace w ++ t1 /\ Forall rec_event t1 /\
    ((o1 <> Val tt /\ trace (snd (main_child env w)) = trace w1) \/
     (o1 = Val tt /\ In "PROCESSING" (statuses t1) /\
      exists o2 w2 t2,
        process_audio env w1 = (o2, w2) /\ trace w2 = trace w1 ++ t2 /\
        trace (snd (main_child env w)) = trace w2 /\
        (o2 = Val tt -> fst (main_child env w) = Val 0))).
Proof.
  destruct (record_phase env w) as [o1 w1] eqn:Hrec.
  destruct (emits_run _ _ _ _ _ (emits_record_phase env) Hrec) as (t1 & Ht1 & HP1).
  exists o1, w1, t1. split; [reflexivity|]. split; [exact Ht1|]. split; [exact HP1|].
  destruct o1 as [[]| | |].
  - right. split; [reflexivity|].
    destruct (record_phase_val _ _ _ Hrec) as (t1' & Ht1' & _ & Hproc).
    rewrite Ht1 in Ht1'. apply app_inv_head in Ht1'. subst t1'.
    split; [exact Hproc|].
    rewrite (main_child_after_record _ _ _ Hrec).
    destruct (process_audio_run env w1) as (o2 & w2 & t2 & Hpa & Ht2 & _).
    exists o2, w2, t2. split; [exact Hpa|]. split; [exact Ht2|].
    unfold bind at 1 3. rewrite Hpa.
    destruct o2 as [[]| | |]; cbn; try (split; [reflexivity|intros Hf; discriminate Hf]).
    destruct (cleanup_run w2) as (w3 & Hc & Htc & _).
    unfold bind. rewrite Hc. cbn. split; [exact Htc|reflexivity].
  - left. split; [discriminate|]. unfold main_child, bind. rewrite Hrec. reflexivity.
  - left. split; [discriminate|]. unfold main_child, bind. rewrite Hrec. reflexivity.
  - left. split; [discriminate|]. unfold main_child, bind. rewrite Hrec. reflexivity.
Qed.

Lemma not_in_record_statuses s t :
  Forall rec_event t -> ~ In s RECORD_STATUSES -> ~ In s (statuses t).
Proof. intros Ht Hs Hin. apply Hs. eapply statuses_rec_event; eauto. Qed.

(** C2 (amended).  In every run of the daemon, a status UPLOADING is
    preceded by a status PROCESSING, and the recording phase has returned
    with a non-empty buffer; a status COPIED is preceded by UPLOADING, and
    the extraction has returned a text, which was handed to the clipboard
    (this text may be the empty string); and with an empty buffer the run
    returns 0 with NO_AUDIO as last status and without any upload. *)
Theorem upload_and_copy_preconditions env w :
  exists t,
    trace (snd (main_child env w)) = trace w ++ t /\
    (forall pre post, statuses t = pre ++ "UPLOADING" :: post ->
       In "PROCESSING" pre /\
       exists w1, record_phase env w = (Val tt, w1) /\
                  0 < size (buf (g_audio_buffer w1))) /\
    (forall pre post, statuses t = pre ++ "COPIED" :: post ->
       In "UPLOADING" pre /\
       exists body text,
         e_response env = Some body /\ parse_response body = Some text /\
         In (Ev_clipboard text) t) /\
    (forall w1, record_phase env w = (Val tt, w1) ->
       size (buf (g_audio_buffer w1)) <= 0 ->
       fst (main_child env w) = Val 0 /\
       last (statuses t) = Some "NO_AUDIO" /\
       forall n, ~ In (Ev_upload n) t).
Proof.
  destruct (main_child_trace env w) as (o1 & w1 & t1 & Hrec & Ht1 & HP1 & Hcases).
  assert (HnoU : ~ In "UPLOADING" (statuses t1)).
  { apply not_in_record_statuses; [exact HP1|]. cbn. intuition discriminate. }
  assert (HnoC : ~ In "COPIED" (statuses t1)).
  { apply not_in_record_statuses; [exact HP1|]. cbn. intuition discriminate. }
  destruct Hcases as [(Hnv & Htr)|(-> & Hproc & o2 & w2 & t2 & Hpa & Ht2 & Htr & Hret)].
  - exists t1. split; [congruence|]. split; [|split].
    + intros pre post Heq. exfalso. apply HnoU. rewrite Heq.
      apply in_or_app. right. left. reflexivity.
    + intros pre post Heq. exfalso. apply HnoC. rewrite Heq.
      apply in_or_app. right. left. reflexivity.
    + intros w1' Hrec'. rewrite Hrec in Hrec'. exfalso. apply Hnv. congruence.
  - exists (t1 ++ t2). split; [rewrite Htr, Ht2, Ht1, app_assoc; reflexivity|].
    destruct (process_audio_run env w1) as (o2' & w2' & t2' & Hpa' & Ht2' & Hshape).
    rewrite Hpa in Hpa'. assert (o2' = o2 /\ w2' = w2) as [-> ->] by (split; congruence).
    rewrite Ht2 in Ht2'. apply app_inv_head in Ht2'. subst t2'.
    cbn zeta in Hshape. set (sz := size (buf (g_audio_buffer w1))) in *.
    rewrite statuses_app.
    split; [|split].
    + intros pre post Heq.
      destruct (split_after_prefix _ _ _ _ _ Heq HnoU) as (pre' & -> & Hs2).
      split; [apply in_or_app; left; exact Hproc|].
      exists w1. split; [exact Hrec|].
      destruct Hshape as [(_ & _ & ->)|(Hpos & _)]; [|exact Hpos].
      exfalso. cbn in Hs2. destruct pre' as [|? [|? ?]]; discriminate Hs2.
    + intros pre post Heq.
      destruct (split_after_prefix _ _ _ _ _ Heq HnoC) as (pre' & -> & Hs2).
      destruct Hshape as [(_ & _ & ->)|(Hpos & t' & -> & Ht')].
      { exfalso. cbn in Hs2. destruct pre' as [|? [|? ?]]; discriminate Hs2. }
      destruct Ht' as [(_ & ->)|[(_ & ->)|[(_ & -> & _)|(_ & body & text & Hb & Hp & ->)]]];
        cbn in Hs2.
      * exfalso. destruct pre' as [|? [|? [|? ?]]]; discriminate Hs2.
      * exfalso. destruct pre' as [|? [|? [|? ?]]]; discriminate Hs2.
      * exfalso. destruct pre' as [|? [|? ?]]; discriminate Hs2.
      * split.
        { apply in_or_app. right.
          destruct pre' as [|? [|? [|? ?]]]; try discriminate Hs2.
          injection Hs2 as <- _. left. reflexivity. }
        exists body, text. split; [exact Hb|]. split; [exact Hp|].
        apply in_or_app. right. cbn. auto.
    + intros w1' Hrec' Hz. assert (w1' = w1) by congruence. subst w1'.
      destruct Hshape as [(_ & -> & ->)|(Hpos & _)]; [|fold sz in Hz; lia].
      split; [apply Hret; reflexivity|]. split.
      * cbn. rewrite last_snoc. reflexivity.
      * intros n Hin. apply in_app_or in Hin as [Hin|Hin].
        -- rewrite Forall_forall in HP1. apply list_elem_of_In in Hin.
           apply HP1 in Hin. exact Hin.
        -- cbn in Hin. destruct Hin as [Hin|[]]. discriminate Hin.
Qed.

(** ** Device failure and the duration ceiling *)

Lemma emit_run e w :
  exists w', emit e w = (Val tt, w') /\ steady w w' /\ sched w' = sched w /\
             statusfile w' = statusfile w /\ trace w' = trace w ++ [e].
Proof. eexists. split; [reflexivity|]. cbn. repeat split. Qed.

Lemma open_device_run env w :
  exists w',
    open_device env w = (Val (e_open_plughw env || e_open_default env), w') /\
    steady w w' /\ sched w' = sched w /\
    trace w' = trace w ++ Ev_pcm_open "plughw:0,0" ::
      (if e_open_plughw env then []
       else Ev_pcm_open "default" ::
            (if e_open_default env then []
             else [Ev_update_status "ERROR: Audio device failed" 0])).
Proof.
  unfold open_device.
  destruct (emit_run (Ev_pcm_open "plughw:0,0") w) as (w1 & H1 & Hs1 & Hc1 & _ & Ht1).
  unfold bind at 1. rewrite H1.
  destruct (e_open_plughw env); cbn [orb].
  { exists w1. auto. }
  destruct (emit_run (Ev_pcm_open "default") w1) as (w2 & H2 & Hs2 & Hc2 & _ & Ht2).
  unfold bind at 1. rewrite H2.
  destruct (e_open_default env).
  { exists w2. split; [reflexivity|]. split; [eapply steady_trans; eauto|].
    split; [congruence|]. rewrite Ht2, Ht1, <- app_assoc. reflexivity. }
  destruct (update_status_run "ERROR: Audio device failed" 0 w2)
    as (w3 & H3 & Hs3 & Hc3 & Ht3 & _).
  unfold bind at 1. rewrite H3.
  exists w3. split; [reflexivity|].
  split; [eapply steady_trans; [eapply steady_trans|]; eauto|].
  split; [congruence|]. rewrite Ht3, Ht2, Ht1, <- !app_assoc. reflexivity.
Qed.

Lemma is_monitor_replicate k l :
  Forall is_monitor_event (replicate k (Ev_update_status "RECORDING" l)).
Proof. apply Forall_replicate. exists l. reflexivity. Qed.

(** [yield], for the proofs that follow a run step by step. *)
Lemma yield_monitor w :
  exists w' mon,
    yield w = (Val tt, w') /\ steady w w' /\ trace w' = trace w ++ mon /\
    Forall is_monitor_event mon /\ (g_stop_recording w = true -> mon = []).
Proof.
  destruct (yield_run w) as (w' & k & Hrun & Hst & _ & Ht & Hk).
  exists w', (replicate k (Ev_update_status "RECORDING" (g_current_level w))).
  split; [exact Hrun|]. split; [exact Hst|]. split; [exact Ht|].
  split; [apply is_monitor_replicate|].
  intros Hstop. rewrite Hstop in Hk. subst k. reflexivity.
Qed.

Lemma session_start_run w :
  exists w',
    session_start w = (Val tt, w') /\
    trace w' = trace w ++ [Ev_update_status "CONNECTING" 0] /\
    g_record_start_time w' = now w /\
    g_stop_recording w' = g_stop_recording w /\
    g_audio_buffer w' = g_audio_buffer w /\
    g_current_level w' = g_current_level w /\
    g_status_file w' = g_status_file w /\
    now w' = now w /\ sched w' = sched w.
Proof.
  unfold session_start. unfold bind at 1. unfold gets at 1.
  unfold bind at 1. unfold modify at 1.
  destruct (update_status_run "CONNECTING" 0 (set_g_record_start_time (now w) w))
    as (w' & Hrun & Hst & Hsc & Ht & _).
  exists w'. split; [exact Hrun|]. destruct Hst as (?&?&?&?&?&?&?&?).
  cbn in *. repeat split; assumption.
Qed.

Lemma device_failure_record_phase env w :
  e_open_plughw env = false -> e_open_default env = false ->
  exists w' mon0 mon1 mon2,
    record_phase env w = (Val tt, w') /\
    trace w' = trace w ++ [Ev_update_status "CONNECTING" 0] ++ mon0
               ++ [Ev_pcm_open "plughw:0,0"; Ev_pcm_open "default";
                   Ev_update_status "ERROR: Audio device failed" 0]
               ++ mon1 ++ [Ev_update_status "PROCESSING" 0] ++ mon2 /\
    Forall is_monitor_event (mon0 ++ mon1 ++ mon2) /\
    (g_stop_recording w = true -> mon0 ++ mon1 ++ mon2 = []) /\
    g_audio_buffer w' = g_audio_buffer w /\
    g_status_file w' = g_status_file w.
Proof.
  intros Hp Hd.
  destruct (session_start_run w) as (wa & Ha & Hta & _ & Hsa & Hba & _ & Hfa & _).
  destruct (yield_monitor wa) as (wb & mon0 & Hb & Hsb & Htb & Hm0 & Hz0).
  destruct (open_device_run env wb) as (wc & Hc & Hsc & _ & Htc).
  rewrite Hp, Hd in Hc, Htc. cbn [orb] in Hc.
  destruct (yield_monitor wc) as (wd & mon1 & Hd' & Hsd & Htd & Hm1 & Hz1).
  destruct (update_status_run "PROCESSING" 0 wd) as (we & He & Hse & _ & Hte & _).
  destruct (yield_monitor we) as (wf & mon2 & Hf & Hsf & Htf & Hm2 & Hz2).
  exists (set_g_stop_recording true wf), mon0, mon1, mon2.
  destruct Hsb as (_&Hfb&_&Hstb&_&_&Hbb&_). destruct Hsc as (_&Hfc&_&Hstc&_&_&Hbc&_).
  destruct Hsd as (_&Hfd&_&Hstd&_&_&Hbd&_). destruct Hse as (_&Hfe&_&Hste&_&_&Hbe&_).
  destruct Hsf as (_&Hff&_&Hstf&_&_&Hbf&_).
  split.
  { unfold record_phase. unfold bind at 1. rewrite Ha.
    unfold bind at 1. unfold recording_thread. unfold bind at 1.
    unfold recording_prologue. unfold bind at 1. rewrite Hb.
    unfold bind at 1. rewrite Hc. cbn [negb]. unfold ret at 1. unfold ret at 1.
    unfold bind at 1. rewrite Hd'. unfold bind at 1. rewrite He.
    unfold bind at 1. rewrite Hf. reflexivity. }
  split.
  { cbn [trace set_g_stop_recording]. rewrite Htf, Hte, Htd, Htc, Htb, Hta.
    rewrite <- !app_assoc. reflexivity. }
  split. { repeat (apply Forall_app; split); assumption. }
  split.
  { intros Hstop. rewrite Hz0, Hz1, Hz2 by congruence. reflexivity. }
  cbn. split; congruence.
Qed.

(** C6 (amended).  The direct device is opened first and the default one
    only if that fails.  If both fail, the capture thread reports the
    failure by one status update whose status starts with ERROR and
    returns: it never updates the status to READY or RECORDING and reads
    no frame; main then goes through PROCESSING and, the buffer being
    empty, NO_AUDIO, cleans up and returns 0.  The only other events are
    RECORDING updates of the monitor thread, which it can write until the
    stop flag is set. *)
Theorem device_open_fallback env w :
  (exists w',
     open_device env w = (Val (e_open_plughw env || e_open_default env), w') /\
     trace w' = trace w ++ Ev_pcm_open "plughw:0,0" ::
       (if e_open_plughw env then []
        else Ev_pcm_open "default" ::
             (if e_open_default env then []
              else [Ev_update_status "ERROR: Audio device failed" 0]))) /\
  (e_open_plughw env = false -> e_open_default env = false ->
   size (buf (g_audio_buffer w)) <= 0 ->
   exists w' err mon0 mon1 mon2,
     main_child env w = (Val 0, w') /\
     str_prefix "ERROR" err = true /\
     trace w' = trace w ++ [Ev_update_status "CONNECTING" 0] ++ mon0
                ++ [Ev_pcm_open "plughw:0,0"; Ev_pcm_open "default";
                    Ev_update_status err 0]
                ++ mon1 ++ [Ev_update_status "PROCESSING" 0] ++ mon2
                ++ [Ev_update_status "NO_AUDIO" 0] /\
     Forall is_monitor_event (mon0 ++ mon1 ++ mon2) /\
     (g_stop_recording w = true -> mon0 ++ mon1 ++ mon2 = []) /\
     pidfile w' = None /\
     (g_status_file w = true -> statusfile w' = None) /\
     g_audio_buffer w' = free_audio_buffer (g_audio_buffer w)).
Proof.
  split.
  { destruct (open_device_run env w) as (w' & H & _ & _ & Ht). exists w'. auto. }
  intros Hp Hd Hsz.
  destruct (device_failure_record_phase env w Hp Hd)
    as (w1 & mon0 & mon1 & mon2 & Hrec & Ht1 & Hmon & Hz & Hbuf & Hfile).
  destruct (process_audio_run env w1) as (o & w2 & t2 & Hpa & Ht2 & Hshape).
  cbn zeta in Hshape. rewrite Hbuf in Hshape.
  destruct Hshape as [(_ & -> & ->)|(Hpos & _)]; [|lia].
  destruct (cleanup_run w2) as (w3 & Hc & Ht3 & Hpid & Hsf & Hb3).
  destruct (update_status_run "NO_AUDIO" 0 w1) as (w2' & Hn & Hst & _).
  assert (Hw2 : w2' = w2).
  { unfold process_audio in Hpa. unfold bind at 1 in Hpa. unfold gets at 1 in Hpa.
    cbn beta iota in Hpa. rewrite Hbuf in Hpa.
    destruct (Z.gtb_spec (size (buf (g_audio_buffer w))) 0); [lia|]. congruence. }
  subst w2'. destruct Hst as (_&Hf2&_&_&_&_&Hb2&_).
  exists w3, "ERROR: Audio device failed", mon0, mon1, mon2.
  split.
  { rewrite (main_child_after_record _ _ _ Hrec).
    unfold bind at 1. rewrite Hpa. unfold bind at 1. rewrite Hc. reflexivity. }
  split; [reflexivity|].
  split. { rewrite Ht3, Ht2, Ht1. rewrite <- !app_assoc. reflexivity. }
  split; [exact Hmon|]. split; [exact Hz|]. split; [exact Hpid|].
  split. { intros Hopen. rewrite Hsf, Hf2, Hfile, Hopen. reflexivity. }
  rewrite Hb3, Hb2, Hbuf. reflexivity.
Qed.

(** *** Components of the state that a computation leaves alone *)

Section Preserves.
Context {X : Type} (f : World -> X).

Lemma preserves_ret {A} (a : A) : preserves f (ret a).
Proof. intros w. reflexivity. Qed.

Lemma preserves_lift {A} (o : outcome A) : preserves f (lift o).
Proof. intros w. reflexivity. Qed.

Lemma preserves_gets {A} (g : World -> A) : preserves f (gets g).
Proof. intros w. reflexivity. Qed.

Lemma preserves_modify (g : World -> World) :
  (forall w, f (g w) = f w) -> preserves f (modify g).
Proof. intros H w. apply H. Qed.

Lemma preserves_bind {A B} (m : M A) (k : A -> M B) :
  preserves f m -> (forall a, preserves f (k a)) -> preserves f (bind m k).
Proof.
  intros Hm Hk w. unfold bind. specialize (Hm w).
  destruct (m w) as [[a| | |] w1]; cbn in *; try exact Hm.
  rewrite Hk. exact Hm.
Qed.
End Preserves.

Ltac preserves_tac :=
  repeat first
    [ apply preserves_ret
    | apply preserves_lift
    | apply preserves_gets
    | apply preserves_modify; intros ?w; cbn;
        repeat match goal with |- context [if ?b then _ else _] => destruct b end;
        reflexivity
    | apply preserves_bind; [|intro]
    | match goal with
      | |- preserves _ (if ?b then _ else _) => destruct b
      | |- preserves _ (match ?x with _ => _ end) => destruct x
      end ].

Lemma start_time_update_status s l : preserves g_record_start_time (update_status s l).
Proof. unfold update_status, emit. preserves_tac. Qed.

Lemma start_time_monitor_rounds n : preserves g_record_start_time (monitor_rounds n).
Proof.
  induction n as [|n IH]; cbn [monitor_rounds]; [apply preserves_ret|].
  apply preserves_bind; [|intro; exact IH].
  unfold monitor_round. preserves_tac; apply start_time_update_status.
Qed.

Lemma start_time_yield : preserves g_record_start_time yield.
Proof.
  unfold yield. apply preserves_bind; [apply preserves_gets|]. intros [|n s].
  - apply preserves_ret.
  - apply preserves_bind; [preserves_tac|intro]. apply start_time_monitor_rounds.
Qed.

Lemma start_time_capture_iter t b : preserves g_record_start_time (capture_iter t b).
Proof.
  unfold capture_iter, deliver, capture_body, emit.
  preserves_tac;
    first [apply start_time_yield | apply start_time_update_status
          | apply start_time_monitor_rounds].
Qed.

Lemma start_time_capture_prefix ticks : forall b,
  preserves g_record_start_time (capture_prefix ticks b).
Proof.
  induction ticks as [|t ticks IH]; intros b; cbn [capture_prefix].
  - apply preserves_ret.
  - apply preserves_bind; [apply start_time_capture_iter|].
    intros [b1|]; [apply IH|apply preserves_ret].
Qed.

Lemma start_time_recording_prologue env :
  preserves g_record_start_time (recording_prologue env).
Proof.
  unfold recording_prologue, open_device, emit.
  preserves_tac;
    first [apply start_time_yield | apply start_time_update_status
          | apply start_time_monitor_rounds].
Qed.

Lemma capture_loop_app ticks1 : forall rest b w b1 w1,
  capture_prefix ticks1 b w = (Val (Some b1), w1) ->
  capture_loop (ticks1 ++ rest) b w = capture_loop rest b1 w1.
Proof.
  induction ticks1 as [|t ticks1 IH]; intros rest b w b1 w1 H.
  - cbn in H. injection H as -> ->. reflexivity.
  - cbn [capture_prefix] in H. cbn [app capture_loop].
    apply bind_inv_val in H as (r & w' & Hit & H).
    unfold bind at 1. rewrite Hit.
    destruct r as [b'|]; [|discriminate H].
    apply IH. exact H.
Qed.

Lemma deliver_run t w :
  exists w' mon,
    deliver t w = (Val tt, w') /\
    trace w' = trace w ++ mon /\ Forall is_monitor_event mon /\
    now w' = t_now t /\
    g_record_start_time w' = g_record_start_time w /\
    g_stop_recording w' = g_stop_recording w || t_signal t /\
    g_audio_buffer w' = g_audio_buffer w.
Proof.
  unfold deliver. unfold bind at 1. unfold modify at 1.
  destruct (yield_monitor (set_now (t_now t) w)) as (w1 & mon & Hy & Hst & Ht & Hm & _).
  unfold bind at 1. rewrite Hy. destruct Hst as (_&_&_&Hstop&Hstart&_&Hbuf&Hnow).
  cbn in Hstop, Hstart, Hbuf, Hnow, Ht.
  destruct (t_signal t).
  - eexists _, mon. split; [reflexivity|]. cbn. rewrite orb_true_r. auto 10.
  - exists w1, mon. split; [reflexivity|]. rewrite orb_false_r. auto 10.
Qed.

(** C5.  Every iteration of the capture loop first tests the stop flag and
    then compares the elapsed time with the ceiling of 300 seconds.  At an
    iteration reached while recording, with no stop signal, where the time
    elapsed since the start of the session exceeds the ceiling, the
    capture thread updates the status to MAX_TIME and leaves the loop
    without reading; main then updates the status to PROCESSING and goes
    on with the same processing and cleanup as after a stop signal.  In
    between, only RECORDING updates of the monitor thread can occur. *)
Theorem max_time_forces_processing env w wr w1 b1 ticks1 t ticks2 :
  e_ticks env = ticks1 ++ t :: ticks2 ->
  (session_start;; recording_prologue env) w = (Val true, wr) ->
  capture_prefix ticks1 (e_pcm env) wr = (Val (Some b1), w1) ->
  g_stop_recording w1 = false -> t_signal t = false ->
  MAX_RECORDING_TIME < t_now t - now w ->
  (forall t' b w0, exists wd,
     deliver t' w0 = (Val tt, wd) /\
     capture_iter t' b w0 =
       (if g_stop_recording wd then ret None
        else if now wd - g_record_start_time wd >? MAX_RECORDING_TIME
             then (update_status "MAX_TIME" 0;; ret None)
             else (b' <- capture_body t' b;; ret (Some b'))) wd) /\
  exists w2 mon0 mon1 mon2,
    record_phase env w = (Val tt, w2) /\
    trace w2 = trace w1 ++ mon0
               ++ [Ev_update_status "MAX_TIME" 0; Ev_pcm_close]
               ++ mon1 ++ [Ev_update_status "PROCESSING" 0] ++ mon2 /\
    Forall is_monitor_event (mon0 ++ mon1 ++ mon2) /\
    g_audio_buffer w2 = g_audio_buffer w1 /\
    main_child env w = (process_audio env;; cleanup;; ret 0) w2.
Proof.
  intros Hticks Hpro Hpre Hstop Hsig Hmax.
  assert (Hiter : forall t' b w0, exists wd,
     deliver t' w0 = (Val tt, wd) /\
     capture_iter t' b w0 =
       (if g_stop_recording wd then ret None
        else if now wd - g_record_start_time wd >? MAX_RECORDING_TIME
             then (update_status "MAX_TIME" 0;; ret None)
             else (b' <- capture_body t' b;; ret (Some b'))) wd).
  { intros t' b w0. destruct (deliver_run t' w0) as (wd & mon & Hd & _).
    exists wd. split; [exact Hd|]. unfold capture_iter. unfold bind at 1. rewrite Hd.
    unfold bind at 1. unfold gets at 1. cbn beta iota.
    destruct (g_stop_recording wd); reflexivity. }
  split; [exact Hiter|].
  apply bind_inv_val in Hpro as ([] & wa & Ha & Hpro).
  destruct (session_start_run w) as (wa' & Ha' & _ & Hstart & _).
  assert (wa' = wa) by congruence. subst wa'.
  assert (Hs1 : g_record_start_time w1 = now w).
  { pose proof (start_time_capture_prefix ticks1 (e_pcm env) wr) as H1.
    rewrite Hpre in H1. cbn in H1.
    pose proof (start_time_recording_prologue env wa) as H2.
    rewrite Hpro in H2. cbn in H2. congruence. }
  destruct (deliver_run t w1) as (wd & mon0 & Hd & Htd & Hm0 & Hnow & Hsd & Hstd & Hbd).
  destruct (update_status_run "MAX_TIME" 0 wd) as (wm & Hm & Hsm & _ & Htm & _).
  destruct (emit_run Ev_pcm_close wm) as (wc & Hc & Hsc & _ & _ & Htc).
  destruct (yield_monitor wc) as (wy & mon1 & Hy & Hsy & Hty & Hm1 & _).
  destruct (update_status_run "PROCESSING" 0 wy) as (wp & Hp & Hsp & _ & Htp & _).
  destruct (yield_monitor wp) as (wz & mon2 & Hz & Hsz & Htz & Hm2 & _).
  assert (Hit : capture_iter t b1 w1 = (Val None, wm)).
  { destruct (Hiter t b1 w1) as (wd' & Hd' & ->).
    assert (wd' = wd) by congruence. subst wd'.
    rewrite Hstd, Hstop, Hsig. cbn [orb]. rewrite Hnow, Hsd, Hs1.
    destruct (Z.gtb_spec (t_now t - now w) MAX_RECORDING_TIME); [|lia].
    unfold bind at 1. rewrite Hm. reflexivity. }
  assert (Hrec : record_phase env w = (Val tt, set_g_stop_recording true wz)).
  { unfold record_phase. unfold bind at 1. rewrite Ha.
    unfold bind at 1. unfold recording_thread. unfold bind at 1. rewrite Hpro.
    unfold bind at 1. rewrite Hticks, (capture_loop_app _ _ _ _ _ _ Hpre).
    cbn [capture_loop]. unfold bind at 1. rewrite Hit. unfold ret at 1.
    rewrite Hc. unfold bind at 1. rewrite Hy. unfold bind at 1. rewrite Hp.
    unfold bind at 1. rewrite Hz. reflexivity. }
  exists (set_g_stop_recording true wz), mon0, mon1, mon2.
  split; [exact Hrec|].
  split.
  { cbn [trace set_g_stop_recording]. rewrite Htz, Htp, Hty, Htc, Htm, Htd.
    rewrite <- !app_assoc. reflexivity. }
  split. { repeat (apply Forall_app; split); assumption. }
  split.
  { destruct Hsm as (_&_&_&_&_&_&Hb1&_). destruct Hsc as (_&_&_&_&_&_&Hb2&_).
    destruct Hsy as (_&_&_&_&_&_&Hb3&_). destruct Hsp as (_&_&_&_&_&_&Hb4&_).
    destruct Hsz as (_&_&_&_&_&_&Hb5&_). cbn. congruence. }
  apply main_child_after_record. exact Hrec.
Qed.

(** ** The level of a frame *)

Lemma amplitude_eq s : amplitude s = Z.abs s # 32768.
Proof. unfold amplitude. cbn. rewrite Z.mul_1_r. reflexivity. Qed.

Lemma Qlt_bool_frac a b : Qlt_bool (a # 32768) (b # 32768) = (a <? b).
Proof.
  unfold Qlt_bool, Qle_bool. cbn [Qnum Qden].
  destruct (Z.ltb_spec a b); destruct (Z.leb_spec (b * 32768) (a * 32768)); cbn; lia.
Qed.

Lemma Qlt_bool_proper x x' y : (x == x')%Q -> Qlt_bool x y = Qlt_bool x' y.
Proof.
  intros H. unfold Qlt_bool. f_equal.
  destruct (Qle_bool y x) eqn:H1; destruct (Qle_bool y x') eqn:H2; try reflexivity.
  - apply Qle_bool_iff in H1. rewrite H in H1. apply Qle_bool_iff in H1. congruence.
  - apply Qle_bool_iff in H2. rewrite <- H in H2. apply Qle_bool_iff in H2. congruence.
Qed.

Lemma peak_fold samples : forall (acc : Q) (a : Z),
  (acc == a # 32768)%Q ->
  (fold_left (fun max_amp s =>
                let amp := amplitude s in
                if Qlt_bool max_amp amp then amp else max_amp) samples acc
   == Z.max a (foldr Z.max a (map Z.abs samples)) # 32768)%Q.
Proof.
  induction samples as [|s samples IH]; intros acc a Hacc; cbn [fold_left map foldr].
  - rewrite Z.max_id. exact Hacc.
  - cbn zeta. rewrite amplitude_eq, (Qlt_bool_proper _ _ _ Hacc), Qlt_bool_frac.
    destruct (Z.ltb_spec a (Z.abs s)) as [Hlt|Hge].
    + rewrite (IH (Z.abs s # 32768)%Q (Z.abs s)) by reflexivity.
      assert (Hmono : forall l x y, x <= y -> foldr Z.max x l <= foldr Z.max y l).
      { induction l; cbn; intros; [assumption|]. specialize (IHl x y H). lia. }
      assert (Hbase : forall l x, x <= foldr Z.max x l).
      { induction l; cbn; intros; [lia|]. specialize (IHl x). lia. }
      pose proof (Hmono (map Z.abs samples) a (Z.abs s) ltac:(lia)).
      pose proof (Hbase (map Z.abs samples) (Z.abs s)).
      pose proof (Hbase (map Z.abs samples) a).
      assert (Hfold : foldr Z.max (Z.abs s) (map Z.abs samples)
                      = Z.max (Z.abs s) (foldr Z.max a (map Z.abs samples))).
      { clear -Hlt. induction (map Z.abs samples) as [|x l IHl]; cbn; [lia|].
        rewrite IHl. lia. }
      rewrite Hfold. apply Qeq_alt. cbn. 
      replace (Z.max (Z.abs s) (Z.max (Z.abs s) (foldr Z.max a (map Z.abs samples))))
        with (Z.max a (Z.max (Z.abs s) (foldr Z.max a (map Z.abs samples)))) by lia.
      apply Z.compare_refl.
    + rewrite (IH acc a Hacc).
      assert (Hbase : forall l x, x <= foldr Z.max x l).
      { induction l; cbn; intros; [lia|]. specialize (IHl x). lia. }
      pose proof (Hbase (map Z.abs samples) a).
      replace (Z.max a (Z.max (Z.abs s) (foldr Z.max a (map Z.abs samples))))
        with (Z.max a (foldr Z.max a (map Z.abs samples))) by lia.
      reflexivity.
Qed.

Lemma max_abs_nonneg samples : 0 <= max_abs samples.
Proof. unfold max_abs. induction samples; cbn; lia. Qed.

Lemma max_abs_upper samples s : In s samples -> Z.abs s <= max_abs samples.
Proof.
  unfold max_abs. induction samples as [|x l IH]; cbn; [tauto|].
  intros [->|H]; [lia|]. specialize (IH H). lia.
Qed.

Lemma max_abs_attained samples :
  samples <> [] -> exists s, In s samples /\ max_abs samples = Z.abs s.
Proof.
  unfold max_abs. induction samples as [|x l IH]; [congruence|]. intros _.
  destruct l as [|y l].
  - exists x. cbn. split; [auto|lia].
  - destruct (IH ltac:(congruence)) as (s & Hs & Hmax).
    cbn [map foldr] in *. 
    destruct (Z.le_ge_cases (Z.abs x) (Z.max (Z.abs y) (foldr Z.max 0 (map Z.abs l)))).
    + exists s. split; [right; exact Hs|]. lia.
    + exists x. split; [left; reflexivity|]. lia.
Qed.

Lemma peak_level_max_abs samples : (peak_level samples == max_abs samples # 32768)%Q.
Proof.
  unfold peak_level. rewrite (peak_fold samples 0%Q 0) by reflexivity.
  fold (max_abs samples). pose proof (max_abs_nonneg samples).
  rewrite Z.max_r by lia. reflexivity.
Qed.

(** C9.  The level computed for a frame is the largest absolute sample
    value of the frame divided by 32768; for 16-bit samples it lies
    between 0 and 1; and the level stored after a frame has been captured
    is this value for the frame just read, whatever the level was
    before. *)
Theorem peak_level_of_frame samples :
  samples <> [] -> Forall is_int16 samples ->
  (peak_level samples == inject_Z (max_abs samples) / 32768)%Q /\
  (exists s, In s samples /\ max_abs samples = Z.abs s) /\
  (forall s, In s samples -> Z.abs s <= max_abs samples) /\
  (0 <= peak_level samples <= 1)%Q /\
  (forall t buffer w m',
     t_read t = Read_frames samples ->
     append_audio_buffer (t_realloc t) (pcm_bytes samples) (g_audio_buffer w) = Val m' ->
     exists w',
       capture_body t buffer w = (Val (samples ++ drop (length samples) buffer), w') /\
       g_current_level w' = peak_level samples /\
       g_audio_buffer w' = m').
Proof.
  intros Hne Hrange.
  split.
  { rewrite peak_level_max_abs. unfold Qeq. cbn. lia. }
  split; [apply max_abs_attained; exact Hne|].
  split; [intros s; apply max_abs_upper|].
  split.
  { rewrite peak_level_max_abs. pose proof (max_abs_nonneg samples) as H0.
    destruct (max_abs_attained samples Hne) as (s & Hs & Hmax).
    rewrite Forall_forall in Hrange. apply list_elem_of_In in Hs.
    specialize (Hrange s Hs). unfold is_int16 in Hrange.
    unfold Qle. cbn. lia. }
  intros t buffer w m' Hread Happ.
  unfold capture_body. rewrite Hread.
  destruct (Z.ltb_spec (Z.of_nat (length samples)) 0) as [Hneg|_]; [lia|].
  assert (Hlen : (0 < length samples)%nat).
  { destruct samples; [congruence|cbn; lia]. }
  destruct (Z.gtb_spec (Z.of_nat (length samples)) 0) as [_|Hz]; [|lia].
  rewrite Nat2Z.id, take_app_length.
  unfold bind, emit, modify, gets, lift, ret. cbn [g_audio_buffer set_trace].
  rewrite Happ. eexists. split; [reflexivity|]. cbn. split; reflexivity.
Qed.

(** ** The status record *)

(** Every call with an open status file leaves exactly the new record in
    the file, whatever the file held. *)
Lemma status_record_written status level w disk :
  g_status_file w = true -> statusfile w = Some disk ->
  statusfile (snd (update_status status level w))
  = Some (status_line status level (now w - g_record_start_time w)).
Proof.
  intros Hopen Hdisk.
  destruct (update_status_run status level w) as (w' & Hrun & _ & _ & _ & Hsf).
  rewrite Hrun. cbn [snd]. rewrite Hsf, Hopen, Hdisk. reflexivity.
Qed.

Lemma hundredths_format h :
  0 <= h <= 100 ->
  String.length (fmt_d (h / 100) +:+ "." +:+ fmt_02ld (h mod 100)) = 4%nat.
Proof.
  intros Hh.
  assert (Hall : forallb (fun x =>
            Nat.eqb (String.length (fmt_d (x / 100) +:+ "." +:+ fmt_02ld (x mod 100))) 4)
            (seqZ 0 101) = true) by (vm_compute; reflexivity).
  rewrite forallb_forall in Hall.
  apply Nat.eqb_eq. apply Hall. apply list_elem_of_In. apply elem_of_seqZ. lia.
Qed.

(** X24. The level field of a record, for the level of a frame of 16-bit
    samples: one digit, a point and two digits, within half a hundredth of
    the level. *)
Lemma level_field_format k :
  0 <= k <= 32768 ->
  exists h,
    0 <= h <= 100 /\
    fmt_2f (k # 32768) = fmt_d (h / 100) +:+ "." +:+ fmt_02ld (h mod 100) /\
    String.length (fmt_2f (k # 32768)) = 4%nat /\
    Z.abs (100 * k - 32768 * h) <= 16384.
Proof.
  intros Hk. unfold fmt_2f. cbn [Qnum].
  destruct (Z.ltb_spec k 0) as [|_]; [lia|].
  set (h := round_half_even (Qabs (k # 32768) * 100)).
  assert (Hh : 0 <= h <= 100 /\ Z.abs (100 * k - 32768 * h) <= 16384).
  { unfold h, round_half_even. cbn [Qabs Qmult Qnum Qden].
    rewrite Z.abs_eq by lia.
    change (Z.pos (32768 * 1)) with 32768.
    pose proof (Z.div_mod (k * 100) 32768 ltac:(lia)) as Hdm.
    pose proof (Z.mod_pos_bound (k * 100) 32768 ltac:(lia)) as Hmod.
    assert (0 <= k * 100 / 32768 <= 100).
    { split; [apply Z.div_pos; lia|]. apply Z.div_le_upper_bound; lia. }
    destruct (Z.compare_spec (2 * ((k * 100) mod 32768)) 32768) as [He|Hl|Hg].
    - destruct (Z.even (k * 100 / 32768)); lia.
    - lia.
    - lia. }
  exists h. destruct Hh as (Hh & Herr).
  split; [exact Hh|]. split; [reflexivity|]. split; [|exact Herr].
  change ("" +:+ fmt_d (h / 100) +:+ "." +:+ fmt_02ld (h mod 100))
    with (fmt_d (h / 100) +:+ "." +:+ fmt_02ld (h mod 100)).
  apply hundredths_format. exact Hh.
Qed.

(** C7.  When both device opens fail while the status file is open, the
    record left in the status file has the status field
    [ERROR: Audio device failed], which is none of the ten status tokens;
    with no time elapsed the file reads
    [ERROR: Audio device failed|0.00|00:00]. *)
Theorem device_error_record env w disk :
  e_open_plughw env = false -> e_open_default env = false ->
  g_status_file w = true -> statusfile w = Some disk ->
  exists w' line,
    open_device env w = (Val false, w') /\
    statusfile w' = Some line /\
    line = status_line "ERROR: Audio device failed" 0 (now w - g_record_start_time w) /\
    status_field line = "ERROR: Audio device failed" /\
    ~ In (status_field line) STATUS_TOKENS /\
    status_line "ERROR: Audio device failed" 0 0
    = "ERROR: Audio device failed|0.00|00:00" +:+ String newline "".
Proof.
  intros Hp Hd Hopen Hdisk.
  destruct (open_device_run env w) as (w' & Hrun & _ & _ & _).
  rewrite Hp, Hd in Hrun. cbn [orb] in Hrun.
  exists w', (status_line "ERROR: Audio device failed" 0 (now w - g_record_start_time w)).
  split; [exact Hrun|]. split.
  { unfold open_device in Hrun. rewrite Hp, Hd in Hrun.
    unfold bind at 1 in Hrun. unfold emit at 1, modify at 1 in Hrun.
    unfold bind at 1 in Hrun. unfold emit at 1, modify at 1 in Hrun.
    apply bind_inv_val in Hrun as ([] & w1 & Hu & Hret).
    injection Hret as <-.
    match type of Hu with update_status _ _ ?w0 = _ =>
      pose proof (status_record_written "ERROR: Audio device failed" 0 w0 disk
                    Hopen Hdisk) as Hw
    end.
    rewrite Hu in Hw. cbn [snd] in Hw. rewrite Hw. reflexivity. }
  split; [reflexivity|].
  assert (Hfield : status_field
            (status_line "ERROR: Audio device failed" 0 (now w - g_record_start_time w))
          = "ERROR: Audio device failed") by reflexivity.
  split; [exact Hfield|]. split; [|reflexivity].
  rewrite Hfield. cbn. intuition discriminate.
Qed.

Lemma rec_event_token e : rec_event e -> status_token_event e.
Proof.
  destruct e; cbn; try tauto.
  intros [<-|[<-|[<-|[<-|[<-|[<-|[]]]]]]]; cbn; tauto.
Qed.

Ltac emits_token_tac :=
  repeat first
    [ apply emits_ret
    | apply emits_lift
    | apply emits_gets
    | apply emits_update_status; cbn; tauto
    | apply emits_emit; exact I
    | apply emits_modify; intros; reflexivity
    | apply emits_bind; [|intro]
    | match goal with
      | |- emits _ (if ?b then _ else _) => destruct b
      | |- emits _ (match ?x with _ => _ end) => destruct x
      end ].

(** X25. Every status passed to [update_status] in a run of the daemon is one
    of the ten tokens, except the text of the device error. *)
Lemma status_calls_use_tokens env : emits status_token_event (main_child env).
Proof.
  unfold main_child.
  apply emits_bind; [|intro].
  { eapply emits_mono; [exact rec_event_token|apply emits_record_phase]. }
  apply emits_bind; [|intro].
  { unfold process_audio, transcribe_audio, copy_to_clipboard. emits_token_tac. }
  apply emits_bind; [|intro; apply emits_ret].
  unfold cleanup. emits_token_tac.
Qed.

(** ** The single-instance toggle *)

Lemma scan_digits_uint d : forall a rest,
  scan_digits (Some a) (NilEmpty.string_of_uint d +:+ rest)
  = scan_digits (Some (uint_value d a)) rest.
Proof.
  induction d as [|d IH|d IH|d IH|d IH|d IH|d IH|d IH|d IH|d IH|d IH]; intros a rest;
    cbn [NilEmpty.string_of_uint uint_value];
    rewrite ?append_String, ?append_empty; try reflexivity;
    cbn [scan_digits]; apply IH.
Qed.

Lemma uint_value_acc d : forall acc : positive,
  Z.pos (Pos.of_uint_acc d acc) = uint_value d (Z.pos acc).
Proof.
  induction d as [|d IH|d IH|d IH|d IH|d IH|d IH|d IH|d IH|d IH|d IH]; intros acc;
    cbn [Pos.of_uint_acc uint_value]; try reflexivity;
    rewrite IH; f_equal; lia.
Qed.

Lemma uint_value_of_uint d : Z.of_N (Pos.of_uint d) = uint_value d 0.
Proof.
  induction d as [|d IH|d IH|d IH|d IH|d IH|d IH|d IH|d IH|d IH|d IH];
    cbn [Pos.of_uint uint_value]; try reflexivity; try exact IH;
    cbn [Z.of_N]; rewrite uint_value_acc; reflexivity.
Qed.

Lemma scan_d_uint d :
  d <> Decimal.Nil ->
  scan_d (NilEmpty.string_of_uint d +:+ String newline "")
  = Some (int_of_long (clamp_long (uint_value d 0))).
Proof.
  intros Hd. unfold scan_d.
  destruct d as [|d|d|d|d|d|d|d|d|d|d]; [congruence| | | | | | | | | |];
    cbn [NilEmpty.string_of_uint]; rewrite append_String;
    cbn [skip_space];
    match goal with |- context [is_space ?c] => change (is_space c) with false end;
    cbn iota; cbn [scan_digits];
    match goal with |- context [digit_of ?c] =>
      let v := eval vm_compute in (digit_of c) in change (digit_of c) with v
    end;
    cbn iota; cbn [default from_option id];
    rewrite scan_digits_uint; reflexivity.
Qed.

(** What [fprintf(pf, "%d\n", pid)] writes, [fscanf(pf, "%d", &pid)] reads back. *)
Lemma pidfile_roundtrip pid :
  0 < pid < 2 ^ 31 -> scan_d (fmt_d pid +:+ String newline "") = Some pid.
Proof.
  intros Hpid. destruct pid as [|p|p]; try lia.
  unfold fmt_d. cbn [Z.to_int NilZero.string_of_int].
  pose proof (Unsigned.to_uint_nonnil p) as Hnil.
  assert (Hs : NilZero.string_of_uint (Pos.to_uint p)
               = NilEmpty.string_of_uint (Pos.to_uint p)).
  { destruct (Pos.to_uint p); [congruence|reflexivity..]. }
  rewrite Hs. rewrite (scan_d_uint _ Hnil).
  rewrite <- uint_value_of_uint, Unsigned.of_to. cbn [Z.of_N].
  f_equal. unfold clamp_long, int_of_long.
  rewrite Z.min_r, Z.max_r by lia.
  change (2 ^ 31) with 2147483648 in *. change (2 ^ 32) with 4294967296.
  rewrite Z.mod_small by lia. lia.
Qed.

Lemma check_running_absent env w :
  pidfile w = None -> check_running env w = (Val 0, w).
Proof. intros H. unfold check_running, bind, gets. rewrite H. reflexivity. Qed.

Lemma check_running_live env w content pid :
  pidfile w = Some content -> scan_d content = Some pid ->
  e_kill_probe env pid = true -> check_running env w = (Val pid, w).
Proof.
  intros H Hs Hk. unfold check_running, bind, gets. rewrite H, Hs. cbn.
  rewrite Hk. reflexivity.
Qed.

Lemma check_running_stale env w content pid :
  pidfile w = Some content -> scan_d content = Some pid ->
  e_kill_probe env pid = false -> check_running env w = (Val 0, set_pidfile None w).
Proof.
  intros H Hs Hk. unfold check_running, bind, gets. rewrite H, Hs. cbn.
  rewrite Hk. reflexivity.
Qed.

(** C1.  With no identity file, a start whose fork succeeds (the key is
    configured and the file can be created) leaves the identity file
    holding the pid of the daemon, which the next invocation reads back.
    With an identity file naming a live process, the invocation sends that
    process SIGUSR1 and returns 0 at once: nothing else happens, no
    identity file is written and no device is touched.  With an identity
    file naming a process that is not alive, the file is deleted and the
    invocation goes on exactly as if there had been none. *)
Theorem single_instance_toggle env w :
  (forall key,
     pidfile w = None -> e_api_key env = Some key ->
     0 < e_fork env -> e_pid_open env = true ->
     exists w',
       main (e_fork env) env w = (Val 0, w') /\
       pidfile w' = Some (fmt_d (e_fork env) +:+ String newline "") /\
       trace w' = trace w /\
       invocation env w = main_child env w' /\
       (e_fork env < 2 ^ 31 ->
        scan_d (fmt_d (e_fork env) +:+ String newline "") = Some (e_fork env))) /\
  (forall content pid,
     pidfile w = Some content -> scan_d content = Some pid ->
     0 < pid -> e_kill_probe env pid = true ->
     (forall fork_ret,
        main fork_ret env w = (Val 0, set_trace (trace w ++ [Ev_signal pid SIGUSR1]) w)) /\
     invocation env w = (Val 0, set_trace (trace w ++ [Ev_signal pid SIGUSR1]) w)) /\
  (forall content pid,
     pidfile w = Some content -> scan_d content = Some pid ->
     e_kill_probe env pid = false ->
     check_running env w = (Val 0, set_pidfile None w) /\
     (forall fork_ret, main fork_ret env w = main fork_ret env (set_pidfile None w)) /\
     invocation env w = invocation env (set_pidfile None w)).
Proof.
  split; [|split].
  - intros key Hnone Hkey Hfork Hopen.
    assert (Hstart : exists w0, main_startup env w = (Val None, w0) /\
                                trace w0 = trace w /\
                                main_parent env (e_fork env) w0
                                = (Val 0, set_pidfile
                                            (Some (fmt_d (e_fork env) +:+ String newline "")) w0)).
    { unfold main_startup. unfold bind at 1. rewrite (check_running_absent _ _ Hnone).
      cbn [Z.gtb Z.compare]. unfold main_parent. rewrite Hopen.
      destruct (e_status_open env); unfold bind, modify, gets, ret; cbn; rewrite Hkey;
        eexists; (split; [reflexivity|]); split; reflexivity. }
    destruct Hstart as (w0 & Hs & Ht & Hp).
    exists (set_pidfile (Some (fmt_d (e_fork env) +:+ String newline "")) w0).
    destruct (Z.gtb_spec (e_fork env) 0) as [_|]; [|lia].
    split; [|split; [|split; [|split]]].
    + unfold main. unfold bind at 1. rewrite Hs.
      destruct (Z.gtb_spec (e_fork env) 0) as [_|]; [|lia]. exact Hp.
    + reflexivity.
    + exact Ht.
    + unfold invocation. unfold bind at 1. rewrite Hs.
      destruct (Z.gtb_spec (e_fork env) 0) as [_|]; [|lia].
      unfold bind at 1. rewrite Hp. reflexivity.
    + intros Hlt. apply pidfile_roundtrip. lia.
  - intros content pid Hfile Hscan Hpos Hlive.
    assert (Hs : main_startup env w
                 = (Val (Some 0), set_trace (trace w ++ [Ev_signal pid SIGUSR1]) w)).
    { unfold main_startup. unfold bind at 1.
      rewrite (check_running_live _ _ _ _ Hfile Hscan Hlive).
      destruct (Z.gtb_spec pid 0) as [_|]; [|lia]. reflexivity. }
    split.
    + intros f. unfold main. unfold bind at 1. rewrite Hs. reflexivity.
    + unfold invocation. unfold bind at 1. rewrite Hs. reflexivity.
  - intros content pid Hfile Hscan Hdead.
    pose proof (check_running_stale _ _ _ _ Hfile Hscan Hdead) as Hc.
    assert (Hs : main_startup env w = main_startup env (set_pidfile None w)).
    { unfold main_startup.
      rewrite (bind_val _ _ _ _ _ Hc).
      rewrite (bind_val _ _ _ _ _ (check_running_absent env (set_pidfile None w) eq_refl)).
      reflexivity. }
    split; [exact Hc|]. split.
    + intros f. unfold main, bind. rewrite Hs. reflexivity.
    + unfold invocation. unfold bind at 1. rewrite Hs. reflexivity.
Qed.

(** ** Checks on concrete inputs *)

Example append_small :
  appends small_ops (init_audio_buffer 5 2 empty_mem)
  = Val (mkMem (mkAudioBuffer 8 5 8) {[ 8 := mkBlock 8 [1; 2; 3; 4; 5] ]}).
Proof. vm_compute. reflexivity. Qed.

Example parse_hello_world :
  parse_response (json_text_response "hello world") = Some "hello world".
Proof. reflexivity. Qed.

Example status_line_recording :
  status_line "RECORDING" (13763 # 32768) 65
  = "RECORDING|0.42|01:05" +:+ String newline "".
Proof. reflexivity. Qed.

Example peak_level_full_scale : peak_level [1; -32768; 5] = (32768 # 32768)%Q.
Proof. reflexivity. Qed.

Example scenario_no_audio :
  let r := invocation (sample_env true true [mkTick true 1 (Read_frames []) 0] None)
                      (boot None None 0 []) in
  fst r = Val 0 /\
  statuses (trace (snd r)) = ["CONNECTING"; "READY"; "RECORDING"; "PROCESSING"; "NO_AUDIO"].
Proof. vm_compute. split; reflexivity. Qed.

Example scenario_hello_world :
  let r := invocation
             (sample_env true true
                [mkTick false 1 (Read_frames [7; -9]) 0; mkTick true 2 (Read_frames []) 0]
                (Some (json_text_response "hello world")))
             (boot None None 0 []) in
  fst r = Val 0 /\
  trace (snd r) =
    [Ev_update_status "CONNECTING" 0; Ev_pcm_open "plughw:0,0";
     Ev_update_status "READY" 0; Ev_update_status "RECORDING" 0;
     Ev_pcm_readi; Ev_pcm_close; Ev_update_status "PROCESSING" 0;
     Ev_update_status "UPLOADING" 0; Ev_upload 4; Ev_clipboard "hello world";
     Ev_update_status "COPIED" 0].
Proof. vm_compute. split; reflexivity. Qed.

(** ** Instances of the theorems, and counterexamples *)

Lemma single_instance_toggle_witness :
  (exists w',
     main 4242 env_device_failure (boot None None 0 []) = (Val 0, w') /\
     pidfile w' = Some ("4242" +:+ String newline "")) /\
  main 0 env_live (boot (Some "4242") None 0 [])
  = (Val 0, set_trace [Ev_signal 4242 SIGUSR1] (boot (Some "4242") None 0 [])) /\
  check_running env_device_failure (boot (Some "4242") None 0 [])
  = (Val 0, boot None None 0 []).
Proof.
  split; [|split].
  - destruct (proj1 (single_instance_toggle env_device_failure (boot None None 0 []))
                    "sk-test" eq_refl eq_refl eq_refl eq_refl)
      as (w' & Hmain & Hpid & _).
    exists w'. split; [exact Hmain|exact Hpid].
  - exact (proj1 (proj1 (proj2 (single_instance_toggle env_live (boot (Some "4242") None 0 [])))
                   "4242" 4242 eq_refl eq_refl eq_refl eq_refl) 0).
  - exact (proj1 (proj2 (proj2 (single_instance_toggle env_device_failure
                                   (boot (Some "4242") None 0 [])))
                   "4242" 4242 eq_refl eq_refl eq_refl)).
Defined.

Lemma copied_with_empty_text :
  let r := invocation env_empty_text (boot None None 0 []) in
  fst r = Val 0 /\
  statuses (trace (snd r))
  = ["CONNECTING"; "READY"; "RECORDING"; "PROCESSING"; "UPLOADING"; "COPIED"] /\
  e_response env_empty_text = Some (json_text_response "") /\
  parse_response (json_text_response "") = Some "" /\
  In (Ev_clipboard "") (trace (snd r)).
Proof.
  vm_compute. split; [reflexivity|]. split; [reflexivity|]. split; [reflexivity|].
  split; [reflexivity|]. do 9 right. left. reflexivity.
Qed.

Lemma upload_and_copy_preconditions_witness :
  let w := world_at_fork env_max_time [] in
  statuses (trace (snd (main_child env_max_time w)))
  = ["CONNECTING"; "READY"; "RECORDING"; "MAX_TIME"; "PROCESSING"] ++ "UPLOADING" :: ["COPIED"] /\
  In "PROCESSING" ["CONNECTING"; "READY"; "RECORDING"; "MAX_TIME"; "PROCESSING"] /\
  (exists w1, record_phase env_max_time w = (Val tt, w1) /\
              0 < size (buf (g_audio_buffer w1))) /\
  In "UPLOADING" (["CONNECTING"; "READY"; "RECORDING"; "MAX_TIME"; "PROCESSING"] ++ ["UPLOADING"]).
Proof.
  intros w.
  destruct (upload_and_copy_preconditions env_max_time w) as (t & Ht & Hup & Hcopy & _).
  assert (Hw : trace w = []) by reflexivity.
  rewrite Hw in Ht. cbn [app] in Ht.
  assert (Hs : statuses t
               = ["CONNECTING"; "READY"; "RECORDING"; "MAX_TIME"; "PROCESSING"]
                 ++ "UPLOADING" :: ["COPIED"]).
  { rewrite <- Ht. vm_compute. reflexivity. }
  split; [rewrite Ht; exact Hs|].
  destruct (Hup _ _ Hs) as (Hin & Hrec).
  split; [exact Hin|]. split; [exact Hrec|].
  exact (proj1 (Hcopy (["CONNECTING"; "READY"; "RECORDING"; "MAX_TIME"; "PROCESSING"]
                         ++ ["UPLOADING"]) [] Hs)).
Defined.

Lemma appends_length_capacity_witness :
  5 <> NULL /\ 0 < 2 < SIZE_MOD /\
  Forall (fun op => fst op <> NULL) small_ops /\
  total_bytes small_ops <= 2 ^ 63 /\
  exists m,
    appends (take 2 small_ops) (init_audio_buffer 5 2 empty_mem) = Val m /\
    size (buf m) = total_bytes (take 2 small_ops) /\
    (exists k : nat, capacity (buf m) = 2 * 2 ^ Z.of_nat k) /\
    size (buf m) <= capacity (buf m).
Proof.
  assert (H1 : 5 <> NULL) by discriminate.
  assert (H2 : 0 < 2 < SIZE_MOD) by (split; reflexivity).
  assert (H3 : Forall (fun op : Z * list Z => fst op <> NULL) small_ops).
  { repeat constructor; discriminate. }
  assert (H4 : total_bytes small_ops <= 2 ^ 63) by (vm_compute; discriminate).
  split; [exact H1|]. split; [exact H2|]. split; [exact H3|]. split; [exact H4|].
  destruct (appends_length_capacity 5 2 empty_mem small_ops H1 H2 H3 H4 2%nat)
    as (m & Hm & Hsize & Hcap & Hle & _).
  exists m. split; [exact Hm|]. split; [exact Hsize|]. split; [exact Hcap|exact Hle].
Defined.

Lemma append_realloc_failure_witness :
  capacity (buf full_mem) < wrap_size (size (buf full_mem) + wrap_size 1) /\
  grow_loop GROW_FUEL (wrap_size (capacity (buf full_mem) * 2)) 3 = Some 4 /\
  exists m', append_audio_buffer NULL [9] full_mem = Val m' /\ m' = full_mem.
Proof.
  assert (H1 : capacity (buf full_mem) < wrap_size (size (buf full_mem) + wrap_size 1))
    by reflexivity.
  assert (H2 : grow_loop GROW_FUEL (wrap_size (capacity (buf full_mem) * 2)) 3 = Some 4)
    by reflexivity.
  split; [exact H1|]. split; [exact H2|].
  destruct (append_realloc_failure [9] full_mem 4 H1 H2) as (m' & Hm & _ & _ & _ & _ & Heq).
  exists m'. split; [exact Hm|exact Heq].
Defined.

Lemma transcription_has_no_quote_witness :
  let w := world_at_fork env_say_hi [] in
  transcribe_audio env_say_hi 4 w
  = (Val (0, Some "say \"), set_trace (trace w ++ [Ev_upload 4]) w) /\
  str_mem dquote "say \" = false.
Proof.
  assert (H : transcribe_audio env_say_hi 4 (world_at_fork env_say_hi [])
              = (Val (0, Some "say \"),
                 set_trace (trace (world_at_fork env_say_hi []) ++ [Ev_upload 4])
                           (world_at_fork env_say_hi []))) by reflexivity.
  split; [exact H|].
  exact (proj1 (transcription_has_no_quote _ _ _ _ _ _ H)).
Defined.

Lemma max_time_forces_processing_witness :
  let w := world_at_fork env_max_time [] in
  exists w2,
    record_phase env_max_time w = (Val tt, w2) /\
    statuses (trace w2) = ["CONNECTING"; "READY"; "RECORDING"; "MAX_TIME"; "PROCESSING"] /\
    main_child env_max_time w = (process_audio env_max_time;; cleanup;; ret 0) w2.
Proof.
  intros w.
  assert (H1 : e_ticks env_max_time = [tick_frame] ++ tick_late :: []) by reflexivity.
  assert (H2 : (session_start;; recording_prologue env_max_time) w = (Val true, max_time_wr)).
  { vm_compute. reflexivity. }
  assert (H3 : capture_prefix [tick_frame] (e_pcm env_max_time) max_time_wr
               = (Val (Some max_time_b1), max_time_w1)).
  { vm_compute. reflexivity. }
  assert (H4 : g_stop_recording max_time_w1 = false) by (vm_compute; reflexivity).
  assert (H5 : t_signal tick_late = false) by reflexivity.
  assert (H6 : MAX_RECORDING_TIME < t_now tick_late - now w) by (vm_compute; reflexivity).
  destruct (proj2 (max_time_forces_processing env_max_time w max_time_wr max_time_w1
                     max_time_b1 [tick_frame] tick_late [] H1 H2 H3 H4 H5 H6))
    as (w2 & mon0 & mon1 & mon2 & Hrec & _ & _ & _ & Hmain).
  exists w2. split; [exact Hrec|]. split; [|exact Hmain].
  assert (Hw : w2 = snd (record_phase env_max_time w)) by (rewrite Hrec; reflexivity).
  rewrite Hw. vm_compute. reflexivity.
Defined.

Lemma recording_status_after_device_failure :
  e_open_plughw env_device_failure = false /\
  e_open_default env_device_failure = false /\
  statuses (trace (snd (invocation env_device_failure (boot None None 0 [0; 1]%nat))))
  = ["CONNECTING"; "ERROR: Audio device failed"; "RECORDING"; "PROCESSING"; "NO_AUDIO"].
Proof. vm_compute. repeat split; reflexivity. Qed.

Lemma device_open_fallback_witness :
  let w := world_at_fork env_device_failure [] in
  exists w',
    main_child env_device_failure w = (Val 0, w') /\
    statuses (trace w') = ["CONNECTING"; "ERROR: Audio device failed"; "PROCESSING"; "NO_AUDIO"] /\
    pidfile w' = None /\ statusfile w' = None.
Proof.
  intros w.
  destruct (proj2 (device_open_fallback env_device_failure w) eq_refl eq_refl)
    as (w' & err & mon0 & mon1 & mon2 & Hmain & _ & _ & _ & _ & Hpid & Hsf & _).
  { vm_compute. discriminate. }
  exists w'. split; [exact Hmain|].
  assert (Hw : w' = snd (main_child env_device_failure w)) by (rewrite Hmain; reflexivity).
  split; [rewrite Hw; vm_compute; reflexivity|].
  split; [exact Hpid|]. apply Hsf. vm_compute. reflexivity.
Defined.

Lemma device_error_record_witness :
  let w := world_at_fork env_device_failure [] in
  exists w',
    open_device env_device_failure w = (Val false, w') /\
    statusfile w' = Some ("ERROR: Audio device failed|0.00|00:00" +:+ String newline "").
Proof.
  intros w.
  destruct (device_error_record env_device_failure w "" eq_refl eq_refl eq_refl eq_refl)
    as (w' & line & Hrun & Hsf & Hline & _).
  exists w'. split; [exact Hrun|]. rewrite Hsf, Hline. reflexivity.
Defined.

Lemma peak_level_of_frame_witness :
  sample_frame <> [] /\ Forall is_int16 sample_frame /\
  (peak_level sample_frame == inject_Z 200 / 32768)%Q /\
  (0 <= peak_level sample_frame <= 1)%Q.
Proof.
  assert (H1 : sample_frame <> []) by discriminate.
  assert (H2 : Forall is_int16 sample_frame).
  { repeat constructor; unfold is_int16; lia. }
  split; [exact H1|]. split; [exact H2|].
  destruct (peak_level_of_frame sample_frame H1 H2) as (Heq & _ & _ & Hrange & _).
  split; [exact Heq|exact Hrange].
Defined.

(** * Further properties of the code *)

(** ** The buffer and the heap *)

Lemma append_keeps_ownership h0 q d m m' :
  append_audio_buffer q d m = Val m' ->
  buf_owns h0 m -> data (buf m) <> NULL ->
  h0 !! q = None ->
  buf_owns h0 m'.
Proof.
  intros Happ (Hfree & blk & Hheap) Hdata Hq.
  unfold append_audio_buffer in Happ.
  set (need := wrap_size (size (buf m) + wrap_size (Z.of_nat (length d)))) in *.
  destruct (capacity (buf m) <? need).
  - destruct (grow_loop GROW_FUEL (wrap_size (capacity (buf m) * 2)) need) as [nc|];
      [|discriminate Happ].
    unfold realloc in Happ.
    destruct (Z.eqb_spec q NULL) as [->|Hqn].
    + cbn in Happ. injection Happ as <-. split; [exact Hfree|]. exists blk. exact Hheap.
    + destruct (Z.eqb_spec (data (buf m)) NULL) as [|_]; [contradiction|].
      rewrite Hheap, lookup_insert_eq in Happ. cbn [obind buf heap data size capacity] in Happ.
      rewrite delete_insert_id in Happ by exact Hfree.
      unfold memcpy_at in Happ. rewrite lookup_insert_eq in Happ.
      destruct (_ && _); [|discriminate Happ].
      cbn [obind] in Happ. injection Happ as <-. cbn [buf heap data].
      split; [exact Hq|]. eexists. apply insert_insert_eq.
  - cbn [obind] in Happ. unfold memcpy_at in Happ.
    rewrite Hheap, lookup_insert_eq in Happ.
    destruct (_ && _); [|discriminate Happ].
    cbn [obind] in Happ. injection Happ as <-. cbn [buf heap data].
    split; [exact Hfree|]. eexists. apply insert_insert_eq.
Qed.

Lemma append_keeps_pointer_nonnull q d m m' :
  append_audio_buffer q d m = Val m' -> data (buf m) <> NULL -> data (buf m') <> NULL.
Proof.
  intros Happ Hdata. unfold append_audio_buffer in Happ.
  set (need := wrap_size (size (buf m) + wrap_size (Z.of_nat (length d)))) in *.
  destruct (capacity (buf m) <? need).
  - destruct (grow_loop GROW_FUEL (wrap_size (capacity (buf m) * 2)) need) as [nc|];
      [|discriminate Happ].
    destruct (realloc q (data (buf m)) nc (heap m)) as [h'| | |]; try discriminate Happ.
    cbn [obind] in Happ.
    destruct (Z.eqb_spec q NULL) as [->|Hqn].
    + injection Happ as <-. exact Hdata.
    + cbn [obind buf heap data size capacity] in Happ.
      destruct (memcpy_at q (size (buf m)) d h'); try discriminate Happ.
      injection Happ as <-. exact Hqn.
  - cbn [obind] in Happ.
    destruct (memcpy_at (data (buf m)) (size (buf m)) d (heap m)); try discriminate Happ.
    injection Happ as <-. exact Hdata.
Qed.

Lemma appends_keep_ownership h0 ops : forall m m',
  appends ops m = Val m' ->
  buf_owns h0 m -> data (buf m) <> NULL ->
  Forall (fun op => h0 !! fst op = None) ops ->
  buf_owns h0 m'.
Proof.
  induction ops as [|[q d] ops IH]; intros m m' Hrun Hown Hdata Hfresh.
  - injection Hrun as <-. exact Hown.
  - cbn [appends] in Hrun.
    destruct (append_audio_buffer q d m) as [m1| | |] eqn:Happ; try discriminate Hrun.
    cbn [obind] in Hrun. apply Forall_cons in Hfresh as [Hq Hfresh].
    apply (IH m1 m' Hrun); [|eapply append_keeps_pointer_nonnull; eauto|exact Hfresh].
    eapply append_keeps_ownership; eauto.
Qed.

(** X1. The buffer never holds more than one block: after any appends
    that return, on a buffer initialised at a fresh address and with the
    allocator answering fresh addresses (or failing), [free_audio_buffer]
    gives back the heap as it was before [init_audio_buffer] and zeroes
    the record; freeing once more changes nothing. *)
Theorem buffer_alloc_free_balanced p c0 m0 ops m :
  p <> NULL -> heap m0 !! p = None -> heap m0 !! NULL = None ->
  Forall (fun op => heap m0 !! fst op = None) ops ->
  appends ops (init_audio_buffer p c0 m0) = Val m ->
  heap (free_audio_buffer m) = heap m0 /\
  buf (free_audio_buffer m) = mkAudioBuffer NULL 0 0 /\
  free_audio_buffer (free_audio_buffer m) = free_audio_buffer m.
Proof.
  intros Hp Hfresh Hnull Hq Hrun.
  assert (Hinit : buf_owns (heap m0) (init_audio_buffer p c0 m0)).
  { unfold buf_owns, init_audio_buffer, malloc. cbn [buf heap data].
    destruct (Z.eqb_spec p NULL) as [|_]; [contradiction|].
    split; [exact Hfresh|]. eexists. reflexivity. }
  destruct (appends_keep_ownership _ _ _ _ Hrun Hinit Hp Hq) as (Hfree & blk & Hheap).
  assert (H1 : heap (free_audio_buffer m) = heap m0).
  { unfold free_audio_buffer. cbn [heap]. rewrite Hheap. apply delete_insert_id. exact Hfree. }
  split; [exact H1|]. split; [reflexivity|].
  unfold free_audio_buffer at 1. cbn [buf data]. rewrite H1.
  unfold free_audio_buffer. f_equal. rewrite <- H1. cbn [heap].
  rewrite delete_id; [reflexivity|]. fold (heap (free_audio_buffer m)). rewrite H1. exact Hnull.
Qed.

(** X2. Appending to a buffer whose capacity is 0 (the zeroed record
    before [init_audio_buffer] or after [free_audio_buffer]) never
    returns: the capacity is doubled from 0 for ever, with any number of
    rounds. *)
Theorem append_zero_capacity_diverges q d m :
  capacity (buf m) = 0 -> size (buf m) = 0 ->
  0 < Z.of_nat (length d) < SIZE_MOD ->
  append_audio_buffer q d m = Diverged /\
  forall fuel, grow_loop fuel (wrap_size (capacity (buf m) * 2)) (Z.of_nat (length d)) = None.
Proof.
  intros Hcap Hsize Hlen.
  assert (Hloop : forall fuel,
            grow_loop fuel (wrap_size (capacity (buf m) * 2)) (Z.of_nat (length d)) = None).
  { intros fuel. rewrite Hcap. change (wrap_size (0 * 2)) with 0.
    apply grow_loop_zero. lia. }
  split; [|exact Hloop].
  unfold append_audio_buffer. rewrite Hsize.
  rewrite (wrap_size_small (Z.of_nat (length d))) by lia.
  rewrite Z.add_0_l, (wrap_size_small (Z.of_nat (length d))) by lia.
  rewrite Hloop, Hcap. destruct (Z.ltb_spec 0 (Z.of_nat (length d))); [reflexivity|lia].
Qed.

(** ** The response buffer *)

Lemma write_callback_step q contents r body :
  q <> NULL -> resp_holds r body ->
  Z.of_nat (length body) + Z.of_nat (length contents) < 2 ^ 63 ->
  exists r',
    write_callback q contents 1 (Z.of_nat (length contents)) r
    = Val (Z.of_nat (length contents), r') /\
    resp_holds r' (body ++ contents) /\
    resp_data (resp r') = q.
Proof.
  intros Hq (Hsize & Hdata) Hsum.
  assert (H63 : 2 ^ 63 < SIZE_MOD) by reflexivity.
  unfold write_callback. rewrite Z.mul_1_l.
  rewrite (wrap_size_small (Z.of_nat (length contents))) by lia.
  rewrite !wrap_size_small by lia.
  rewrite Nat2Z.id, firstn_all.
  destruct (Z.eqb_spec q NULL) as [|_]; [contradiction|].
  assert (Hre : exists h1,
            realloc q (resp_data (resp r))
              (resp_size (resp r) + Z.of_nat (length contents) + 1) (resp_heap r) = Val h1 /\
            exists old, h1 !! q = Some (mkBlock (resp_size (resp r) + Z.of_nat (length contents) + 1) old) /\
            resize (Z.to_nat (resp_size (resp r))) 0 old = body /\
            (length old <= length body + 1)%nat).
  { unfold realloc. destruct (Z.eqb_spec q NULL) as [|_]; [contradiction|].
    destruct Hdata as [(Hnull & ->)|(Hnn & Hlook)].
    - rewrite Hnull. cbn [Z.eqb]. eexists. split; [reflexivity|].
      exists []. rewrite lookup_insert_eq. split; [reflexivity|].
      rewrite Hsize. split; [reflexivity|cbn; lia].
    - destruct (Z.eqb_spec (resp_data (resp r)) NULL) as [|_]; [contradiction|].
      rewrite Hlook. eexists. split; [reflexivity|].
      eexists. rewrite lookup_insert_eq. split; [reflexivity|]. cbn [blk_bytes].
      rewrite take_ge by (rewrite length_app; cbn; lia).
      split; [|rewrite length_app; cbn; lia].
      rewrite Hsize, Nat2Z.id, resize_app by reflexivity. reflexivity. }
  destruct Hre as (h1 & -> & old & Hl1 & Hold & Holdlen). cbn [obind].
  unfold memcpy_at at 1. rewrite Hl1. cbn [blk_size blk_bytes].
  assert (Hb1 : (0 <=? resp_size (resp r))
                && (resp_size (resp r) + Z.of_nat (length contents)
                    <=? resp_size (resp r) + Z.of_nat (length contents) + 1) = true).
  { apply andb_true_intro. split; apply Z.leb_le; lia. }
  rewrite Hb1. cbn [obind]. rewrite Hold.
  unfold memcpy_at. rewrite lookup_insert_eq. cbn [blk_size blk_bytes].
  assert (Hb2 : (0 <=? resp_size (resp r) + Z.of_nat (length contents))
                && (resp_size (resp r) + Z.of_nat (length contents) + Z.of_nat (length [0])
                    <=? resp_size (resp r) + Z.of_nat (length contents) + 1) = true).
  { apply andb_true_intro. split; apply Z.leb_le; cbn [length]; lia. }
  rewrite Hb2. cbn [obind].
  eexists. split; [reflexivity|]. cbn [resp resp_data resp_size resp_heap].
  split; [|reflexivity]. unfold resp_holds. cbn [resp resp_data resp_size resp_heap].
  split; [rewrite length_app; lia|]. right. split; [exact Hq|].
  rewrite insert_insert_eq, lookup_insert_eq. f_equal. f_equal.
  assert (Hlen : Z.to_nat (resp_size (resp r) + Z.of_nat (length contents))
                 = length (body ++ contents)).
  { rewrite length_app. lia. }
  rewrite Hlen.
  set (tail := drop _ old).
  assert (Htail : (length tail <= 1)%nat).
  { unfold tail. rewrite length_drop. lia. }
  rewrite (app_assoc body contents tail), resize_app by reflexivity.
  rewrite drop_ge by (rewrite !length_app; cbn [length]; lia).
  rewrite app_nil_r. reflexivity.
Qed.

Lemma receive_all chunks : forall r body,
  resp_holds r body ->
  Forall (fun c => fst c <> NULL) chunks ->
  Z.of_nat (length body) + Z.of_nat (length (concat (map snd chunks))) < 2 ^ 63 ->
  exists r',
    receive chunks r = Val (true, r') /\
    resp_holds r' (body ++ concat (map snd chunks)) /\
    (chunks <> [] -> resp_data (resp r') <> NULL).
Proof.
  induction chunks as [|[q c] chunks IH]; intros r body Hr Hq Hsum.
  - exists r. cbn [receive map concat]. rewrite app_nil_r.
    split; [reflexivity|]. split; [exact Hr|congruence].
  - apply Forall_cons in Hq as [Hq Hrest]. cbn [fst] in Hq.
    cbn [map concat snd] in Hsum. rewrite length_app in Hsum.
    destruct (write_callback_step q c r body Hq Hr) as (r1 & Hcall & Hr1 & Hd1); [lia|].
    cbn [receive]. rewrite Hcall. cbn [obind]. rewrite Z.eqb_refl.
    destruct (IH r1 (body ++ c) Hr1 Hrest) as (r' & Hrun & Hr' & Hnn).
    { rewrite length_app. lia. }
    exists r'. split; [exact Hrun|]. cbn [map concat snd]. rewrite app_assoc.
    split; [exact Hr'|]. intros _.
    destruct chunks as [|c2 chunks]; [|apply Hnn; congruence].
    cbn in Hrun. injection Hrun as <-. rewrite Hd1. exact Hq.
Qed.

(** X3. A body delivered in chunks, every reallocation succeeding, is
    accumulated in order: afterwards [size] is the total length and [data]
    points to a block of [size + 1] bytes holding the chunks followed by a
    NUL.  With no chunk at all [data] stays [NULL]. *)
Theorem response_accumulates_chunks h chunks :
  Forall (fun c => fst c <> NULL) chunks ->
  Z.of_nat (length (concat (map snd chunks))) < 2 ^ 63 ->
  exists r',
    receive chunks (empty_response h) = Val (true, r') /\
    resp_size (resp r') = Z.of_nat (length (concat (map snd chunks))) /\
    (chunks = [] -> resp_data (resp r') = NULL) /\
    (chunks <> [] ->
     resp_data (resp r') <> NULL /\
     resp_heap r' !! resp_data (resp r')
     = Some (mkBlock (resp_size (resp r') + 1) (concat (map snd chunks) ++ [0]))).
Proof.
  intros Hq Hsum.
  assert (H0 : resp_holds (empty_response h) []).
  { split; [reflexivity|]. left. split; reflexivity. }
  destruct (receive_all chunks (empty_response h) [] H0 Hq) as (r' & Hrun & (Hsz & Hdata) & Hnn).
  { cbn. lia. }
  cbn [app] in *. exists r'. split; [exact Hrun|]. split; [exact Hsz|]. split.
  - intros ->. cbn in Hrun. injection Hrun as <-. reflexivity.
  - intros Hne. specialize (Hnn Hne). split; [exact Hnn|].
    destruct Hdata as [(Hnull & _)|(_ & Hlook)]; [contradiction|exact Hlook].
Qed.

(** X4. When a reallocation fails on a non-empty chunk, the callback
    returns 0, the transfer stops there, and the response still holds
    exactly the chunks received before, NUL-terminated. *)
Theorem response_keeps_prefix_on_failure h pre c post :
  Forall (fun c => fst c <> NULL) pre -> c <> [] ->
  Z.of_nat (length (concat (map snd pre))) + Z.of_nat (length c) < 2 ^ 63 ->
  exists r',
    receive (pre ++ (NULL, c) :: post) (empty_response h) = Val (false, r') /\
    resp_holds r' (concat (map snd pre)) /\
    receive pre (empty_response h) = Val (true, r').
Proof.
  intros Hq Hc Hsum.
  assert (H0 : resp_holds (empty_response h) []).
  { split; [reflexivity|]. left. split; reflexivity. }
  destruct (receive_all pre (empty_response h) [] H0 Hq) as (r' & Hrun & Hr' & _).
  { cbn. lia. }
  cbn [app] in Hr'. exists r'. split; [|split; [exact Hr'|exact Hrun]].
  assert (Happ : forall l r0 r1,
            receive l r0 = Val (true, r1) ->
            receive (l ++ (NULL, c) :: post) r0 = Val (false, r1)).
  { induction l as [|[q0 c0] l IH]; intros r0 r1 H.
    - cbn in H. injection H as <-. cbn [app receive].
      unfold write_callback. unfold realloc. cbn [Z.eqb NULL obind].
      destruct c as [|x c]; [congruence|]. reflexivity.
    - cbn [app receive] in *.
      destruct (write_callback q0 c0 1 (Z.of_nat (length c0)) r0) as [[n r2]| | |];
        try discriminate H.
      cbn [obind] in *. destruct (n =? Z.of_nat (length c0)); [|discriminate H].
      apply IH. exact H. }
  apply Happ. exact Hrun.
Qed.

(** ** Loading the key *)

Lemma str_app_assoc a b c : (a +:+ b) +:+ c = a +:+ (b +:+ c).
Proof.
  induction a as [|d a IH]; rewrite ?append_String, ?append_empty; [reflexivity|].
  rewrite IH. reflexivity.
Qed.

Lemma length_app_str a b :
  String.length (a +:+ b) = (String.length a + String.length b)%nat.
Proof.
  induction a as [|d a IH]; rewrite ?append_String, ?append_empty; [reflexivity|].
  cbn [String.length]. rewrite IH. reflexivity.
Qed.

Lemma str_drop_app a b : str_drop (String.length a) (a +:+ b) = b.
Proof.
  induction a as [|d a IH]; rewrite ?append_String, ?append_empty; [reflexivity|].
  cbn [String.length str_drop]. exact IH.
Qed.

Lemma str_prefix_app a b : str_prefix a (a +:+ b) = true.
Proof.
  induction a as [|d a IH]; rewrite ?append_String, ?append_empty; [destruct b; reflexivity|].
  cbn [str_prefix]. rewrite Ascii.eqb_refl, IH. reflexivity.
Qed.

(** A line that fits the buffer is read as one piece, newline included. *)
Lemma fgets_line l : forall room rest,
  str_mem newline l = false -> (String.length l < room)%nat ->
  fgets_lines room (l +:+ String newline rest)
  = (l +:+ String newline "") :: fgets_lines 511 rest.
Proof.
  induction l as [|d l IH]; intros room rest Hm Hlen;
    rewrite ?append_String, ?append_empty; cbn [fgets_lines].
  - rewrite Ascii.eqb_refl. reflexivity.
  - cbn [str_mem] in Hm. apply orb_false_elim in Hm as [Hd Hl].
    cbn [String.length] in Hlen. rewrite Hd.
    destruct (Nat.leb_spec room 1) as [Hle|Hgt]; [lia|]. cbn [orb].
    rewrite (IH (pred room) rest Hl) by lia. reflexivity.
Qed.

Lemma str_prefix_newline K : forall l rest,
  str_mem newline K = false ->
  str_prefix K (l +:+ String newline rest) = str_prefix K l.
Proof.
  induction K as [|a K IH]; intros l rest Hm; [reflexivity|].
  cbn [str_mem] in Hm. apply orb_false_elim in Hm as [Ha HK].
  destruct l as [|b l]; rewrite ?append_String, ?append_empty; cbn [str_prefix].
  - rewrite Ha. reflexivity.
  - rewrite (IH l rest HK). reflexivity.
Qed.

Lemma find_key_skips before s :
  Forall other_line before ->
  find_key (fgets_lines 511 (unlines before +:+ s)) = find_key (fgets_lines 511 s).
Proof.
  induction 1 as [|l ls (Hm & Hlen & Hp) _ IH]; cbn [unlines];
    rewrite ?append_empty; [reflexivity|].
  rewrite str_app_assoc, append_String, fgets_line by (assumption || lia).
  cbn [find_key]. rewrite str_prefix_newline by reflexivity. rewrite Hp. exact IH.
Qed.

Lemma strip_last_quote_app k b :
  is_quote b = true -> strip_last_quote (k +:+ String b "") = k.
Proof.
  intros Hb. induction k as [|c k IH]; rewrite ?append_String, ?append_empty.
  - cbn. rewrite Hb. reflexivity.
  - cbn [strip_last_quote]. rewrite IH.
    destruct k; rewrite ?append_String, ?append_empty; reflexivity.
Qed.

Lemma is_quote_not c x : is_quote c = true -> x = newline \/ x = nul -> Ascii.eqb c x = false.
Proof.
  unfold is_quote. intros H Hx. destruct (Ascii.eqb_spec c x) as [->|]; [|reflexivity].
  destruct Hx as [->| ->]; discriminate.
Qed.

Lemma env_body_mem quotes k x :
  x = newline \/ x = nul -> quoting_ok quotes k ->
  str_mem x k = false -> str_mem x (env_body quotes k) = false.
Proof.
  intros Hx Hq Hk. destruct quotes as [[a b]|]; [|exact Hk].
  destruct Hq as [Ha Hb]. cbn [env_body str_mem].
  rewrite str_mem_app, Hk. cbn [str_mem]. 
  rewrite (is_quote_not a x Ha Hx), (is_quote_not b x Hb Hx). reflexivity.
Qed.

Lemma env_value_line quotes k :
  str_mem newline k = false -> str_mem nul k = false -> quoting_ok quotes k ->
  env_value (env_line quotes k) = k.
Proof.
  intros Hn Hz Hq. unfold env_value, env_line.
  change 15%nat with (String.length ENV_KEY). rewrite str_drop_app.
  rewrite c_str_no_nul.
  2:{ rewrite str_mem_app, (env_body_mem quotes k nul) by auto. reflexivity. }
  rewrite strchr_app by (apply env_body_mem; auto). rewrite str_take_app.
  destruct quotes as [[a b]|]; cbn [env_body].
  - destruct Hq as [Ha Hb]. rewrite Ha. apply strip_last_quote_app, Hb.
  - destruct k as [|c k]; [reflexivity|]. cbn in Hq. rewrite Hq. reflexivity.
Qed.

(** X5. Round trip of the key through the [.env] file: when the file
    holds, after lines that do not start with [OPENAI_API_KEY=], a line
    with the key [k] (bare, or between quote characters) that fits the
    512-byte line buffer, [load_env] leaves exactly [k] in [g_api_key],
    whatever follows the line; the file in the working directory is read
    only when the first one cannot be opened. *)
Theorem load_env_reads_key before quotes k after other :
  Forall other_line before ->
  str_mem newline k = false -> str_mem nul k = false ->
  quoting_ok quotes k ->
  (String.length (env_line quotes k) <= 511)%nat ->
  load_env (Some (env_file before quotes k after)) other = Some k /\
  load_env None (Some (env_file before quotes k after)) = Some k.
Proof.
  intros Hb Hn Hz Hq Hlen.
  assert (H : find_key (fgets_lines 511 (env_file before quotes k after)) = Some k).
  { unfold env_file. rewrite find_key_skips by exact Hb.
    assert (Hl : env_line quotes k = (ENV_KEY +:+ env_body quotes k) +:+ String newline "").
    { unfold env_line. rewrite str_app_assoc. reflexivity. }
    rewrite Hl, str_app_assoc, append_String, append_empty.
    rewrite fgets_line.
    - cbn [find_key]. rewrite str_app_assoc, str_prefix_app.
      rewrite <- str_app_assoc, <- Hl. rewrite env_value_line by assumption. reflexivity.
    - rewrite str_mem_app, (env_body_mem quotes k newline) by auto. reflexivity.
    - rewrite Hl, length_app_str in Hlen. cbn [String.length] in Hlen. lia. }
  split; exact H.
Qed.

Lemma fgets_lines_length s : forall room,
  match fgets_lines room s with
  | [] => True
  | l :: ls =>
      (String.length l <= Nat.max room 1)%nat /\
      Forall (fun l => (String.length l <= 511)%nat) ls
  end.
Proof.
  induction s as [|c s IH]; intros room; cbn [fgets_lines]; [exact I|].
  destruct (Ascii.eqb c newline || (room <=? 1)%nat) eqn:Hc.
  - split; [cbn; lia|]. specialize (IH 511%nat).
    destruct (fgets_lines 511 s) as [|l ls]; [constructor|].
    destruct IH as [Hl Hls]. constructor; [lia|exact Hls].
  - apply orb_false_elim in Hc as [_ Hr]. apply Nat.leb_gt in Hr.
    specialize (IH (pred room)).
    destruct (fgets_lines (pred room) s) as [|l ls]; [split; [cbn; lia|constructor]|].
    destruct IH as [Hl Hls]. split; [cbn [String.length]; lia|exact Hls].
Qed.

Lemma find_key_in ls k :
  find_key ls = Some k -> exists line, In line ls /\ k = env_value line.
Proof.
  induction ls as [|l ls IH]; cbn [find_key]; [discriminate|].
  destruct (str_prefix ENV_KEY l).
  - intros [= <-]. exists l. split; [left; reflexivity|reflexivity].
  - intros H. destruct (IH H) as (line & Hin & Hk). exists line. split; [right; exact Hin|exact Hk].
Qed.

Lemma c_str_shape s :
  str_mem nul (c_str s) = false /\ (String.length (c_str s) <= String.length s)%nat.
Proof.
  induction s as [|c s [IH1 IH2]]; cbn [c_str]; [split; [reflexivity|lia]|].
  destruct (Ascii.eqb c nul) eqn:Hc; cbn [str_mem String.length]; [split; [reflexivity|lia]|].
  rewrite Hc, IH1. split; [reflexivity|lia].
Qed.

Lemma str_drop_length n : forall s,
  String.length (str_drop n s) = (String.length s - n)%nat.
Proof.
  induction n as [|n IH]; intros [|c s]; cbn [str_drop String.length]; try lia.
  rewrite IH. lia.
Qed.

Lemma str_take_shape x n : forall s,
  (str_mem x s = false -> str_mem x (str_take n s) = false) /\
  (String.length (str_take n s) <= String.length s)%nat.
Proof.
  induction n as [|n IH]; intros [|c s]; cbn [str_take str_mem String.length];
    try (split; [reflexivity|lia]).
  destruct (IH s) as [H1 H2]. split; [|lia].
  intros H. apply orb_false_elim in H as [Hc Hs]. rewrite Hc, (H1 Hs). reflexivity.
Qed.

Lemma strchr_none s c : strchr s c = None -> str_mem c s = false.
Proof.
  induction s as [|d s IH]; cbn [strchr str_mem]; [reflexivity|].
  destruct (Ascii.eqb d c); [discriminate|].
  destruct (strchr s c); [discriminate|]. intros _. exact (IH eq_refl).
Qed.

Lemma strip_last_quote_shape x s :
  (str_mem x s = false -> str_mem x (strip_last_quote s) = false) /\
  (String.length (strip_last_quote s) <= String.length s)%nat.
Proof.
  induction s as [|c s [IH1 IH2]]; [split; [reflexivity|cbn; lia]|].
  cbn [strip_last_quote]. destruct s as [|d s].
  - destruct (is_quote c); split; cbn; auto; lia.
  - split.
    + cbn [str_mem]. intros H. apply orb_false_elim in H as [Hc Hs].
      rewrite Hc. exact (IH1 Hs).
    + cbn [String.length] in *. lia.
Qed.

Lemma env_value_shape line :
  str_mem newline (env_value line) = false /\
  str_mem nul (env_value line) = false /\
  (String.length (env_value line) <= String.length line - 15)%nat.
Proof.
  unfold env_value.
  destruct (c_str_shape (str_drop 15 line)) as [Hz Hl].
  rewrite str_drop_length in Hl.
  set (v0 := c_str (str_drop 15 line)) in *.
  assert (H1 : exists v1,
    match strchr v0 newline with Some n => str_take n v0 | None => v0 end = v1 /\
    str_mem newline v1 = false /\ str_mem nul v1 = false /\
    (String.length v1 <= String.length line - 15)%nat).
  { destruct (strchr v0 newline) as [n|] eqn:Hs; eexists; (split; [reflexivity|]).
    - destruct (strchr_first _ _ _ Hs) as [Hm _].
      destruct (str_take_shape nul n v0) as [Ht Hlen].
      split; [exact Hm|]. split; [exact (Ht Hz)|lia].
    - split; [exact (strchr_none _ _ Hs)|]. split; [exact Hz|exact Hl]. }
  destruct H1 as (v1 & -> & Hn1 & Hz1 & Hl1).
  destruct v1 as [|c v]; [auto|].
  destruct (is_quote c); [|auto].
  cbn [str_mem String.length] in *.
  apply orb_false_elim in Hn1 as [_ Hn1]. apply orb_false_elim in Hz1 as [_ Hz1].
  destruct (strip_last_quote_shape newline v) as [Ha Hb].
  destruct (strip_last_quote_shape nul v) as [Hc _].
  split; [exact (Ha Hn1)|]. split; [exact (Hc Hz1)|lia].
Qed.

(** X6. Whatever the two files hold, a key that [load_env] stores contains
    no newline and no NUL byte and has at most 496 characters (a line is
    read in pieces of at most 511 characters, 15 of them the key name). *)
Theorem load_env_key_shape home cwd k :
  load_env home cwd = Some k ->
  str_mem newline k = false /\ str_mem nul k = false /\
  (String.length k <= 496)%nat.
Proof.
  unfold load_env. intros H.
  destruct (match home with Some c => Some c | None => cwd end) as [content|];
    [|discriminate].
  destruct (find_key_in _ _ H) as (line & Hin & ->).
  destruct (env_value_shape line) as (Hn & Hz & Hl).
  split; [exact Hn|]. split; [exact Hz|].
  pose proof (fgets_lines_length content 511) as Hf.
  destruct (fgets_lines 511 content) as [|l ls]; [destruct Hin|].
  destruct Hf as [Hl0 Hls]. rewrite Forall_forall in Hls.
  destruct Hin as [->|Hin]; [lia|].
  apply list_elem_of_In in Hin. specialize (Hls _ Hin). cbn in Hls. lia.
Qed.

(** ** Start-up and exit of the command *)

Lemma check_running_effect env w p w0 :
  check_running env w = (Val p, w0) ->
  trace w0 = trace w /\ statusfile w0 = statusfile w /\
  (pidfile w0 = pidfile w \/ pidfile w0 = None).
Proof.
  unfold check_running, bind, gets. destruct (pidfile w) as [content|] eqn:Hp.
  - destruct (e_kill_probe env _).
    + intros [= _ <-]. auto.
    + cbn. intros [= _ <-]. cbn. auto.
  - intros [= _ <-]. auto.
Qed.

(** X7. Start-up failures.  When no daemon with a positive pid answers
    the probe, [main] returns 1 in two cases, without writing a pid file
    and without any event: when [load_env] has left no key (whatever
    [fork] would return: it is not called; the pid file is unlinked), and
    when [fork] fails.  In both the status file created before is left
    behind, empty. *)
Theorem start_failures_return_1 env w p w0 :
  check_running env w = (Val p, w0) -> p <= 0 ->
  (e_api_key env = None ->
   forall fork_ret, exists w',
     main fork_ret env w = (Val 1, w') /\
     pidfile w' = None /\ trace w' = trace w /\
     statusfile w' = (if e_status_open env then Some "" else statusfile w)) /\
  (forall key fork_ret,
     e_api_key env = Some key -> fork_ret < 0 ->
     exists w',
       main fork_ret env w = (Val 1, w') /\
       pidfile w' = pidfile w0 /\ trace w' = trace w /\
       statusfile w' = (if e_status_open env then Some "" else statusfile w)).
Proof.
  intros Hc Hp. destruct (check_running_effect _ _ _ _ Hc) as (Ht & Hs & _).
  assert (Hpos : (p >? 0) = false) by lia.
  split.
  - intros Hk fork_ret. unfold main, main_startup.
    unfold bind at 1 2. rewrite Hc, Hpos.
    destruct (e_status_open env); cbn; rewrite Hk; cbn; eexists;
      (split; [reflexivity|]); cbn; auto.
  - intros key fork_ret Hk Hf. unfold main, main_startup.
    unfold bind at 1 2. rewrite Hc, Hpos.
    assert (Hf1 : (fork_ret >? 0) = false) by lia.
    assert (Hf2 : (fork_ret <? 0) = true) by lia.
    destruct (e_status_open env); cbn; rewrite Hk; cbn; rewrite Hf1, Hf2;
      eexists; (split; [reflexivity|]); cbn; auto.
Qed.

Lemma emits_check_running (P : Event -> Prop) env : emits P (check_running env).
Proof.
  intros w. exists []. rewrite app_nil_r. split; [|constructor].
  unfold check_running, bind, gets. destruct (pidfile w); [|reflexivity].
  destruct (e_kill_probe env _); reflexivity.
Qed.

Lemma signal_ok_rec e : rec_event e -> signal_ok e.
Proof. destruct e; cbn; tauto. Qed.

Lemma emits_process_audio env : emits signal_ok (process_audio env).
Proof.
  unfold process_audio, transcribe_audio, copy_to_clipboard.
  repeat first
    [ apply emits_ret | apply emits_lift | apply emits_gets
    | apply emits_update_status; exact I
    | apply emits_emit; exact I
    | apply emits_bind; [|intro]
    | match goal with
      | |- emits _ (if ?b then _ else _) => destruct b
      | |- emits _ (match ?x with _ => _ end) => destruct x
      end ].
Qed.

Lemma emits_cleanup (P : Event -> Prop) : emits P cleanup.
Proof.
  unfold cleanup.
  repeat first
    [ apply emits_ret | apply emits_gets
    | apply emits_modify; intros; reflexivity
    | apply emits_bind; [|intro]
    | match goal with |- emits _ (if ?b then _ else _) => destruct b end ].
Qed.

Lemma emits_main fork_ret env : emits signal_ok (main fork_ret env).
Proof.
  unfold main. apply emits_bind.
  - unfold main_startup. apply emits_bind; [apply emits_check_running|].
    intros p. destruct (p >? 0) eqn:Hp.
    + apply emits_bind; [|intro; apply emits_ret].
      apply emits_emit. cbn. split; [lia|reflexivity].
    + repeat first
        [ apply emits_ret | apply emits_gets
        | apply emits_modify; intros; reflexivity
        | apply emits_bind; [|intro]
        | match goal with
          | |- emits _ (if ?b then _ else _) => destruct b
          | |- emits _ (match ?x with _ => _ end) => destruct x
          end ].
  - intros [code|]; [apply emits_ret|].
    destruct (fork_ret >? 0).
    + unfold main_parent.
      repeat first
        [ apply emits_ret
        | apply emits_modify; intros; reflexivity
        | apply emits_bind; [|intro]
        | match goal with |- emits _ (if ?b then _ else _) => destruct b end ].
    + destruct (fork_ret <? 0); [apply emits_ret|].
      unfold main_child. apply emits_bind.
      * apply (emits_mono rec_event); [apply signal_ok_rec|apply emits_record_phase].
      * intro. apply emits_bind; [apply emits_process_audio|intro].
        apply emits_bind; [apply emits_cleanup|intro; apply emits_ret].
Qed.

(** X8. The only signal that a run of [main] sends, in the parent or in
    the daemon, whatever the pid file holds and the environment answers,
    is [SIGUSR1] to a positive pid: a pid file that reads as 0 or as a
    negative number (process groups for [kill]) is never signalled. *)
Theorem signals_only_positive_pids fork_ret env w :
  exists t,
    trace (snd (main fork_ret env w)) = trace w ++ t /\
    Forall signal_ok t /\
    forall pid sig, In (Ev_signal pid sig) t -> 0 < pid /\ sig = SIGUSR1.
Proof.
  destruct (emits_main fork_ret env w) as (t & Ht & Hall).
  exists t. split; [exact Ht|]. split; [exact Hall|].
  intros pid sig Hin. rewrite Forall_forall in Hall.
  apply list_elem_of_In in Hin. exact (Hall _ Hin).
Qed.

(** X9. A pid file from which [fscanf] reads no number (an empty file,
    or text) leaves [pid] uninitialised: when the value it happens to hold
    is the pid of a live process, that process is sent [SIGUSR1] and
    [main] returns 0 without starting a recording. *)
Theorem unreadable_pidfile_uses_uninitialised_pid env w content fork_ret :
  pidfile w = Some content -> scan_d content = None ->
  0 < e_uninit_pid env -> e_kill_probe env (e_uninit_pid env) = true ->
  check_running env w = (Val (e_uninit_pid env), w) /\
  main fork_ret env w
  = (Val 0, set_trace (trace w ++ [Ev_signal (e_uninit_pid env) SIGUSR1]) w).
Proof.
  intros Hp Hs Hpos Hk.
  assert (Hc : check_running env w = (Val (e_uninit_pid env), w)).
  { unfold check_running, bind, gets. rewrite Hp, Hs. cbn. rewrite Hk. reflexivity. }
  split; [exact Hc|].
  unfold main, main_startup. unfold bind at 1 2. rewrite Hc.
  assert (Hgt : (e_uninit_pid env >? 0) = true) by lia. rewrite Hgt. reflexivity.
Qed.

(** ** The end of the daemon *)

Lemma preserves_run {X A} (f : World -> X) (m : M A) w o w' :
  preserves f m -> m w = (o, w') -> f w' = f w.
Proof. intros H Hm. specialize (H w). rewrite Hm in H. exact H. Qed.

Section SessionField.
Context {X : Type} (f : World -> X).
Hypothesis Htrace : forall w v, f (set_trace v w) = f w.
Hypothesis Hstatus : forall w v, f (set_statusfile v w) = f w.
Hypothesis Hsched : forall w v, f (set_sched v w) = f w.
Hypothesis Hnow : forall w v, f (set_now v w) = f w.
Hypothesis Hstop : forall w v, f (set_g_stop_recording v w) = f w.
Hypothesis Hbuf : forall w v, f (set_g_audio_buffer v w) = f w.
Hypothesis Hlevel : forall w v, f (set_g_current_level v w) = f w.
Hypothesis Hstart : forall w v, f (set_g_record_start_time v w) = f w.

Lemma field_update_status s l : preserves f (update_status s l).
Proof.
  intros w. unfold update_status, bind, emit, modify. cbn.
  destruct (g_status_file _); [rewrite Hstatus|]; apply Htrace.
Qed.

Lemma field_monitor_rounds n : preserves f (monitor_rounds n).
Proof.
  induction n; cbn [monitor_rounds]; [apply preserves_ret|].
  apply preserves_bind; [|intro; exact IHn].
  unfold monitor_round. apply preserves_bind; [apply preserves_gets|].
  intros []; [apply preserves_ret|].
  apply preserves_bind; [apply preserves_gets|intro; apply field_update_status].
Qed.

Lemma field_yield : preserves f yield.
Proof.
  unfold yield. apply preserves_bind; [apply preserves_gets|].
  intros [|n s]; [apply preserves_ret|].
  apply preserves_bind; [apply preserves_modify; intro; apply Hsched|].
  intro. apply field_monitor_rounds.
Qed.

Ltac field_tac :=
  repeat first
    [ apply field_yield
    | apply field_update_status
    | apply preserves_ret
    | apply preserves_lift
    | apply preserves_gets
    | apply preserves_modify; intros ?w; cbv beta;
        first [apply Htrace|apply Hsched|apply Hnow|apply Hstop|apply Hbuf
              |apply Hlevel|apply Hstart|apply Hstatus]
    | apply preserves_bind; [|intro]
    | match goal with
      | |- preserves _ (if ?b then _ else _) => destruct b
      | |- preserves _ (match ?x with _ => _ end) => destruct x
      end ].

Lemma field_capture_loop ticks : forall b, preserves f (capture_loop ticks b).
Proof.
  induction ticks as [|t ticks IH]; intros b; cbn [capture_loop].
  - field_tac.
  - apply preserves_bind.
    + unfold capture_iter, deliver, capture_body, signal_handler, emit. field_tac.
    + intros [b1|]; [apply IH|apply preserves_ret].
Qed.

Lemma field_record_phase env : preserves f (record_phase env).
Proof.
  unfold record_phase, session_start, recording_thread.
  apply preserves_bind; [field_tac|intro].
  apply preserves_bind; [|intro; field_tac].
  apply preserves_bind.
  - unfold recording_prologue, open_device, emit. field_tac.
  - intros []; [|apply preserves_ret].
    apply preserves_bind; [apply field_capture_loop|intro; unfold emit; field_tac].
Qed.

Lemma field_deliver t : preserves f (deliver t).
Proof. unfold deliver, signal_handler. field_tac. Qed.

Lemma field_process_audio env : preserves f (process_audio env).
Proof.
  unfold process_audio, transcribe_audio, copy_to_clipboard, emit. field_tac.
Qed.

End SessionField.

Lemma status_open_record_phase env : preserves g_status_file (record_phase env).
Proof. apply field_record_phase; reflexivity. Qed.

Lemma pidfile_record_phase env : preserves pidfile (record_phase env).
Proof. apply field_record_phase; reflexivity. Qed.

Lemma record_phase_sets_stop env w w1 :
  record_phase env w = (Val tt, w1) -> g_stop_recording w1 = true.
Proof.
  unfold record_phase. intros H.
  repeat (apply bind_inv_val in H as (? & ? & _ & H)).
  injection H as <-. reflexivity.
Qed.

Lemma process_audio_keeps env w1 o w2 :
  process_audio env w1 = (o, w2) ->
  pidfile w2 = pidfile w1 /\ g_status_file w2 = g_status_file w1 /\
  g_stop_recording w2 = g_stop_recording w1 /\ g_audio_buffer w2 = g_audio_buffer w1.
Proof.
  intros H.
  repeat split;
    apply (fun p => preserves_run _ _ _ _ _ p H); apply field_process_audio; reflexivity.
Qed.

(** X10. Whenever the daemon returns, it returns 0 and has cleaned up:
    the pid file is unlinked, the status file is unlinked if it was
    open, the audio buffer is freed and reset, the key is released, and
    the stop flag is set (so the monitor loop has ended). *)
Theorem daemon_return_cleans_up env w code w' :
  main_child env w = (Val code, w') ->
  code = 0 /\
  pidfile w' = None /\
  (g_status_file w = true -> statusfile w' = None) /\
  buf (g_audio_buffer w') = mkAudioBuffer NULL 0 0 /\
  g_api_key w' = None /\
  g_stop_recording w' = true.
Proof.
  unfold main_child. intros H.
  apply bind_inv_val in H as ([] & w1 & Hr & H).
  apply bind_inv_val in H as ([] & w2 & Hpa & H).
  destruct (process_audio_keeps _ _ _ _ Hpa) as (_ & Hsf & Hst & _).
  pose proof (preserves_run _ _ _ _ _ (status_open_record_phase env) Hr) as Hsf1.
  pose proof (record_phase_sets_stop _ _ _ Hr) as Hstop.
  unfold cleanup, bind, modify, gets, ret in H. cbn in H.
  destruct (g_status_file w2) eqn:Ho; cbn in H; injection H as <- <-; cbn;
    (split; [reflexivity|]); (split; [reflexivity|]); (split; [|split; [reflexivity|]]);
    try (split; [reflexivity|congruence]).
  - reflexivity.
  - congruence.
Qed.

(** X11. A transfer that succeeds without any body (the write callback
    is never called, [response.data] is still [NULL]) crashes the daemon
    in [strstr]: after UPLOADING and the upload nothing more happens, no
    clean-up runs, and the pid file, the audio buffer and the status file
    with its UPLOADING record stay as they are. *)
Theorem empty_response_crashes_daemon env w w1 :
  record_phase env w = (Val tt, w1) ->
  0 < size (buf (g_audio_buffer w1)) ->
  e_mkstemps env = true -> e_curl_init env = true -> e_curl_ok env = true ->
  e_response env = None ->
  exists w',
    main_child env w = (Crashed, w') /\
    trace w' = trace w1 ++ [Ev_update_status "UPLOADING" 0;
                            Ev_upload (size (buf (g_audio_buffer w1)))] /\
    pidfile w' = pidfile w /\
    g_audio_buffer w' = g_audio_buffer w1 /\
    statusfile w' =
      (if g_status_file w1
       then (fun _ => status_line "UPLOADING" 0 (now w1 - g_record_start_time w1))
              <$> statusfile w1
       else statusfile w1).
Proof.
  intros Hr Hsz Hm Hi Hk Hresp.
  pose proof (preserves_run _ _ _ _ _ (pidfile_record_phase env) Hr) as Hpid.
  unfold main_child. unfold bind at 1. rewrite Hr.
  unfold bind at 1. unfold process_audio. unfold bind at 1, gets at 1.
  assert (Hgt : (size (buf (g_audio_buffer w1)) >? 0) = true) by lia. rewrite Hgt.
  destruct (update_status_run "UPLOADING" 0 w1) as (wu & Hu & Hst & _ & Htr & Hsf).
  unfold bind at 1. rewrite Hu.
  unfold transcribe_audio. rewrite Hm, Hi, Hk, Hresp. cbn [negb].
  unfold bind, emit, modify, lift. cbn.
  eexists. split; [reflexivity|]. cbn.
  destruct Hst as (Hp & _ & _ & _ & _ & _ & Hb & _).
  rewrite Htr, <- app_assoc. split; [reflexivity|].
  split; [congruence|]. split; [exact Hb|exact Hsf].
Qed.

Lemma transcribe_audio_failed env sz w :
  e_mkstemps env = false \/ e_curl_init env = false \/ e_curl_ok env = false \/
  (exists body, e_response env = Some body /\ parse_response body = None) ->
  exists w',
    transcribe_audio env sz w = (Val (-1, None), w') /\
    trace w' = trace w ++ (if e_mkstemps env && e_curl_init env
                           then [Ev_upload sz] else []).
Proof.
  intros Hfail. unfold transcribe_audio.
  destruct (e_mkstemps env) eqn:Hm; cbn [negb andb];
    [|exists w; rewrite app_nil_r; split; reflexivity].
  destruct (e_curl_init env) eqn:Hi; cbn [negb];
    [|exists w; rewrite app_nil_r; split; reflexivity].
  destruct (emit_run (Ev_upload sz) w) as (we & He & _ & _ & _ & Hte).
  unfold bind at 1. rewrite He. exists we. split; [|exact Hte].
  destruct (e_curl_ok env) eqn:Hk; cbn [negb]; [|reflexivity].
  destruct Hfail as [Hf|[Hf|[Hf|(body & Hb & Hpr)]]]; try discriminate.
  rewrite Hb, Hpr. reflexivity.
Qed.

(** X12. An upload that fails (no temporary file, no transfer handle, a
    failed transfer, or a response without a text field that closes) ends
    in FAILED: the daemon still returns 0 and cleans up, nothing is copied
    to the clipboard, and the request is made exactly when the temporary
    file and the handle were obtained. *)
Theorem failed_upload_exits_cleanly env w w1 :
  record_phase env w = (Val tt, w1) ->
  0 < size (buf (g_audio_buffer w1)) ->
  e_mkstemps env = false \/ e_curl_init env = false \/ e_curl_ok env = false \/
  (exists body, e_response env = Some body /\ parse_response body = None) ->
  exists w' t,
    main_child env w = (Val 0, w') /\
    trace w' = trace w1 ++ Ev_update_status "UPLOADING" 0 :: t
               ++ [Ev_update_status "FAILED" 0] /\
    t = (if e_mkstemps env && e_curl_init env
         then [Ev_upload (size (buf (g_audio_buffer w1)))] else []) /\
    Forall not_clipboard (Ev_update_status "UPLOADING" 0 :: t
                          ++ [Ev_update_status "FAILED" 0]) /\
    pidfile w' = None.
Proof.
  intros Hr Hsz Hfail.
  rewrite (main_child_after_record _ _ _ Hr).
  assert (Hgt : (size (buf (g_audio_buffer w1)) >? 0) = true) by lia.
  destruct (update_status_run "UPLOADING" 0 w1) as (wu & Hu & _ & _ & Htr & _).
  destruct (transcribe_audio_failed env (size (buf (g_audio_buffer w1))) wu Hfail)
    as (wt & Htrans & Htt).
  destruct (update_status_run "FAILED" 0 wt) as (wf & Hf & _ & _ & Htf & _).
  destruct (cleanup_run wf) as (w3 & Hc & Htc & Hpc & _).
  set (t := if e_mkstemps env && e_curl_init env
            then [Ev_upload (size (buf (g_audio_buffer w1)))] else []) in *.
  exists w3, t.
  assert (Hpa : process_audio env w1 = (Val tt, wf)).
  { unfold process_audio. unfold bind at 1, gets at 1. rewrite Hgt.
    unfold bind at 1. rewrite Hu. unfold bind at 1. rewrite Htrans.
    cbv beta iota. exact Hf. }
  unfold bind at 1. rewrite Hpa. unfold bind at 1. rewrite Hc.
  split; [reflexivity|].
  split; [rewrite Htc, Htf, Htt, Htr, <- !app_assoc; reflexivity|].
  split; [reflexivity|]. split; [|exact Hpc].
  constructor; [exact I|]. apply Forall_app. split; [|repeat constructor].
  subst t. destruct (e_mkstemps env && e_curl_init env); repeat constructor.
Qed.

(** ** The capture loop *)

Lemma pcm_bytes_length samples :
  Z.of_nat (length (pcm_bytes samples)) = 2 * Z.of_nat (length samples).
Proof.
  unfold pcm_bytes. induction samples as [|s l IH]; [reflexivity|].
  cbn [flat_map]. rewrite length_app. cbn [length short_bytes]. lia.
Qed.

Lemma captured_length ticks :
  Z.of_nat (length (captured ticks))
  = 2 * Z.of_nat (length (concat (map tick_samples ticks))).
Proof.
  unfold captured. induction ticks as [|t l IH]; [reflexivity|].
  cbn [map concat]. rewrite !length_app, !Nat2Z.inj_add, IH, pcm_bytes_length. lia.
Qed.

(** One read in an iteration that goes on. *)
Lemma capture_body_good c0 t b w bytes start :
  good_tick start t -> buf_holds c0 (g_audio_buffer w) bytes -> 0 < c0 ->
  Z.of_nat (length (bytes ++ pcm_bytes (tick_samples t))) <= 2 ^ 63 ->
  exists b1 w',
    capture_body t b w = (Val b1, w') /\
    buf_holds c0 (g_audio_buffer w') (bytes ++ pcm_bytes (tick_samples t)) /\
    g_current_level w' = last_level (g_current_level w) [t] /\
    g_stop_recording w' = g_stop_recording w /\
    g_record_start_time w' = g_record_start_time w /\
    trace w' = trace w ++ [Ev_pcm_readi].
Proof.
  intros (Hsig & Htime & Hread) Hholds Hc0 Hlen.
  unfold capture_body, tick_samples, last_level in *. cbn [fold_left].
  unfold tick_samples.
  destruct (emit_run Ev_pcm_readi w) as (we & He & Hst & _ & _ & Hte).
  destruct Hst as (_ & _ & _ & Hstop & Hstart & Hlevel & Hbuf & _).
  unfold bind at 1. rewrite He.
  destruct (t_read t) as [samples|code recovered].
  - assert (Hf0 : (Z.of_nat (length samples) <? 0) = false) by (apply Z.ltb_ge; lia). rewrite Hf0.
    destruct samples as [|s samples].
    + cbn. rewrite app_nil_r in *. eexists _, we. split; [reflexivity|].
      rewrite Hbuf, Hlevel, Hstop, Hstart. auto.
    + destruct Hread as [Hread|Hq]; [discriminate|].
      set (fr := s :: samples) in *.
      assert (Hgt : (Z.of_nat (length fr) >? 0) = true)
        by (apply Z.gtb_lt; subst fr; cbn [length]; lia).
      rewrite Hgt. rewrite Nat2Z.id, take_app_length.
      rewrite <- Hbuf in Hholds.
      destruct (append_step c0 (t_realloc t) (pcm_bytes fr) (g_audio_buffer we) bytes
                  Hq Hholds Hc0) as (m' & Happ & Hholds' & _).
      { destruct Hholds as (_ & -> & _). rewrite length_app, Nat2Z.inj_add in Hlen. exact Hlen. }
      unfold bind, gets, lift, modify, ret. rewrite Happ. cbn.
      eexists _, _. split; [reflexivity|]. cbn.
      rewrite Hstop, Hstart, Hte. auto.
  - destruct Hread as [Hcode Hrec].
    assert (Hf0 : (code <? 0) = true) by (apply Z.ltb_lt; lia). rewrite Hf0.
    assert (Hgt : (recovered >? 0) = false) by (rewrite Z.gtb_ltb; apply Z.ltb_ge; lia). rewrite Hgt.
    cbn. rewrite app_nil_r in *. eexists _, we. split; [reflexivity|].
    rewrite Hbuf, Hlevel, Hstop, Hstart. auto.
Qed.

Lemma capture_iter_good c0 t b w bytes :
  good_tick (g_record_start_time w) t -> g_stop_recording w = false ->
  buf_holds c0 (g_audio_buffer w) bytes -> 0 < c0 ->
  Z.of_nat (length (bytes ++ pcm_bytes (tick_samples t))) <= 2 ^ 63 ->
  exists b1 w' mon,
    capture_iter t b w = (Val (Some b1), w') /\
    buf_holds c0 (g_audio_buffer w') (bytes ++ pcm_bytes (tick_samples t)) /\
    g_current_level w' = last_level (g_current_level w) [t] /\
    g_stop_recording w' = false /\
    g_record_start_time w' = g_record_start_time w /\
    trace w' = trace w ++ mon ++ [Ev_pcm_readi] /\
    Forall is_monitor_event mon.
Proof.
  intros Hgood Hstop Hholds Hc0 Hlen.
  destruct (deliver_run t w) as (wd & mon & Hd & Htd & Hmon & Hnow & Hstart & Hs & Hbuf).
  pose proof (field_deliver g_current_level
                ltac:(reflexivity) ltac:(reflexivity) ltac:(reflexivity) ltac:(reflexivity)
                ltac:(reflexivity) t w) as Hlevel.
  rewrite Hd in Hlevel. cbn [snd] in Hlevel.
  pose proof Hgood as (Hsig & Htime & _).
  rewrite Hstop, Hsig in Hs. cbn in Hs.
  rewrite <- Hbuf in Hholds. rewrite <- Hstart in Hgood.
  destruct (capture_body_good c0 t b wd bytes _ Hgood Hholds Hc0 Hlen)
    as (b1 & w' & Hb & Hh' & Hl' & Hs' & Hst' & Ht').
  exists b1, w', mon.
  unfold capture_iter. unfold bind at 1. rewrite Hd.
  unfold bind at 1, gets at 1. rewrite Hs.
  unfold bind at 1, gets at 1.
  assert (Hel : (now wd - g_record_start_time wd >? MAX_RECORDING_TIME) = false)
    by (rewrite Hnow, Hstart; lia).
  rewrite Hel. unfold bind at 1. rewrite Hb.
  split; [reflexivity|]. split; [exact Hh'|]. split; [congruence|].
  split; [congruence|]. split; [congruence|].
  split; [rewrite Ht', Htd, <- app_assoc; reflexivity|exact Hmon].
Qed.

Lemma last_level_cons l t ticks :
  last_level l (t :: ticks) = last_level (last_level l [t]) ticks.
Proof. reflexivity. Qed.

Lemma captured_cons t ticks :
  captured (t :: ticks) = pcm_bytes (tick_samples t) ++ captured ticks.
Proof. reflexivity. Qed.

Lemma capture_prefix_good c0 ticks : forall b w bytes,
  Forall (good_tick (g_record_start_time w)) ticks ->
  g_stop_recording w = false ->
  buf_holds c0 (g_audio_buffer w) bytes -> 0 < c0 ->
  Z.of_nat (length (bytes ++ captured ticks)) <= 2 ^ 63 ->
  exists b' w',
    capture_prefix ticks b w = (Val (Some b'), w') /\
    buf_holds c0 (g_audio_buffer w') (bytes ++ captured ticks) /\
    size (buf (g_audio_buffer w'))
    = size (buf (g_audio_buffer w))
      + 2 * Z.of_nat (length (concat (map tick_samples ticks))) /\
    g_current_level w' = last_level (g_current_level w) ticks /\
    g_stop_recording w' = false /\
    g_record_start_time w' = g_record_start_time w.
Proof.
  induction ticks as [|t ticks IH]; intros b w bytes Hall Hstop Hholds Hc0 Hlen.
  - exists b, w. cbn. rewrite app_nil_r. split; [reflexivity|].
    split; [exact Hholds|]. split; [lia|]. auto.
  - apply Forall_cons in Hall as [Ht Hall].
    rewrite captured_cons, app_assoc in Hlen.
    destruct (capture_iter_good c0 t b w bytes Ht Hstop Hholds Hc0)
      as (b1 & w1 & mon & Hi & Hh1 & Hl1 & Hs1 & Hst1 & _).
    { rewrite length_app in Hlen. lia. }
    rewrite <- Hst1 in Hall.
    destruct (IH b1 w1 _ Hall Hs1 Hh1 Hc0 Hlen)
      as (b' & w' & Hp & Hh' & Hsz & Hl' & Hs' & Hst').
    exists b', w'. cbn [capture_prefix]. unfold bind at 1. rewrite Hi.
    split; [exact Hp|]. rewrite captured_cons, app_assoc.
    split; [exact Hh'|]. split.
    + rewrite Hsz. destruct Hh1 as (_ & -> & _). destruct Hholds as (_ & -> & _).
      cbn [map concat]. rewrite !length_app, !Nat2Z.inj_add, pcm_bytes_length. lia.
    + rewrite last_level_cons, <- Hl1. split; [exact Hl'|].
      split; [exact Hs'|congruence].
Qed.

Lemma capture_stop t rest b w :
  g_stop_recording w = true \/ t_signal t = true ->
  exists w' mon,
    capture_iter t b w = (Val None, w') /\
    capture_loop (t :: rest) b w = (Val tt, w') /\
    trace w' = trace w ++ mon /\ Forall is_monitor_event mon /\
    (g_stop_recording w = true -> mon = []) /\
    g_audio_buffer w' = g_audio_buffer w /\
    g_stop_recording w' = true.
Proof.
  intros Hstop.
  destruct (deliver_run t w) as (wd & mon & Hd & Htd & Hmon & _ & _ & Hs & Hbuf).
  assert (Hs' : g_stop_recording wd = true).
  { rewrite Hs. destruct Hstop as [-> | ->]; [reflexivity|apply orb_true_r]. }
  assert (Hi : capture_iter t b w = (Val None, wd)).
  { unfold capture_iter. unfold bind at 1. rewrite Hd.
    unfold bind at 1, gets at 1. rewrite Hs'. reflexivity. }
  exists wd, mon. split; [exact Hi|].
  split; [cbn [capture_loop]; unfold bind at 1; rewrite Hi; reflexivity|].
  split; [exact Htd|]. split; [exact Hmon|]. split; [|auto].
  intros Hw. unfold deliver in Hd.
  destruct (yield_monitor (set_now (t_now t) w)) as (wy & mon' & Hy & _ & Hty & _ & Hnil).
  specialize (Hnil Hw). subst mon'.
  unfold bind at 1, modify at 1 in Hd. unfold bind at 1 in Hd. rewrite Hy in Hd.
  assert (Hwd : trace wd = trace wy).
  { destruct (t_signal t); injection Hd as <-; reflexivity. }
  rewrite Hwd, Hty in Htd. cbn in Htd. rewrite app_nil_r in Htd.
  symmetry in Htd. apply (app_inv_head (trace w)). rewrite app_nil_r. 
  symmetry. rewrite <- Htd at 1. reflexivity.
Qed.

(** X13. Iterations in which the loop goes on (no stop signal, ceiling
    not passed; a frame, an empty read or a failed read) never end it,
    and the audio buffer afterwards holds, after what it held before,
    exactly the bytes of the frames read, in order: two bytes a sample.
    Failed and empty reads add nothing and leave the level as it was;
    the level is that of the last frame with samples. *)
Theorem capture_accumulates_frames c0 ticks b w bytes :
  Forall (good_tick (g_record_start_time w)) ticks ->
  g_stop_recording w = false ->
  buf_holds c0 (g_audio_buffer w) bytes -> 0 < c0 ->
  Z.of_nat (length (bytes ++ captured ticks)) <= 2 ^ 63 ->
  exists b' w',
    capture_prefix ticks b w = (Val (Some b'), w') /\
    buf_holds c0 (g_audio_buffer w') (bytes ++ captured ticks) /\
    size (buf (g_audio_buffer w'))
    = size (buf (g_audio_buffer w))
      + 2 * Z.of_nat (length (concat (map tick_samples ticks))) /\
    g_current_level w' = last_level (g_current_level w) ticks /\
    g_stop_recording w' = false /\
    g_record_start_time w' = g_record_start_time w.
Proof. apply capture_prefix_good. Qed.

(** X14. The stop flag is tested before the ceiling and before the read:
    in an iteration with the flag set, or in which the stop signal
    arrives, the loop ends without reading a frame and without a
    MAX_TIME status, however late it is; the iterations that the
    environment could still offer are not taken. *)
Theorem stop_ends_capture_without_read t rest b w :
  g_stop_recording w = true \/ t_signal t = true ->
  exists w' mon,
    capture_iter t b w = (Val None, w') /\
    capture_loop (t :: rest) b w = (Val tt, w') /\
    trace w' = trace w ++ mon /\ Forall is_monitor_event mon /\
    (g_stop_recording w = true -> mon = []) /\
    g_audio_buffer w' = g_audio_buffer w /\
    g_stop_recording w' = true.
Proof. apply capture_stop. Qed.

Lemma steady_buffer w w' : steady w w' -> g_audio_buffer w' = g_audio_buffer w.
Proof. intros (_ & _ & _ & _ & _ & _ & H & _). exact H. Qed.

Lemma recording_prologue_run env w :
  e_open_plughw env || e_open_default env = true -> e_hw_params env = true ->
  exists w',
    recording_prologue env w = (Val true, w') /\
    g_audio_buffer w'
    = init_audio_buffer (e_malloc env) (SAMPLE_RATE * 2 * 10) (g_audio_buffer w) /\
    g_stop_recording w' = g_stop_recording w /\
    g_record_start_time w' = g_record_start_time w /\
    g_current_level w' = g_current_level w.
Proof.
  intros Hopen Hhw. unfold recording_prologue.
  destruct (yield_monitor w) as (w1 & ? & Hy1 & S1 & _).
  destruct (open_device_run env w1) as (w2 & Ho & S2 & _).
  unfold bind at 1. rewrite Hy1. unfold bind at 1. rewrite Ho, Hopen, Hhw. cbn [negb].
  unfold bind at 1, gets at 1. unfold bind at 1, modify at 1.
  set (w3 := set_g_audio_buffer _ w2).
  destruct (yield_monitor w3) as (w4 & ? & Hy4 & S4 & _).
  destruct (update_status_run "READY" 0 w4) as (w5 & Hu5 & S5 & _).
  destruct (yield_monitor w5) as (w6 & ? & Hy6 & S6 & _).
  destruct (update_status_run "RECORDING" 0 w6) as (w7 & Hu7 & S7 & _).
  unfold bind at 1. rewrite Hy4. unfold bind at 1. rewrite Hu5.
  unfold bind at 1. rewrite Hy6. unfold bind at 1. rewrite Hu7.
  exists w7. split; [reflexivity|].
  pose proof (steady_trans _ _ _ S1 S2) as S12.
  pose proof (steady_trans _ _ _ (steady_trans _ _ _ (steady_trans _ _ _ S4 S5) S6) S7) as S37.
  destruct S12 as (_ & _ & _ & Hs12 & Hst12 & Hl12 & Hb12 & _).
  destruct S37 as (_ & _ & _ & Hs37 & Hst37 & Hl37 & Hb37 & _).
  subst w3. cbn in *. rewrite Hb37, Hs37, Hst37, Hl37, Hb12, Hs12, Hst12, Hl12. auto.
Qed.

Lemma bind_trace_grows {A B} (m : M A) (f : A -> M B) w :
  (forall a, emits (fun _ => True) (f a)) ->
  exists t, trace (snd (bind m f w)) = trace (snd (m w)) ++ t.
Proof.
  intros Hf. unfold bind. destruct (m w) as [[a| | |] w1]; cbn [snd];
    try (exists []; rewrite app_nil_r; reflexivity).
  destruct (Hf a w1) as (t & Ht & _). exists t. exact Ht.
Qed.

Ltac emits_any :=
  repeat first
    [ apply emits_ret | apply emits_lift | apply emits_gets
    | apply emits_update_status; exact I
    | apply emits_emit; exact I
    | apply emits_modify; intros; reflexivity
    | apply emits_bind; [|intro]
    | match goal with
      | |- emits _ (if ?b then _ else _) => destruct b
      | |- emits _ (match ?x with _ => _ end) => destruct x
      end ].

(** What a capture of [ticks] that a stop signal ends leaves behind. *)
Lemma record_phase_frames env w ticks t_stop rest :
  e_open_plughw env || e_open_default env = true -> e_hw_params env = true ->
  e_malloc env <> NULL ->
  e_ticks env = ticks ++ t_stop :: rest ->
  Forall (good_tick (now w)) ticks -> t_signal t_stop = true ->
  g_stop_recording w = false ->
  Z.of_nat (length (captured ticks)) <= 2 ^ 63 ->
  exists w1,
    record_phase env w = (Val tt, w1) /\
    buf_holds (SAMPLE_RATE * 2 * 10) (g_audio_buffer w1) (captured ticks) /\
    g_current_level w1 = last_level (g_current_level w) ticks.
Proof.
  intros Hopen Hhw Hmal Hticks Hgood Hsig Hstop Hlen.
  destruct (session_start_run w) as (w0 & Hss & _ & Hst0 & Hs0 & Hb0 & Hl0 & _).
  destruct (recording_prologue_run env w0 Hopen Hhw) as (wr & Hpro & Hbr & Hsr & Hstr & Hlr).
  assert (Hholds : buf_holds (SAMPLE_RATE * 2 * 10) (g_audio_buffer wr) []).
  { rewrite Hbr. apply init_audio_buffer_holds; [exact Hmal|]. vm_compute. split; reflexivity. }
  assert (Hgood' : Forall (good_tick (g_record_start_time wr)) ticks) by (rewrite Hstr, Hst0; exact Hgood).
  destruct (capture_prefix_good (SAMPLE_RATE * 2 * 10) ticks (e_pcm env) wr []
              Hgood' ltac:(congruence) Hholds ltac:(reflexivity) Hlen)
    as (b1 & wc & Hpre & Hhc & _ & Hlc & Hsc & _).
  destruct (capture_stop t_stop rest b1 wc (or_intror Hsig))
    as (wl & mon & _ & Hloop & _ & _ & _ & Hbl & _).
  pose proof (field_capture_loop g_current_level
                ltac:(reflexivity) ltac:(reflexivity) ltac:(reflexivity) ltac:(reflexivity)
                ltac:(reflexivity)) as Hlev.
  assert (Hll : g_current_level wl = g_current_level wc).
  { destruct (deliver_run t_stop wc) as (wd & ? & Hd & _ & _ & _ & _ & Hsd & _).
    rewrite Hsig, orb_true_r in Hsd.
    pose proof (field_deliver g_current_level
                  ltac:(reflexivity) ltac:(reflexivity) ltac:(reflexivity) ltac:(reflexivity)
                  ltac:(reflexivity) t_stop wc) as Hfd.
    rewrite Hd in Hfd. cbn [snd] in Hfd.
    cbn [capture_loop] in Hloop. unfold capture_iter in Hloop.
    unfold bind at 1 2 in Hloop. rewrite Hd in Hloop.
    unfold bind at 1, gets at 1 in Hloop. rewrite Hsd in Hloop.
    injection Hloop as <-. exact Hfd. }
  destruct (emit_run Ev_pcm_close wl) as (w2 & He & S2 & _).
  destruct (yield_monitor w2) as (w3 & ? & Hy3 & S3 & _).
  destruct (update_status_run "PROCESSING" 0 w3) as (w4 & Hu4 & S4 & _).
  destruct (yield_monitor w4) as (w5 & ? & Hy5 & S5 & _).
  exists (set_g_stop_recording true w5).
  pose proof (steady_trans _ _ _ (steady_trans _ _ _ (steady_trans _ _ _ S2 S3) S4) S5) as S25.
  destruct S25 as (_ & _ & _ & _ & _ & Hl25 & Hb25 & _).
  split.
  - unfold record_phase. unfold bind at 1. rewrite Hss.
    unfold bind at 1. unfold recording_thread. unfold bind at 1. rewrite Hpro.
    unfold bind at 1. rewrite Hticks, (capture_loop_app _ _ _ _ _ _ Hpre), Hloop, He.
    unfold bind at 1. rewrite Hy3. unfold bind at 1. rewrite Hu4.
    unfold bind at 1. rewrite Hy5. reflexivity.
  - cbn. rewrite Hb25, Hl25, Hbl, Hll, Hlc, Hlr, Hl0. auto.
Qed.

(** X15. A session end to end: when the device opens, the buffer is
    allocated and the capture sees [ticks] in which the loop goes on and
    then a stop signal, the recording phase ends with the buffer of
    initial capacity 320000 holding exactly the bytes of the frames read;
    if there is any sample and the temporary file and the transfer handle
    are obtained, the request carries twice as many bytes as samples were
    captured. *)
Theorem session_uploads_captured_frames env w ticks t_stop rest :
  e_open_plughw env || e_open_default env = true -> e_hw_params env = true ->
  e_malloc env <> NULL ->
  e_ticks env = ticks ++ t_stop :: rest ->
  Forall (good_tick (now w)) ticks -> t_signal t_stop = true ->
  g_stop_recording w = false ->
  Z.of_nat (length (captured ticks)) <= 2 ^ 63 ->
  exists w1,
    record_phase env w = (Val tt, w1) /\
    buf_holds (SAMPLE_RATE * 2 * 10) (g_audio_buffer w1) (captured ticks) /\
    size (buf (g_audio_buffer w1))
    = 2 * Z.of_nat (length (concat (map tick_samples ticks))) /\
    g_current_level w1 = last_level (g_current_level w) ticks /\
    (concat (map tick_samples ticks) <> [] ->
     e_mkstemps env = true -> e_curl_init env = true ->
     In (Ev_upload (2 * Z.of_nat (length (concat (map tick_samples ticks)))))
        (trace (snd (main_child env w)))).
Proof.
  intros Hopen Hhw Hmal Hticks Hgood Hsig Hstop Hlen.
  destruct (record_phase_frames env w ticks t_stop rest Hopen Hhw Hmal Hticks Hgood Hsig
              Hstop Hlen) as (w1 & Hr & Hholds & Hlevel).
  exists w1. split; [exact Hr|]. split; [exact Hholds|].
  assert (Hsz : size (buf (g_audio_buffer w1))
                = 2 * Z.of_nat (length (concat (map tick_samples ticks)))).
  { destruct Hholds as (_ & -> & _). apply captured_length. }
  split; [exact Hsz|]. split; [exact Hlevel|].
  intros Hne Hm Hi.
  set (n := 2 * Z.of_nat (length (concat (map tick_samples ticks)))) in *.
  assert (Hgt : (size (buf (g_audio_buffer w1)) >? 0) = true).
  { apply Z.gtb_lt. rewrite Hsz. subst n.
    destruct (concat (map tick_samples ticks)); [congruence|cbn [length]; lia]. }
  destruct (update_status_run "UPLOADING" 0 w1) as (wu & Hu & _).
  destruct (emit_run (Ev_upload n) wu) as (we & He & _ & _ & _ & Hte).
  rewrite (main_child_after_record _ _ _ Hr).
  assert (Hgrow : exists t,
    trace (snd ((process_audio env;; cleanup;; ret 0) w1)) = trace we ++ t).
  { destruct (bind_trace_grows (process_audio env) (fun _ => cleanup;; ret 0) w1)
      as (t2 & Ht2).
    { intro. unfold cleanup. emits_any. }
    rewrite Ht2.
    unfold process_audio. unfold bind at 1, gets at 1. rewrite Hgt.
    unfold bind at 1. rewrite Hu.
    match goal with
    | |- context [bind (transcribe_audio env ?sz) ?k wu] =>
        destruct (bind_trace_grows (transcribe_audio env sz) k wu) as (t1 & Ht1)
    end.
    { intros [[|?|?] [?|]]; unfold copy_to_clipboard; emits_any. }
    rewrite Ht1. unfold transcribe_audio. rewrite Hm, Hi. cbn [negb].
    rewrite Hsz.
    match goal with
    | |- context [bind (emit ?e) ?k wu] =>
        destruct (bind_trace_grows (emit e) k wu) as (t0 & Ht0)
    end.
    { intro. emits_any. }
    rewrite Ht0, He. cbn [snd]. exists ((t0 ++ t1) ++ t2).
    rewrite !app_assoc. reflexivity. }
  destruct Hgrow as (t & ->). rewrite Hte.
  apply in_or_app. left. apply in_or_app. right. left. reflexivity.
Qed.

(** ** A failed allocation of the audio buffer *)

Lemma append_at_null q d c h :
  h !! NULL = None -> 0 < c < SIZE_MOD -> Z.of_nat (length d) <= c ->
  append_audio_buffer q d (mkMem (mkAudioBuffer NULL 0 c) h) = Crashed.
Proof.
  intros Hnull Hc Hlen. unfold append_audio_buffer. cbn [buf heap size capacity data].
  rewrite (wrap_size_small (Z.of_nat (length d))) by lia.
  rewrite Z.add_0_l, (wrap_size_small (Z.of_nat (length d))) by lia.
  destruct (Z.ltb_spec c (Z.of_nat (length d))); [lia|].
  cbn [obind buf heap size data]. unfold memcpy_at. rewrite Hnull. reflexivity.
Qed.

(** X16. The result of [malloc] in [init_audio_buffer] is not tested:
    when it is [NULL], the first frame with samples (it fits the
    announced capacity, so [realloc] is not called) is copied to address
    0 and the daemon crashes in the capture thread right after the read:
    no clean-up runs and the pid file stays. *)
Theorem failed_malloc_crashes_daemon env w t rest samples :
  e_open_plughw env || e_open_default env = true -> e_hw_params env = true ->
  e_malloc env = NULL -> heap (g_audio_buffer w) !! NULL = None ->
  e_ticks env = t :: rest ->
  g_stop_recording w = false -> t_signal t = false ->
  t_now t - now w <= MAX_RECORDING_TIME ->
  t_read t = Read_frames samples -> samples <> [] ->
  2 * Z.of_nat (length samples) <= SAMPLE_RATE * 2 * 10 ->
  exists w',
    record_phase env w = (Crashed, w') /\
    main_child env w = (Crashed, w') /\
    pidfile w' = pidfile w /\
    last (trace w') = Some Ev_pcm_readi.
Proof.
  intros Hopen Hhw Hmal Hnull Hticks Hstop Hsig Htime Hread Hne Hfit.
  destruct (session_start_run w) as (w0 & Hss & _ & Hst0 & Hs0 & Hb0 & _).
  destruct (recording_prologue_run env w0 Hopen Hhw) as (wr & Hpro & Hbr & Hsr & Hstr & _).
  destruct (deliver_run t wr) as (wd & mon & Hd & _ & _ & Hnow & Hstart & Hsd & Hbd).
  destruct (emit_run Ev_pcm_readi wd) as (we & He & Hste & _ & Hsfe & Hte).
  assert (Hcrash : capture_iter t (e_pcm env) wr = (Crashed, we)).
  { unfold capture_iter. unfold bind at 1. rewrite Hd.
    unfold bind at 1, gets at 1. rewrite Hsd, Hsr, Hs0, Hstop, Hsig. cbn [orb].
    unfold bind at 1, gets at 1.
    assert (Hel : (now wd - g_record_start_time wd >? MAX_RECORDING_TIME) = false).
    { rewrite Z.gtb_ltb. apply Z.ltb_ge. rewrite Hnow, Hstart, Hstr, Hst0. exact Htime. }
    rewrite Hel. unfold bind at 1. unfold capture_body. unfold bind at 1. rewrite He.
    rewrite Hread.
    assert (Hf0 : (Z.of_nat (length samples) <? 0) = false) by (apply Z.ltb_ge; lia).
    assert (Hgt : (Z.of_nat (length samples) >? 0) = true).
    { apply Z.gtb_lt. destruct samples; [congruence|cbn [length]; lia]. }
    rewrite Hf0, Hgt, Nat2Z.id, take_app_length.
    unfold bind at 1. unfold bind at 1, gets at 1. unfold bind at 1, lift at 1.
    destruct Hste as (_ & _ & _ & _ & _ & _ & Hbe & _).
    rewrite Hbe, Hbd, Hbr, Hb0, Hmal. unfold init_audio_buffer, malloc. cbn [Z.eqb NULL].
    rewrite append_at_null; [reflexivity|exact Hnull|vm_compute; split; reflexivity|].
    rewrite pcm_bytes_length. exact Hfit. }
  assert (Hrec : record_phase env w = (Crashed, we)).
  { unfold record_phase. unfold bind at 1. rewrite Hss.
    unfold bind at 1. unfold recording_thread. unfold bind at 1. rewrite Hpro.
    unfold bind at 1. rewrite Hticks. cbn [capture_loop]. unfold bind at 1.
    rewrite Hcrash. reflexivity. }
  exists we. split; [exact Hrec|].
  split; [unfold main_child; unfold bind at 1; rewrite Hrec; reflexivity|].
  split.
  { pose proof (pidfile_record_phase env w) as Hp. rewrite Hrec in Hp. exact Hp. }
  rewrite Hte. apply last_snoc.
Qed.

(** ** Reading the status back *)

Lemma status_field_line status level elapsed :
  str_mem "|" status = false ->
  status_field (status_line status level elapsed) = status.
Proof.
  intros Hm. unfold status_field, status_line.
  rewrite append_String, append_empty.
  rewrite (strchr_app status "|" _ Hm). cbn [default]. apply str_take_app.
Qed.

(** X17. Round trip of the status: for a status without a bar, after
    [update_status] the first field of the file, as the visualizer splits
    it, is that status, whatever the file held before; after two calls it
    is the status of the second.  With the status file not open, the call
    leaves the file alone. *)
Theorem status_field_roundtrip s0 l0 status level w disk :
  str_mem "|" status = false ->
  statusfile w = Some disk ->
  (g_status_file w = true ->
   (exists line,
      statusfile (snd (update_status status level w)) = Some line /\
      status_field line = status) /\
   (exists line,
      statusfile (snd ((update_status s0 l0;; update_status status level) w)) = Some line /\
      status_field line = status)) /\
  (g_status_file w = false ->
   statusfile (snd (update_status status level w)) = Some disk).
Proof.
  intros Hm Hdisk. split.
  - intros Hopen. split.
    + eexists. split; [apply (status_record_written _ _ _ _ Hopen Hdisk)|].
      apply status_field_line, Hm.
    + destruct (update_status_run s0 l0 w) as (w1 & Hu & Hst & _ & _ & Hsf).
      rewrite Hopen, Hdisk in Hsf. cbn in Hsf.
      unfold bind at 1. rewrite Hu.
      destruct Hst as (_ & Ho1 & _).
      eexists. split; [apply (status_record_written _ _ _ _ (eq_trans Ho1 Hopen) Hsf)|].
      apply status_field_line, Hm.
  - intros Hclosed. destruct (update_status_run status level w) as (w1 & Hu & _ & _ & _ & Hsf).
    rewrite Hu. cbn [snd]. rewrite Hsf, Hclosed. exact Hdisk.
Qed.

(** ** The request *)

Lemma le_value_bytes n : forall v,
  0 <= v < 256 ^ Z.of_nat n -> le_value (le_bytes n v) = v.
Proof.
  induction n as [|n IH]; intros v Hv.
  - cbn in *. lia.
  - cbn [le_bytes le_value]. rewrite IH.
    + pose proof (Z.div_mod v 256). lia.
    + rewrite Nat2Z.inj_succ, Z.pow_succ_r in Hv by lia.
      split; [apply Z.div_pos; lia|apply Z.div_lt_upper_bound; lia].
Qed.

Lemma le_bytes_range n : forall v, Forall (fun b => 0 <= b < 256) (le_bytes n v).
Proof.
  induction n as [|n IH]; intros v; cbn [le_bytes]; constructor; [|apply IH].
  apply Z.mod_pos_bound. lia.
Qed.

Lemma le_bytes_length n : forall v, length (le_bytes n v) = n.
Proof. induction n as [|n IH]; intros v; cbn [le_bytes length]; [|rewrite IH]; reflexivity. Qed.

Lemma wav_file_bytes audio :
  exists s0 s1 s2 s3 d0 d1 d2 d3,
    le_bytes 4 (uint32 (wrap_size (36 + Z.of_nat (length audio)))) = [s0; s1; s2; s3] /\
    le_bytes 4 (uint32 (Z.of_nat (length audio))) = [d0; d1; d2; d3] /\
    wav_file audio
    = [82; 73; 70; 70; s0; s1; s2; s3; 87; 65; 86; 69; 102; 109; 116; 32;
       16; 0; 0; 0; 1; 0; 1; 0; 128; 62; 0; 0; 0; 125; 0; 0; 2; 0; 16; 0;
       100; 97; 116; 97; d0; d1; d2; d3] ++ audio.
Proof.
  do 8 eexists. split; [reflexivity|]. split; [reflexivity|]. reflexivity.
Qed.

(** X18. The temporary file is the 44 bytes of the header followed by the
    audio.  Its two size fields hold [36 + n] and [n] modulo 2^32, for [n]
    bytes of audio: as long as [n <= 2^32 - 37] the RIFF size field is the
    length of the file minus 8 and the data size field the length of the
    audio.  The format fields say PCM, one channel, 16000 samples a second
    of 16 bits, with a byte rate and a block alignment that agree with
    them. *)
Theorem wav_file_well_formed audio :
  Z.of_nat (length (wav_file audio)) = 44 + Z.of_nat (length audio) /\
  drop 44 (wav_file audio) = audio /\
  take 4 (wav_file audio) = chars "RIFF" /\
  take 8 (drop 8 (wav_file audio)) = chars "WAVEfmt " /\
  take 4 (drop 36 (wav_file audio)) = chars "data" /\
  field_at 4 4 (wav_file audio) = uint32 (36 + Z.of_nat (length audio)) /\
  field_at 40 4 (wav_file audio) = uint32 (Z.of_nat (length audio)) /\
  (Z.of_nat (length audio) <= 2 ^ 32 - 37 ->
   field_at 4 4 (wav_file audio) = Z.of_nat (length (wav_file audio)) - 8 /\
   field_at 40 4 (wav_file audio) = Z.of_nat (length audio)) /\
  field_at 16 4 (wav_file audio) = 16 /\
  field_at 20 2 (wav_file audio) = 1 /\
  field_at 22 2 (wav_file audio) = CHANNELS /\
  field_at 24 4 (wav_file audio) = SAMPLE_RATE /\
  field_at 34 2 (wav_file audio) = 16 /\
  field_at 28 4 (wav_file audio)
  = field_at 24 4 (wav_file audio) * field_at 32 2 (wav_file audio) /\
  field_at 32 2 (wav_file audio) * 8
  = field_at 22 2 (wav_file audio) * field_at 34 2 (wav_file audio) /\
  Forall (fun b => 0 <= b < 256) (take 44 (wav_file audio)).
Proof.
  destruct (wav_file_bytes audio)
    as (s0 & s1 & s2 & s3 & d0 & d1 & d2 & d3 & Hs & Hd & ->).
  set (n := Z.of_nat (length audio)) in *.
  assert (Hsv : le_value [s0; s1; s2; s3] = uint32 (36 + n)).
  { rewrite <- Hs. rewrite le_value_bytes.
    - unfold uint32, wrap_size, SIZE_MOD.
      change (2 ^ 64) with (2 ^ 32 * 2 ^ 32).
      rewrite Z.rem_mul_r by lia. rewrite Z.mul_comm, Z.mod_add by lia.
      apply Z.mod_mod. lia.
    - change (256 ^ Z.of_nat 4) with (2 ^ 32). apply Z.mod_pos_bound. lia. }
  assert (Hdv : le_value [d0; d1; d2; d3] = uint32 n).
  { rewrite <- Hd. apply le_value_bytes.
    change (256 ^ Z.of_nat 4) with (2 ^ 32). apply Z.mod_pos_bound. lia. }
  assert (Hsr : Forall (fun b => 0 <= b < 256) [s0; s1; s2; s3])
    by (rewrite <- Hs; apply le_bytes_range).
  assert (Hdr : Forall (fun b => 0 <= b < 256) [d0; d1; d2; d3])
    by (rewrite <- Hd; apply le_bytes_range).
  unfold field_at. cbn [app drop take]. rewrite ?take_0.
  assert (Hlen : Z.of_nat (length
      ([82; 73; 70; 70; s0; s1; s2; s3; 87; 65; 86; 69; 102; 109; 116; 32;
        16; 0; 0; 0; 1; 0; 1; 0; 128; 62; 0; 0; 0; 125; 0; 0; 2; 0; 16; 0;
        100; 97; 116; 97; d0; d1; d2; d3] ++ audio)) = 44 + n).
  { rewrite length_app, Nat2Z.inj_add. reflexivity. }
  cbn [app] in Hlen.
  split; [exact Hlen|].
  split; [reflexivity|]. split; [reflexivity|]. split; [reflexivity|].
  split; [reflexivity|]. split; [exact Hsv|]. split; [exact Hdv|].
  split.
  { intros Hsmall. rewrite Hsv, Hdv, Hlen. unfold uint32.
    rewrite !Z.mod_small by lia. lia. }
  repeat (split; [reflexivity|]).
  repeat match goal with H : Forall _ (_ :: _) |- _ => apply Forall_cons in H as [? H] end.
  repeat (constructor; [first [assumption | lia]|]). constructor.
Qed.

Lemma str_take_prefix p : forall n k,
  str_take (String.length p + n) (p +:+ k) = p +:+ str_take n k.
Proof.
  induction p as [|c p IH]; intros n k; rewrite ?append_String, ?append_empty.
  - reflexivity.
  - cbn [String.length Nat.add str_take]. rewrite IH. reflexivity.
Qed.

Lemma str_take_all n : forall s, (String.length s <= n)%nat -> str_take n s = s.
Proof.
  induction n as [|n IH]; intros [|c s] H; cbn [str_take String.length] in *;
    try reflexivity; [lia|].
  rewrite IH by lia. reflexivity.
Qed.

Lemma str_take_length n : forall s,
  (n <= String.length s)%nat -> String.length (str_take n s) = n.
Proof.
  induction n as [|n IH]; intros [|c s] H; cbn [str_take String.length] in *;
    try reflexivity; [lia|].
  rewrite IH by lia. reflexivity.
Qed.

(** X19. The authorization header is built in 256 bytes: of a key
    without a NUL byte it keeps the first 233 characters after the 22 of
    its prefix.  A key of up to 233 characters is sent whole; a longer
    one ([load_env] accepts up to 496 characters) is cut, and the header
    sent is then not the one of the key. *)
Theorem auth_header_cuts_long_keys key :
  str_mem nul key = false ->
  auth_header key = AUTH_PREFIX +:+ str_take 233 key /\
  ((String.length key <= 233)%nat -> auth_header key = AUTH_PREFIX +:+ key) /\
  ((233 < String.length key)%nat ->
   String.length (auth_header key) = 255%nat /\
   auth_header key <> AUTH_PREFIX +:+ key).
Proof.
  intros Hz.
  assert (H : auth_header key = AUTH_PREFIX +:+ str_take 233 key).
  { unfold auth_header. rewrite (c_str_no_nul _ Hz).
    change 255%nat with (String.length AUTH_PREFIX + 233)%nat.
    apply str_take_prefix. }
  split; [exact H|]. split.
  - intros Hle. rewrite H, str_take_all by exact Hle. reflexivity.
  - intros Hgt.
    assert (Hl : String.length (auth_header key) = 255%nat).
    { rewrite H, length_app_str, str_take_length by lia. reflexivity. }
    split; [exact Hl|]. intros Heq. rewrite Heq, length_app_str in Hl.
    change (String.length AUTH_PREFIX) with 22%nat in Hl. lia.
Qed.

(** ** The monitor loop *)

Lemma monitor_round_unset w :
  g_stop_recording w = false ->
  monitor_round w = update_status "RECORDING" (g_current_level w) w.
Proof. intros H. unfold monitor_round, bind, gets. rewrite H. reflexivity. Qed.

Lemma monitor_rounds_file n : forall w line,
  g_stop_recording w = false -> g_status_file w = true ->
  statusfile w = Some line ->
  line = status_line "RECORDING" (g_current_level w) (now w - g_record_start_time w) ->
  statusfile (snd (monitor_rounds n w)) = Some line.
Proof.
  induction n as [|n IH]; intros w line Hstop Hopen Hfile Hline; [exact Hfile|].
  cbn [monitor_rounds]. unfold bind at 1. rewrite (monitor_round_unset _ Hstop).
  destruct (update_status_run "RECORDING" (g_current_level w) w)
    as (w1 & Hu & (_ & Ho & _ & Hs & Hst & Hl & _ & Hn) & _ & _ & Hsf).
  rewrite Hu. rewrite Hopen, Hfile in Hsf. cbn in Hsf.
  apply IH; [congruence|congruence| |congruence].
  rewrite Hsf, Hline. reflexivity.
Qed.

(** X20. The loop of the monitor thread: while the stop flag is unset
    and nothing else runs, every round rewrites the status file with the
    record RECORDING, the current level and the elapsed time, whatever it
    held (so it overwrites the status another thread has just written);
    once the flag is set a round does nothing. *)
Theorem monitor_loop_rewrites_status n w disk :
  g_status_file w = true -> statusfile w = Some disk ->
  (g_stop_recording w = false ->
   statusfile (snd (monitor_rounds (S n) w))
   = Some (status_line "RECORDING" (g_current_level w) (now w - g_record_start_time w)) /\
   trace (snd (monitor_rounds (S n) w))
   = trace w ++ replicate (S n) (Ev_update_status "RECORDING" (g_current_level w))) /\
  (g_stop_recording w = true -> monitor_rounds (S n) w = (Val tt, w)).
Proof.
  intros Hopen Hfile. split.
  - intros Hstop. split.
    + cbn [monitor_rounds]. unfold bind at 1. rewrite (monitor_round_unset _ Hstop).
      destruct (update_status_run "RECORDING" (g_current_level w) w)
        as (w1 & Hu & (_ & Ho & _ & Hs & Hst & Hl & _ & Hn) & _ & _ & Hsf).
      rewrite Hu. rewrite Hopen, Hfile in Hsf. cbn in Hsf.
      apply monitor_rounds_file; [congruence|congruence|exact Hsf|congruence].
    + destruct (monitor_rounds_run (S n) w) as (w' & k & Hr & _ & _ & Ht & _ & _ & Hk).
      rewrite Hr. cbn [snd]. rewrite Ht, (Hk Hstop). reflexivity.
  - intros Hstop. clear Hopen Hfile disk.
    induction (S n) as [|m IH]; [reflexivity|].
    cbn [monitor_rounds]. unfold bind at 1, monitor_round. unfold bind at 1, gets at 1.
    rewrite Hstop. exact IH.
Qed.

(** ** Failures that are not reported *)

(** X26. When a device opens but [snd_pcm_hw_params] fails, the capture
    thread closes the device and returns without any status update: the
    status channel never shows an error.  In a fresh daemon [main] then
    goes through PROCESSING and NO_AUDIO, cleans up and returns 0; no
    frame is read and no buffer is allocated. *)
Theorem hw_params_failure_is_silent env w :
  e_open_plughw env || e_open_default env = true -> e_hw_params env = false ->
  size (buf (g_audio_buffer w)) <= 0 ->
  exists w' mon0 mon1 mon2,
    main_child env w = (Val 0, w') /\
    trace w' = trace w ++ [Ev_update_status "CONNECTING" 0] ++ mon0
               ++ Ev_pcm_open "plughw:0,0"
                  :: (if e_open_plughw env then [] else [Ev_pcm_open "default"])
               ++ [Ev_pcm_close]
               ++ mon1 ++ [Ev_update_status "PROCESSING" 0] ++ mon2
               ++ [Ev_update_status "NO_AUDIO" 0] /\
    Forall is_monitor_event (mon0 ++ mon1 ++ mon2) /\
    (g_stop_recording w = true -> mon0 ++ mon1 ++ mon2 = []) /\
    pidfile w' = None /\
    g_audio_buffer w' = free_audio_buffer (g_audio_buffer w).
Proof.
  intros Hopen Hhw Hsz.
  destruct (session_start_run w) as (wa & Ha & Hta & _ & Hsa & Hba & _ & Hfa & _).
  destruct (yield_monitor wa) as (wb & mon0 & Hb & Hsb & Htb & Hm0 & Hz0).
  destruct (open_device_run env wb) as (wc & Hc & Hsc & _ & Htc).
  rewrite Hopen in Hc.
  destruct (emit_run Ev_pcm_close wc) as (wx & Hx & Hsx & _ & _ & Htx).
  destruct (yield_monitor wx) as (wd & mon1 & Hd' & Hsd & Htd & Hm1 & Hz1).
  destruct (update_status_run "PROCESSING" 0 wd) as (we & He & Hse & _ & Hte & _).
  destruct (yield_monitor we) as (wf & mon2 & Hf & Hsf & Htf & Hm2 & Hz2).
  set (w1 := set_g_stop_recording true wf).
  destruct Hsb as (_&_&_&Hstb&_&_&Hbb&_). destruct Hsc as (_&_&_&Hstc&_&_&Hbc&_).
  destruct Hsx as (_&_&_&Hstx&_&_&Hbx&_).
  destruct Hsd as (_&_&_&Hstd&_&_&Hbd&_). destruct Hse as (_&_&_&Hste&_&_&Hbe&_).
  destruct Hsf as (_&_&_&Hstf&_&_&Hbf&_).
  assert (Hrec : record_phase env w = (Val tt, w1)).
  { unfold record_phase. unfold bind at 1. rewrite Ha.
    unfold bind at 1. unfold recording_thread. unfold bind at 1.
    unfold recording_prologue. unfold bind at 1. rewrite Hb.
    unfold bind at 1. rewrite Hc, Hhw. cbn [negb].
    unfold bind at 1. rewrite Hx. unfold ret at 1. unfold ret at 1.
    unfold bind at 1. rewrite Hd'. unfold bind at 1. rewrite He.
    unfold bind at 1. rewrite Hf. reflexivity. }
  assert (Hbuf : g_audio_buffer w1 = g_audio_buffer w) by (subst w1; cbn; congruence).
  assert (Ht1 : trace w1 = trace w ++ [Ev_update_status "CONNECTING" 0] ++ mon0
               ++ Ev_pcm_open "plughw:0,0"
                  :: (if e_open_plughw env then [] else [Ev_pcm_open "default"])
               ++ [Ev_pcm_close]
               ++ mon1 ++ [Ev_update_status "PROCESSING" 0] ++ mon2).
  { subst w1. cbn [trace set_g_stop_recording].
    rewrite Htf, Hte, Htd, Htx, Htc, Htb, Hta.
    destruct (e_open_plughw env), (e_open_default env); try discriminate Hopen;
      rewrite <- !app_assoc; reflexivity. }
  destruct (update_status_run "NO_AUDIO" 0 w1) as (w2 & Hn & Hst & _ & Ht2 & _).
  destruct (cleanup_run w2) as (w3 & Hcl & Ht3 & Hpid & _ & Hb3).
  assert (Hpa : process_audio env w1 = (Val tt, w2)).
  { unfold process_audio. unfold bind at 1, gets at 1. rewrite Hbuf.
    destruct (Z.gtb_spec (size (buf (g_audio_buffer w))) 0); [lia|exact Hn]. }
  exists w3, mon0, mon1, mon2. split.
  { rewrite (main_child_after_record _ _ _ Hrec).
    unfold bind at 1. rewrite Hpa. unfold bind at 1. rewrite Hcl. reflexivity. }
  split.
  { rewrite Ht3, Ht2, Ht1.
    destruct (e_open_plughw env); do 3 (cbn [app]; rewrite <- ?app_assoc); reflexivity. }
  split. { repeat (apply Forall_app; split); assumption. }
  split. { intros Hstop. rewrite Hz0, Hz1, Hz2 by congruence. reflexivity. }
  split; [exact Hpid|].
  destruct Hst as (_&_&_&_&_&_&Hb2&_). rewrite Hb3, Hb2, Hbuf. reflexivity.
Qed.

(** X27. The parent does not report a pid file that it cannot write: it
    still returns 0.  The daemon then runs without a pid file, so the next
    invocation finds none, sends no signal and goes on to start another
    recording instead of stopping this one. *)
Theorem unwritable_pidfile_loses_toggle env w key :
  pidfile w = None -> e_api_key env = Some key ->
  0 < e_fork env -> e_pid_open env = false ->
  exists w',
    main (e_fork env) env w = (Val 0, w') /\
    pidfile w' = None /\ trace w' = trace w /\
    check_running env w' = (Val 0, w') /\
    exists w'',
      main_startup env w' = (Val None, w'') /\ trace w'' = trace w.
Proof.
  intros Hp Hk Hf Ho.
  assert (Hgt : (e_fork env >? 0) = true) by (apply Z.gtb_lt; exact Hf).
  assert (Hstart : forall w0, pidfile w0 = None ->
    exists w1, main_startup env w0 = (Val None, w1) /\
               pidfile w1 = None /\ trace w1 = trace w0).
  { intros w0 Hp0. unfold main_startup. unfold bind at 1.
    rewrite (check_running_absent env w0 Hp0). cbn [Z.gtb Z.compare].
    destruct (e_status_open env); cbn; rewrite Hk; cbn; eexists;
      (split; [reflexivity|]); cbn; auto. }
  destruct (Hstart w Hp) as (w1 & Hs1 & Hp1 & Ht1).
  exists w1. unfold main. unfold bind at 1. rewrite Hs1, Hgt.
  unfold main_parent. rewrite Ho. cbn.
  split; [reflexivity|]. split; [exact Hp1|]. split; [exact Ht1|].
  split; [apply check_running_absent; exact Hp1|].
  destruct (Hstart w1 Hp1) as (w2 & Hs2 & _ & Ht2).
  exists w2. split; [exact Hs2|congruence].
Qed.

(** ** Instances of the further properties *)

Lemma buffer_alloc_free_balanced_witness :
  appends small_ops (init_audio_buffer 5 2 empty_mem) = Val small_run /\
  heap (free_audio_buffer small_run) = heap empty_mem /\
  buf (free_audio_buffer small_run) = mkAudioBuffer NULL 0 0.
Proof.
  assert (Hrun : appends small_ops (init_audio_buffer 5 2 empty_mem) = Val small_run)
    by (vm_compute; reflexivity).
  split; [exact Hrun|].
  destruct (buffer_alloc_free_balanced 5 2 empty_mem small_ops small_run)
    as (Hheap & Hbuf & _);
    [discriminate|reflexivity|reflexivity|repeat constructor|exact Hrun|].
  split; [exact Hheap|exact Hbuf].
Defined.

Lemma append_zero_capacity_diverges_witness :
  append_audio_buffer 7 [1] empty_mem = Diverged.
Proof.
  apply (append_zero_capacity_diverges 7 [1] empty_mem);
    [reflexivity|reflexivity|split; reflexivity].
Defined.

Lemma response_accumulates_chunks_witness :
  exists r',
    receive sample_chunks (empty_response ∅) = Val (true, r') /\
    resp_size (resp r') = 3.
Proof.
  destruct (response_accumulates_chunks ∅ sample_chunks) as (r' & Hrun & Hsz & _).
  - repeat constructor; discriminate.
  - reflexivity.
  - exists r'. split; [exact Hrun|exact Hsz].
Defined.

Lemma response_keeps_prefix_on_failure_witness :
  exists r',
    receive ([(5, [104; 105])] ++ [(NULL, [33])]) (empty_response ∅) = Val (false, r') /\
    resp_holds r' [104; 105].
Proof.
  destruct (response_keeps_prefix_on_failure ∅ [(5, [104; 105])] [33] [])
    as (r' & Hrun & Hholds & _).
  - repeat constructor; discriminate.
  - discriminate.
  - reflexivity.
  - exists r'. split; [exact Hrun|exact Hholds].
Defined.

Lemma load_env_reads_key_witness :
  load_env (Some sample_env_file) None = Some "sk-test".
Proof.
  apply (load_env_reads_key ["# settings"; "MODEL=whisper-1"] (Some (dquote, dquote))
           "sk-test" ("X=1" +:+ String newline EmptyString) None).
  - repeat constructor; apply Nat.leb_le; reflexivity.
  - reflexivity.
  - reflexivity.
  - split; reflexivity.
  - apply Nat.leb_le. reflexivity.
Defined.

Lemma load_env_key_shape_witness :
  load_env None (Some sample_env_file) = Some "sk-test" /\
  str_mem newline "sk-test" = false /\ str_mem nul "sk-test" = false /\
  (String.length "sk-test" <= 496)%nat.
Proof.
  assert (H : load_env None (Some sample_env_file) = Some "sk-test")
    by (vm_compute; reflexivity).
  split; [exact H|]. exact (load_env_key_shape None (Some sample_env_file) "sk-test" H).
Defined.

Lemma start_failures_return_1_witness :
  exists w',
    main 0 env_no_key (boot None None 0 []) = (Val 1, w') /\
    pidfile w' = None /\ statusfile w' = Some "".
Proof.
  destruct (start_failures_return_1 env_no_key (boot None None 0 []) 0 (boot None None 0 []))
    as [Hkey _]; [reflexivity|lia|].
  destruct (Hkey eq_refl 0) as (w' & Hm & Hp & _ & Hs).
  exists w'. split; [exact Hm|]. split; [exact Hp|exact Hs].
Defined.

Lemma unreadable_pidfile_uses_uninitialised_pid_witness :
  main 0 env_stray_pid (boot (Some "") None 0 [])
  = (Val 0, set_trace [Ev_signal 77 SIGUSR1] (boot (Some "") None 0 [])).
Proof.
  apply (unreadable_pidfile_uses_uninitialised_pid env_stray_pid (boot (Some "") None 0 []) "" 0);
    reflexivity.
Defined.

Lemma daemon_return_cleans_up_witness :
  let w := world_at_fork env_frames [] in
  main_child env_frames w = (Val 0, snd (main_child env_frames w)) /\
  pidfile (snd (main_child env_frames w)) = None /\
  buf (g_audio_buffer (snd (main_child env_frames w))) = mkAudioBuffer NULL 0 0.
Proof.
  intros w.
  assert (H : main_child env_frames w = (Val 0, snd (main_child env_frames w)))
    by (vm_compute; reflexivity).
  split; [exact H|].
  destruct (daemon_return_cleans_up env_frames w 0 _ H) as (_ & Hp & _ & Hb & _).
  split; [exact Hp|exact Hb].
Defined.

Lemma empty_response_crashes_daemon_witness :
  let w := world_at_fork env_no_body [] in
  exists w',
    main_child env_no_body w = (Crashed, w') /\
    pidfile w' = pidfile w /\
    statusfile w' = Some (status_line "UPLOADING" 0 4).
Proof.
  intros w.
  assert (Hr : record_phase env_no_body w = (Val tt, snd (record_phase env_no_body w)))
    by (vm_compute; reflexivity).
  destruct (empty_response_crashes_daemon env_no_body w _ Hr)
    as (w' & Hm & _ & Hp & _ & Hs);
    [vm_compute; reflexivity|reflexivity|reflexivity|reflexivity|reflexivity|].
  exists w'. split; [exact Hm|]. split; [exact Hp|].
  rewrite Hs. vm_compute. reflexivity.
Defined.

Lemma failed_upload_exits_cleanly_witness :
  let w := world_at_fork env_curl_fails [] in
  exists w' t,
    main_child env_curl_fails w = (Val 0, w') /\
    t = [Ev_upload 6] /\ pidfile w' = None.
Proof.
  intros w.
  assert (Hr : record_phase env_curl_fails w = (Val tt, snd (record_phase env_curl_fails w)))
    by (vm_compute; reflexivity).
  destruct (failed_upload_exits_cleanly env_curl_fails w _ Hr)
    as (w' & t & Hm & _ & Ht & _ & Hp);
    [vm_compute; reflexivity|right; right; left; reflexivity|].
  exists w', t. split; [exact Hm|]. split; [exact Ht|exact Hp].
Defined.

Lemma capture_accumulates_frames_witness :
  exists b' w',
    capture_prefix sample_ticks [] world_small_buffer = (Val (Some b'), w') /\
    buf_holds 4 (g_audio_buffer w') ([] ++ captured sample_ticks) /\
    size (buf (g_audio_buffer w')) = 0 + 2 * 3.
Proof.
  destruct (capture_accumulates_frames 4 sample_ticks [] world_small_buffer [])
    as (b' & w' & Hc & Hh & Hs & _).
  - repeat constructor; try discriminate; cbn; try lia; right; discriminate.
  - reflexivity.
  - apply init_audio_buffer_holds; [discriminate|split; reflexivity].
  - reflexivity.
  - vm_compute. discriminate.
  - exists b', w'. split; [exact Hc|]. split; [exact Hh|exact Hs].
Defined.

Lemma stop_ends_capture_without_read_witness :
  exists w' mon,
    capture_loop (tick_stop :: [tick_a]) [] world_small_buffer = (Val tt, w') /\
    trace w' = trace world_small_buffer ++ mon /\
    g_audio_buffer w' = g_audio_buffer world_small_buffer.
Proof.
  destruct (stop_ends_capture_without_read tick_stop [tick_a] [] world_small_buffer)
    as (w' & mon & _ & Hl & Ht & _ & _ & Hb & _); [right; reflexivity|].
  exists w', mon. split; [exact Hl|]. split; [exact Ht|exact Hb].
Defined.

Lemma session_uploads_captured_frames_witness :
  let w := world_at_fork env_frames [] in
  (exists w1,
     record_phase env_frames w = (Val tt, w1) /\
     size (buf (g_audio_buffer w1)) = 2 * 3) /\
  In (Ev_upload (2 * 3)) (trace (snd (main_child env_frames w))).
Proof.
  intros w.
  destruct (session_uploads_captured_frames env_frames w sample_ticks tick_stop [])
    as (w1 & Hr & _ & Hs & _ & Hup).
  - reflexivity.
  - reflexivity.
  - discriminate.
  - reflexivity.
  - repeat constructor; try discriminate; cbn; try lia; right; discriminate.
  - reflexivity.
  - reflexivity.
  - vm_compute. discriminate.
  - split; [exists w1; split; [exact Hr|exact Hs]|].
    apply Hup; [discriminate|reflexivity|reflexivity].
Defined.

Lemma failed_malloc_crashes_daemon_witness :
  let w := world_at_fork env_no_memory [] in
  exists w',
    main_child env_no_memory w = (Crashed, w') /\
    pidfile w' = pidfile w /\ last (trace w') = Some Ev_pcm_readi.
Proof.
  intros w.
  destruct (failed_malloc_crashes_daemon env_no_memory w tick_a [tick_stop] [100; -200])
    as (w' & _ & Hm & Hp & Hl);
    try reflexivity; try discriminate.
  exists w'. split; [exact Hm|]. split; [exact Hp|exact Hl].
Defined.

Lemma status_field_roundtrip_witness :
  exists line,
    statusfile (snd (update_status "COPIED" 0 world_status_open)) = Some line /\
    status_field line = "COPIED".
Proof.
  destruct (status_field_roundtrip "READY" 0 "COPIED" 0 world_status_open
              "PROCESSING|0.00|00:07") as [Hopen _]; [reflexivity|reflexivity|].
  exact (proj1 (Hopen eq_refl)).
Defined.

Lemma auth_header_cuts_long_keys_witness :
  String.length long_key = 240%nat /\
  String.length (auth_header long_key) = 255%nat.
Proof.
  split; [reflexivity|].
  destruct (auth_header_cuts_long_keys long_key) as (_ & _ & Hlong); [reflexivity|].
  apply Hlong. apply Nat.ltb_lt. reflexivity.
Defined.

Lemma monitor_loop_rewrites_status_witness :
  statusfile (snd (monitor_rounds 3 world_status_open))
  = Some (status_line "RECORDING" 0 0).
Proof.
  destruct (monitor_loop_rewrites_status 2 world_status_open "PROCESSING|0.00|00:07")
    as [Hrun _]; [reflexivity|reflexivity|].
  exact (proj1 (Hrun eq_refl)).
Defined.

Lemma level_field_format_witness :
  exists h,
    0 <= h <= 100 /\
    fmt_2f (16384 # 32768) = fmt_d (h / 100) +:+ "." +:+ fmt_02ld (h mod 100) /\
    String.length (fmt_2f (16384 # 32768)) = 4%nat.
Proof.
  destruct (level_field_format 16384) as (h & Hh & Hf & Hl & _); [lia|].
  exists h. split; [exact Hh|]. split; [exact Hf|exact Hl].
Defined.

Lemma unescape_in_place_refines_witness :
  c_str (string_of_list_ascii
           (unescape_in_place (S (String.length "a\nb"))
              (list_ascii_of_string "a\nb" ++ [nul]) 0 0))
  = unescape "a\nb".
Proof. apply (unescape_in_place_refines "a\nb"). reflexivity. Defined.

Lemma extraction_roundtrip_quote_free_witness :
  parse_response (json_text_response "hello world") = Some "hello world".
Proof. apply (extraction_roundtrip_quote_free "hello world"); reflexivity. Defined.

Lemma grow_loop_fuel_witness :
  grow_loop (GROW_FUEL + 5) 4 7 = grow_loop GROW_FUEL 4 7.
Proof. apply (grow_loop_fuel 4 7 5). split; [lia|reflexivity]. Defined.

Lemma hw_params_failure_is_silent_witness :
  let w := world_at_fork env_hw_refused [] in
  exists w',
    main_child env_hw_refused w = (Val 0, w') /\
    statuses (trace w') = ["CONNECTING"; "PROCESSING"; "NO_AUDIO"] /\
    pidfile w' = None.
Proof.
  intros w.
  destruct (hw_params_failure_is_silent env_hw_refused w)
    as (w' & mon0 & mon1 & mon2 & Hm & Ht & _ & _ & Hp & _);
    [reflexivity|reflexivity|cbn; lia|].
  exists w'. split; [exact Hm|]. split; [|exact Hp].
  assert (Hw : w' = snd (main_child env_hw_refused w)) by (rewrite Hm; reflexivity).
  rewrite Hw. vm_compute. reflexivity.
Defined.

Lemma unwritable_pidfile_loses_toggle_witness :
  exists w',
    main 4242 env_pid_unwritable (boot None None 0 []) = (Val 0, w') /\
    pidfile w' = None /\
    check_running env_pid_unwritable w' = (Val 0, w').
Proof.
  destruct (unwritable_pidfile_loses_toggle env_pid_unwritable (boot None None 0 []) "sk-test")
    as (w' & Hm & Hp & _ & Hc & _); [reflexivity|reflexivity|reflexivity|reflexivity|].
  exists w'. split; [exact Hm|]. split; [exact Hp|exact Hc].
Defined.
